(** * Secret Links SDK: interval controller, link poller and listener registry

    A shallow embedding of [src/utils.ts], [src/adaptive-poller.ts],
    [src/link-poller.ts] and [src/secret-links-sdk.ts], and the properties
    of the polling engine proved on it.

    Conventions of the embedding.
    - A JavaScript string is the list of its UTF-16 code units.
    - A JavaScript number holding a duration is an exact rational ([Qc]);
      rounding of IEEE doubles is not modelled.  The interval options of the
      registry come from the caller unchecked, so they and the intervals
      stored from them also range over [NaN] and the two infinities
      ([jsnumber]).  Counters, HTTP status codes and timer handles are [N];
      clock readings ([Date.now()]) are [Z].
    - An object is a record; a method takes the object and returns the
      updated object.  [LinkPoller] objects are shared between the registry
      table, armed timers and suspended [poll] calls, so the registry keeps
      them in a heap and refers to them by reference.
    - An [async] method is cut at its [await]: the part before it runs when
      the method is called, the part after it when the awaited fetch settles.
      Between the two, any other operation may run.
    - What the platform decides is an input: clock readings, the digits of
      [Math.random()], timer firings, the outcome of each fetch, and the
      [URL] constructor.
    - A caller-supplied handler is a function that returns or throws; a
      handler that calls back into the SDK is not modelled.
    - [console] output ([debugLog], the default error handler) is not part of
      the state and is left out. *)

From Stdlib Require Import ZArith NArith QArith Qcanon List String Ascii Lia.
From Stdlib Require Import DecimalN DecimalZ DecimalFacts.
From stdpp Require Import base option list gmap strings.
Import ListNotations.

(** ** JavaScript strings and numbers *)

Abbreviation jsstring := (list N).
Abbreviation number := Qc.

(** A string literal of the source, as code units. *)
Definition str (s : string) : jsstring :=
  List.map N_of_ascii (list_ascii_of_string s).
Arguments str : simpl never.

(** A whole number of milliseconds as a JavaScript number. *)
Definition millis (z : Z) : number := Q2Qc (inject_Z z).

Definition Math_max (a b : number) : number :=
  match (a ?= b)%Qc with Lt => b | _ => a end.

Definition Math_min (a b : number) : number :=
  match (a ?= b)%Qc with Gt => b | _ => a end.

(** [x > 0] on numbers. *)
Definition positive_number (x : number) : bool :=
  match (x ?= millis 0)%Qc with Gt => true | _ => false end.

(** A number as a caller may pass it: a finite value, or one of the three
    doubles that are not finite. *)
Inductive jsnumber :=
| Finite (q : number)
| Infinity
| MinusInfinity
| NaN.

Coercion Finite : Qc >-> jsnumber.

(** [x < bound]: false whenever [x] is [NaN]. *)
Definition less_than (x : jsnumber) (bound : number) : bool :=
  match x with
  | Finite q => match (q ?= bound)%Qc with Lt => true | _ => false end
  | MinusInfinity => true
  | Infinity | NaN => false
  end.

(** Truthiness of a number: [0] and [NaN] are falsy. *)
Definition truthy_number (x : jsnumber) : bool :=
  match x with
  | Finite q => match (q ?= millis 0)%Qc with Eq => false | _ => true end
  | NaN => false
  | Infinity | MinusInfinity => true
  end.

(** Decimal rendering of integers inside template literals. *)
Fixpoint uint_units (d : Decimal.uint) : jsstring :=
  match d with
  | Decimal.Nil => []
  | Decimal.D0 d => 48%N :: uint_units d
  | Decimal.D1 d => 49%N :: uint_units d
  | Decimal.D2 d => 50%N :: uint_units d
  | Decimal.D3 d => 51%N :: uint_units d
  | Decimal.D4 d => 52%N :: uint_units d
  | Decimal.D5 d => 53%N :: uint_units d
  | Decimal.D6 d => 54%N :: uint_units d
  | Decimal.D7 d => 55%N :: uint_units d
  | Decimal.D8 d => 56%N :: uint_units d
  | Decimal.D9 d => 57%N :: uint_units d
  end.

Definition N_toString (n : N) : jsstring := uint_units (N.to_uint n).

Definition Z_toString (z : Z) : jsstring :=
  match Z.to_int z with
  | Decimal.Pos d => uint_units d
  | Decimal.Neg d => 45%N :: uint_units d
  end.

(** [s.substring(0, n)] *)
Definition substring0 (n : nat) (s : jsstring) : jsstring := firstn n s.

(** A thrown value: an [Error] object with its message, or any other value
    with its [String(...)] rendering. *)
Inductive Thrown :=
| ThrownError (message : jsstring)
| ThrownOther (rendering : jsstring).

(** [error instanceof Error ? error : new Error(String(error))], as the
    message of the resulting [Error]. *)
Definition toError (e : Thrown) : jsstring :=
  match e with
  | ThrownError m => m
  | ThrownOther r => r
  end.

(** Completion of a call: a value, or a thrown exception (a rejected promise
    for an [async] function). *)
Inductive Completion (A : Type) :=
| Normal (a : A)
| Throw (e : Thrown).
Arguments Normal {A} a.
Arguments Throw {A} e.

(** ** Regular expressions ([LINK_PATTERNS])

    A backtracking matcher with greedy quantifiers and capture groups, enough
    for the two patterns of [utils.ts].  Both patterns are anchored with [^]
    and [$] and carry no flags, so [exec] matches the whole input. *)

Inductive regex :=
| Lit (c : N)
| Class (p : N -> bool)
| Cat (r1 r2 : regex)
| Opt (r : regex)
| Star (r : regex)
| Repeat (lo hi : nat) (r : regex)
| Group (i : nat) (r : regex).

Definition captures := nat -> option jsstring.

Definition no_captures : captures := fun _ => None.

Definition set_capture (i : nat) (v : jsstring) (c : captures) : captures :=
  fun j => if Nat.eqb i j then Some v else c j.

Fixpoint rmatch (r : regex) (s : jsstring)
  (k : jsstring -> captures -> option captures) (c : captures) {struct r}
  : option captures :=
  match r with
  | Lit x =>
      match s with
      | y :: s' => if N.eqb x y then k s' c else None
      | [] => None
      end
  | Class p =>
      match s with
      | y :: s' => if p y then k s' c else None
      | [] => None
      end
  | Cat r1 r2 => rmatch r1 s (fun s' c' => rmatch r2 s' k c') c
  | Opt r1 =>
      match rmatch r1 s k c with
      | Some res => Some res
      | None => k s c
      end
  | Star r1 =>
      (fix loop (fuel : nat) (s : jsstring) (c : captures) {struct fuel} :=
         match fuel with
         | O => k s c
         | S fuel' =>
             match rmatch r1 s
                     (fun s' c' =>
                        if Nat.ltb (length s') (length s)
                        then loop fuel' s' c' else None) c with
             | Some res => Some res
             | None => k s c
             end
         end) (length s) s c
  | Repeat lo hi r1 =>
      (fix rep (lo hi : nat) (s : jsstring) (c : captures) {struct hi} :=
         match hi with
         | O => if Nat.eqb lo 0 then k s c else None
         | S hi' =>
             match rmatch r1 s (fun s' c' => rep (Nat.pred lo) hi' s' c') c with
             | Some res => Some res
             | None => if Nat.eqb lo 0 then k s c else None
             end
         end) lo hi s c
  | Group i r1 =>
      rmatch r1 s
        (fun s' c' => k s' (set_capture i (firstn (length s - length s') s) c')) c
  end.

(** [s.match(/^r$/)]: the capture groups, or [None] for [null]. *)
Definition exec (r : regex) (s : jsstring) : option captures :=
  rmatch r s (fun rest c => match rest with [] => Some c | _ => None end)
    no_captures.

Fixpoint lits (s : jsstring) : regex :=
  match s with
  | [] => Opt (Class (fun _ => false))
  | [c] => Lit c
  | c :: s' => Cat (Lit c) (lits s')
  end.

Definition Plus (r : regex) : regex := Cat r (Star r).

Definition in_range (lo hi x : N) : bool := N.leb lo x && N.leb x hi.

(** [[a-zA-Z0-9_-]] *)
Definition token_unit (x : N) : bool :=
  in_range 97 122 x || in_range 65 90 x || in_range 48 57 x
  || N.eqb x 95 || N.eqb x 45.

(** [[^\/]] *)
Definition not_slash (x : N) : bool := negb (N.eqb x 47).

(** [.] without the [s] flag: anything but a line terminator. *)
Definition dot_unit (x : N) : bool :=
  negb (N.eqb x 10 || N.eqb x 13 || N.eqb x 8232 || N.eqb x 8233).

(** [LINK_PATTERNS.secretLinks]: the literal prefix
    [https://secret.annai.ai/link/]; group 1, sixteen to sixty-four units of
    the token class; optionally group 2, a question mark and any run of
    non-terminators; optionally group 3, a hash sign and any run of
    non-terminators; end of input. *)
Definition secretLinks : regex :=
  Cat (lits (str "https://secret.annai.ai/link/"))
 (Cat (Group 1 (Repeat 16 64 (Class token_unit)))
 (Cat (Opt (Group 2 (Cat (Lit 63) (Star (Class dot_unit)))))
      (Opt (Group 3 (Cat (Lit 35) (Star (Class dot_unit))))))).

(** [LINK_PATTERNS.customDomain]: the literal [https://]; group 1, one or
    more units other than a slash; the literal [/link/]; group 2, the token;
    then the optional query and fragment groups 3 and 4 as above. *)
Definition customDomain : regex :=
  Cat (lits (str "https://"))
 (Cat (Group 1 (Plus (Class not_slash)))
 (Cat (lits (str "/link/"))
 (Cat (Group 2 (Repeat 16 64 (Class token_unit)))
 (Cat (Opt (Group 3 (Cat (Lit 63) (Star (Class dot_unit)))))
      (Opt (Group 4 (Cat (Lit 35) (Star (Class dot_unit))))))))).

(** [match[i]], with [undefined] read as the empty string where the source
    only tests truthiness. *)
Definition group (c : captures) (i : nat) : jsstring :=
  match c i with Some v => v | None => [] end.

(** ** Types ([types.ts]) *)

Inductive LinkType := ping | webhook.

Inductive LinkStatus := active | expired | exhausted | deleted.

Record LinkInfo := {
  isValid : bool;
  token : jsstring;
  type : LinkType;
  hasPassword : bool;
  hasEncryption : bool;
  domain : jsstring;
  password : option jsstring;
  encryptionKey : option jsstring
}.

Record Metadata := {
  source : jsstring;
  userAgent : option jsstring;
  ipAddress : option jsstring
}.

(** [data: any] is kept as its JSON text. *)
Record PayloadData := {
  payload_type : LinkType;
  payload_timestamp : Z;
  payload_data : jsstring;
  payload_metadata : option Metadata
}.

Record PollRequest := {
  req_token : jsstring;
  req_type : LinkType;
  req_password : option jsstring;
  req_clientId : option jsstring;
  req_timestamp : option Z;
  req_lastSeen : option Z
}.

Record PollResponse := {
  hasNewContent : bool;
  payload : option PayloadData;
  nextPollIn : option number;
  error : option jsstring;
  linkStatus : LinkStatus
}.

(** A caller-supplied handler returns or throws. *)
Definition Handler (A : Type) := A -> LinkInfo -> Completion unit.

Record LinkCallbacks := {
  onPayload : option (Handler PayloadData);
  onError : option (Handler jsstring);
  onStatusChange : option (Handler LinkStatus)
}.

Record PollerOptions := {
  opt_endpoint : jsstring;
  opt_apiKey : option jsstring;
  opt_interval : jsnumber;
  opt_callbacks : LinkCallbacks;
  opt_debug : option bool
}.

Record ValidationOptions := {
  allowedDomains : option (list jsstring);
  allowedLinkTypes : option (list LinkType);
  requirePassword : option bool
}.

Record SDKOptions := {
  sdk_pollingEndpoint : jsstring;
  sdk_apiKey : option jsstring;
  sdk_pingInterval : option jsnumber;
  sdk_webhookInterval : option jsnumber;
  sdk_onError : option (jsstring -> Completion unit);
  sdk_debug : option bool;
  sdk_validation : option ValidationOptions
}.

(** Truthiness of an optional string: [undefined] and the empty string are
    falsy. *)
Definition truthy_string (o : option jsstring) : bool :=
  match o with
  | Some (_ :: _) => true
  | _ => false
  end.

Definition LinkType_eqb (a b : LinkType) : bool :=
  match a, b with
  | ping, ping | webhook, webhook => true
  | _, _ => false
  end.

Definition jsstring_eqb (a b : jsstring) : bool := bool_decide (a = b).

(** [xs.includes(x)] *)
Definition includes {A} (eqb : A -> A -> bool) (xs : list A) (x : A) : bool :=
  existsb (eqb x) xs.

(** ** Utilities ([utils.ts]) *)

(** The part of the platform [URL] object that [parseLink] reads:
    [searchParams.get('password')] ([None] when [has('password')] is false)
    and [hash]. *)
Record URLObject := {
  searchParams_password : option jsstring;
  hash : jsstring
}.

(** A value passed where a string is expected. *)
Inductive JsArg :=
| JsString (s : jsstring)
| JsOther (truthy : bool).

Definition invalidLink : LinkInfo :=
  {| isValid := false; token := []; type := ping; hasPassword := false;
     hasEncryption := false; domain := []; password := None;
     encryptionKey := None |}.

Definition detectLinkType (token : jsstring) : LinkType :=
  if Nat.leb (length token) 24 then ping else webhook.

Section Utils.

(** The platform's [new URL(url)]; [None] when the constructor throws a
    [TypeError]. *)
Variable URL_new : jsstring -> option URLObject.

Definition parseLink (url : JsArg) : Completion LinkInfo :=
  match url with
  | JsOther _ => Normal invalidLink
  | JsString [] => Normal invalidLink
  | JsString url =>
      let '(match_, domain, token) :=
        match exec secretLinks url with
        | None =>
            match exec customDomain url with
            | Some m => (Some m, group m 1, group m 2)
            | None => (None, str "secret.annai.ai", [])
            end
        | Some m => (Some m, str "secret.annai.ai", group m 1)
        end in
      match match_, token with
      | None, _ | _, [] => Normal invalidLink
      | Some _, _ =>
          match URL_new url with
          | None => Throw (ThrownError (str "Invalid URL"))
          | Some urlObj =>
              let hasPassword := bool_decide (is_Some (searchParams_password urlObj)) in
              let hasEncryption := Nat.ltb 1 (length (hash urlObj)) in
              let password :=
                if truthy_string (searchParams_password urlObj)
                then searchParams_password urlObj else None in
              let encryptionKey :=
                if hasEncryption then Some (skipn 1 (hash urlObj)) else None in
              Normal {| isValid := true; token := token;
                        type := detectLinkType token;
                        hasPassword := hasPassword;
                        hasEncryption := hasEncryption;
                        domain := domain;
                        password := password;
                        encryptionKey := encryptionKey |}
          end
      end
  end.

End Utils.

(** The input is not a string, is empty, or matches neither pattern: wrong
    scheme or host shape, no [/link/] segment, or a token that is not 16 to
    64 units of the token class. *)
Definition fails_link_shape (url : JsArg) : Prop :=
  match url with
  | JsString s => s = [] \/ (exec secretLinks s = None /\ exec customDomain s = None)
  | JsOther _ => True
  end.

(** What may follow the token of a link: nothing, or a question mark or a
    hash sign followed by units none of which is a line terminator. *)
Definition query_or_fragment (rest : jsstring) : Prop :=
  rest = []
  \/ exists x q, rest = x :: q /\ (x = 63%N \/ x = 35%N)
                 /\ Forall (fun u => dot_unit u = true) q.

(** What [exec] does after the last group: the input must be used up. *)
Definition at_end : jsstring -> captures -> option captures :=
  fun rest c => match rest with [] => Some c | _ => None end.

(** [generateClientId()]: the clock reading and the base-36 digits taken
    from [Math.random()] are supplied by the caller. *)
Definition generateClientId (now : Z) (random36 : jsstring) : jsstring :=
  str "sdk-" ++ Z_toString now ++ str "-" ++ random36.

(** ** Interval controller ([adaptive-poller.ts]) *)

Module AdaptivePoller.

Record t := {
  token : jsstring;
  baseInterval : number;
  currentInterval : number;
  backoffMultiplier : number;
  maxInterval : number;
  consecutiveEmpty : N;
  debug : bool
}.

Definition new (token : jsstring) (type : LinkType) (debug : bool) : t :=
  let base := match type with ping => millis 10000 | webhook => millis 60000 end in
  {| token := token;
     baseInterval := base;
     currentInterval := base;
     backoffMultiplier := Q2Qc (3 # 2);
     maxInterval := millis 300000;
     consecutiveEmpty := 0;
     debug := debug |}.

Definition set_currentInterval (v : number) (self : t) : t :=
  {| token := token self; baseInterval := baseInterval self;
     currentInterval := v;
     backoffMultiplier := backoffMultiplier self;
     maxInterval := maxInterval self;
     consecutiveEmpty := consecutiveEmpty self; debug := debug self |}.

Definition set_consecutiveEmpty (v : N) (self : t) : t :=
  {| token := token self; baseInterval := baseInterval self;
     currentInterval := currentInterval self;
     backoffMultiplier := backoffMultiplier self;
     maxInterval := maxInterval self;
     consecutiveEmpty := v; debug := debug self |}.

(** [nextPollIn && nextPollIn > 0] *)
Definition suggested (nextPollIn : option number) : option number :=
  match nextPollIn with
  | Some n => if positive_number n then Some n else None
  | None => None
  end.

Definition adjustInterval (self : t) (hasNewContent : bool)
  (nextPollIn : option number) : t :=
  match suggested nextPollIn with
  | Some n => set_currentInterval (Math_max n (millis 1000)) self
  | None =>
      if hasNewContent then
        set_consecutiveEmpty 0 (set_currentInterval (baseInterval self) self)
      else
        let self := set_consecutiveEmpty (consecutiveEmpty self + 1) self in
        if N.leb 3 (consecutiveEmpty self) then
          set_currentInterval
            (Math_min (currentInterval self * backoffMultiplier self)%Qc
                      (maxInterval self)) self
        else self
  end.

Definition reset (self : t) : t :=
  set_consecutiveEmpty 0 (set_currentInterval (baseInterval self) self).

Definition getInterval (self : t) : number := currentInterval self.

Definition getConsecutiveEmpty (self : t) : N := consecutiveEmpty self.

(** The states a controller goes through: built by the constructor, then
    changed only by its two mutating methods. *)
Inductive reachable : t -> Prop :=
| reach_new token type debug : reachable (new token type debug)
| reach_adjust a hasNewContent nextPollIn :
    reachable a -> reachable (adjustInterval a hasNewContent nextPollIn)
| reach_reset a : reachable a -> reachable (reset a).

End AdaptivePoller.

(** *** Runs of the controller *)

Module AdaptivePollerRuns.
Import AdaptivePoller.

(** [n] consecutive cycles without content and without a server suggestion. *)
Definition empty_cycles (n : nat) (a : t) : t :=
  Nat.iter n (fun a => adjustInterval a false None) a.

(** The states of a controller that is never given a server suggestion. *)
Inductive unhinted : t -> Prop :=
| unhinted_new token type debug : unhinted (new token type debug)
| unhinted_adjust a hasNewContent :
    unhinted a -> unhinted (adjustInterval a hasNewContent None)
| unhinted_reset a : unhinted a -> unhinted (reset a).

End AdaptivePollerRuns.

(** ** The runtime seen by pollers

    Timers, the network and the caller's handlers are outside the SDK.  The
    runtime records which one-shot timers are armed (set, neither fired nor
    cleared) together with the poller whose [poll] they will call, and a
    trace of every call the SDK makes to the outside. *)

Definition Ref := nat.

Definition TimerId := N.

Inductive Event :=
| EvFetch (self : Ref) (endpoint : jsstring) (authorization : option jsstring)
    (body : PollRequest)
| EvOnPayload (self : Ref) (p : PayloadData) (info : LinkInfo)
| EvOnStatusChange (self : Ref) (s : LinkStatus) (info : LinkInfo)
| EvOnError (self : Ref) (message : jsstring) (info : LinkInfo)
| EvSetTimeout (self : Ref) (id : TimerId) (delay : number)
| EvClearTimeout (self : Ref) (id : TimerId).

Record Runtime := {
  armed : gmap N Ref;
  nextTimer : TimerId;
  trace : list Event
}.

(** What [await response.json()] yields. *)
Inductive ResponseBody :=
| JsonOk (result : PollResponse)
| JsonFails (e : Thrown).

(** What [await fetch(...)] yields: a rejection (network failure) or a
    response with its status line and body. *)
Inductive FetchOutcome :=
| FetchRejected (e : Thrown)
| FetchResponse (status : N) (statusText : jsstring) (body : ResponseBody).

(** [response.ok] *)
Definition response_ok (status : N) : bool := in_range 200 299 status.

(** *** Reading a trace *)

(** The runtime with more events on its trace. *)
Definition record (evs : list Event) (rt : Runtime) : Runtime :=
  {| armed := armed rt; nextTimer := nextTimer rt; trace := trace rt ++ evs |}.

(** An event that begins or books a poll cycle of the poller [r]: a request
    to the endpoint, or a timer set for its next [poll]. *)
Definition starts_cycle (r : Ref) (e : Event) : bool :=
  match e with
  | EvFetch r' _ _ _ => Nat.eqb r' r
  | EvSetTimeout r' _ _ => Nat.eqb r' r
  | _ => false
  end.

(** No event of [evs] begins or books a cycle of poller [r]. *)
Definition calm (r : Ref) (evs : list Event) : Prop :=
  forallb (fun e => negb (starts_cycle r e)) evs = true.

(** The states passed to [onStatusChange] of poller [r], in order. *)
Definition status_changes (r : Ref) (evs : list Event) : list LinkStatus :=
  omap (fun e =>
          match e with
          | EvOnStatusChange r' s _ => if Nat.eqb r' r then Some s else None
          | _ => None
          end) evs.

(** The messages of the errors passed to [onError] of poller [r]. *)
Definition errors_reported (r : Ref) (evs : list Event) : list jsstring :=
  omap (fun e =>
          match e with
          | EvOnError r' m _ => if Nat.eqb r' r then Some m else None
          | _ => None
          end) evs.

(** The error a failed exchange raises inside [poll]: a rejected fetch, a
    status outside 200-299, or a body that is not the JSON expected. *)
Definition transport_failure (outcome : FetchOutcome) : option Thrown :=
  match outcome with
  | FetchRejected e => Some e
  | FetchResponse status statusText body =>
      if negb (response_ok status) then
        Some (ThrownError
                (str "HTTP " ++ N_toString status ++ str ": " ++ statusText))
      else
        match body with
        | JsonFails e => Some e
        | JsonOk _ => None
        end
  end.

(** What [handler?.(arg, info)] puts on the trace. *)
Definition delivery {A} (handler : option (Handler A)) (ev : Event) : list Event :=
  match handler with
  | Some _ => [ev]
  | None => []
  end.

(** The handler, when there is one, returns normally on these arguments. *)
Definition returns {A} (handler : option (Handler A)) (arg : A) (info : LinkInfo)
  : Prop :=
  match handler with
  | Some h => h arg info = Normal tt
  | None => True
  end.

(** ** Link poller ([link-poller.ts]) *)

Module LinkPoller.

Record t := {
  linkInfo : LinkInfo;
  endpoint : jsstring;
  apiKey : option jsstring;
  callbacks : LinkCallbacks;
  adaptive : AdaptivePoller.t;
  isRunning : bool;
  timeoutId : option TimerId;
  debug : bool;
  clientId : jsstring;
  lastSeenTimestamp : option Z
}.

Definition new (linkInfo : LinkInfo) (options : PollerOptions)
  (clientId : jsstring) : t :=
  {| linkInfo := linkInfo;
     endpoint := opt_endpoint options;
     apiKey := opt_apiKey options;
     callbacks := opt_callbacks options;
     adaptive :=
       AdaptivePoller.new (token linkInfo) (type linkInfo)
         (default false (opt_debug options));
     isRunning := false;
     timeoutId := None;
     debug := default false (opt_debug options);
     clientId := clientId;
     lastSeenTimestamp := None |}.

Definition set_adaptive (v : AdaptivePoller.t) (self : t) : t :=
  {| linkInfo := linkInfo self; endpoint := endpoint self;
     apiKey := apiKey self; callbacks := callbacks self;
     adaptive := v;
     isRunning := isRunning self; timeoutId := timeoutId self;
     debug := debug self; clientId := clientId self;
     lastSeenTimestamp := lastSeenTimestamp self |}.

Definition set_isRunning (v : bool) (self : t) : t :=
  {| linkInfo := linkInfo self; endpoint := endpoint self;
     apiKey := apiKey self; callbacks := callbacks self;
     adaptive := adaptive self;
     isRunning := v; timeoutId := timeoutId self;
     debug := debug self; clientId := clientId self;
     lastSeenTimestamp := lastSeenTimestamp self |}.

Definition set_timeoutId (v : option TimerId) (self : t) : t :=
  {| linkInfo := linkInfo self; endpoint := endpoint self;
     apiKey := apiKey self; callbacks := callbacks self;
     adaptive := adaptive self;
     isRunning := isRunning self; timeoutId := v;
     debug := debug self; clientId := clientId self;
     lastSeenTimestamp := lastSeenTimestamp self |}.

Definition set_lastSeenTimestamp (v : option Z) (self : t) : t :=
  {| linkInfo := linkInfo self; endpoint := endpoint self;
     apiKey := apiKey self; callbacks := callbacks self;
     adaptive := adaptive self;
     isRunning := isRunning self; timeoutId := timeoutId self;
     debug := debug self; clientId := clientId self;
     lastSeenTimestamp := v |}.

(** *** Methods as computations

    A method runs on the poller object and the runtime, and completes
    normally or by throwing; what it did before throwing stays done. *)

Definition M (A : Type) : Type := t * Runtime -> Completion A * (t * Runtime).

Definition ret {A} (a : A) : M A := fun s => (Normal a, s).

Definition bind {A B} (m : M A) (f : A -> M B) : M B :=
  fun s =>
    match m s with
    | (Normal a, s') => f a s'
    | (Throw e, s') => (Throw e, s')
    end.

Definition throw {A} (e : Thrown) : M A := fun s => (Throw e, s).

Definition try_catch {A} (body : M A) (handler : Thrown -> M A) : M A :=
  fun s =>
    match body s with
    | (Throw e, s') => handler e s'
    | done => done
    end.

Definition current : M t := fun s => (Normal (fst s), s).

Definition update (f : t -> t) : M unit := fun s => (Normal tt, (f (fst s), snd s)).

Definition emit (e : Event) : M unit :=
  fun s =>
    (Normal tt,
     (fst s, {| armed := armed (snd s); nextTimer := nextTimer (snd s);
                trace := trace (snd s) ++ [e] |})).

(** [setTimeout(() => this.poll(), delay)]: a fresh handle, now armed. *)
Definition setTimeout (self : Ref) (delay : number) : M TimerId :=
  fun s =>
    let id := nextTimer (snd s) in
    (Normal id,
     (fst s, {| armed := <[id := self]> (armed (snd s));
                nextTimer := (id + 1)%N;
                trace := trace (snd s) ++ [EvSetTimeout self id delay] |})).

Definition clearTimeout (self : Ref) (id : TimerId) : M unit :=
  fun s =>
    (Normal tt,
     (fst s, {| armed := delete id (armed (snd s));
                nextTimer := nextTimer (snd s);
                trace := trace (snd s) ++ [EvClearTimeout self id] |})).

(** [handler?.(arg, this.linkInfo)] *)
Definition invoke {A} (handler : option (Handler A)) (ev : LinkInfo -> Event)
  (arg : A) : M unit :=
  fun s =>
    match handler with
    | None => (Normal tt, s)
    | Some h =>
        match emit (ev (linkInfo (fst s))) s with
        | (_, s') => (h arg (linkInfo (fst s)), s')
        end
    end.

Notation "x <- m ;; k" := (bind m (fun x => k))
  (at level 100, m at level 99, right associativity).
Notation "m ;; k" := (bind m (fun _ => k))
  (at level 100, right associativity).

(** A timer handle is an object or a positive integer, hence truthy: the
    test [if (this.timeoutId)] is a test for [null]. *)
Definition stop (self : Ref) : M unit :=
  p <- current ;;
  if negb (isRunning p) then ret tt
  else
    update (set_isRunning false) ;;
    match timeoutId p with
    | Some id => clearTimeout self id ;; update (set_timeoutId None)
    | None => ret tt
    end.

Definition scheduleNextPoll (self : Ref) : M unit :=
  p <- current ;;
  if negb (isRunning p) then ret tt
  else
    let interval := AdaptivePoller.getInterval (adaptive p) in
    id <- setTimeout self interval ;;
    update (set_timeoutId (Some id)).

Definition is_terminal (s : LinkStatus) : bool :=
  match s with
  | expired | deleted | exhausted => true
  | active => false
  end.

Definition is_active (s : LinkStatus) : bool :=
  match s with
  | active => true
  | _ => false
  end.

Definition adjust (hasNewContent : bool) (nextPollIn : option number) : M unit :=
  update (fun p =>
    set_adaptive (AdaptivePoller.adjustInterval (adaptive p) hasNewContent nextPollIn) p).

(** [poll] up to its [await fetch(...)]: [true] when a request was issued
    and the call is now suspended, [false] when it returned at once. *)
Definition poll_begin (self : Ref) (now : Z) : M bool :=
  p <- current ;;
  if negb (isRunning p) then ret false
  else
    let pollRequest :=
      {| req_token := token (linkInfo p);
         req_type := type (linkInfo p);
         req_password := password (linkInfo p);
         req_clientId := Some (clientId p);
         req_timestamp := Some now;
         req_lastSeen := lastSeenTimestamp p |} in
    emit (EvFetch self (endpoint p)
            (if truthy_string (apiKey p) then apiKey p else None)
            pollRequest) ;;
    ret true.

(** The statements of the [try] block after the fetch has settled. *)
Definition poll_try (self : Ref) (outcome : FetchOutcome) (now : Z) : M unit :=
  match outcome with
  | FetchRejected e => throw e
  | FetchResponse status statusText body =>
      if negb (response_ok status) then
        throw (ThrownError
                 (str "HTTP " ++ N_toString status ++ str ": " ++ statusText))
      else
        match body with
        | JsonFails e => throw e
        | JsonOk result =>
            p <- current ;;
            match hasNewContent result, payload result with
            | true, Some pl =>
                update (set_lastSeenTimestamp (Some now)) ;;
                invoke (onPayload (callbacks p)) (EvOnPayload self pl) pl
            | _, _ => ret tt
            end ;;
            returned <-
              (if negb (is_active (linkStatus result)) then
                 invoke (onStatusChange (callbacks p))
                   (EvOnStatusChange self (linkStatus result))
                   (linkStatus result) ;;
                 if is_terminal (linkStatus result)
                 then stop self ;; ret true
                 else ret false
               else ret false) ;;
            if returned : bool then ret tt
            else
              (if truthy_string (error result) then
                 let message :=
                   str "Server error: " ++ default [] (error result) in
                 invoke (onError (callbacks p)) (EvOnError self message) message
               else ret tt) ;;
              adjust (hasNewContent result) (nextPollIn result) ;;
              scheduleNextPoll self
        end
  end.

(** The [catch] block. *)
Definition poll_catch (self : Ref) (e : Thrown) : M unit :=
  p <- current ;;
  invoke (onError (callbacks p)) (EvOnError self (toError e)) (toError e) ;;
  adjust false None ;;
  scheduleNextPoll self.

(** [poll] from the point where the fetch settles to its completion. *)
Definition poll_resume (self : Ref) (outcome : FetchOutcome) (now : Z) : M unit :=
  try_catch (poll_try self outcome now) (poll_catch self).

(** [start] up to the [await] inside [poll]. *)
Definition start (self : Ref) (now : Z) : M bool :=
  p <- current ;;
  if isRunning p then ret false
  else
    update (set_isRunning true) ;;
    poll_begin self now.

Record Status := {
  status_isRunning : bool;
  status_currentInterval : number;
  status_consecutiveEmpty : N;
  status_clientId : jsstring;
  status_token : jsstring;
  status_type : LinkType
}.

Definition getStatus (self : t) : Status :=
  {| status_isRunning := isRunning self;
     status_currentInterval := AdaptivePoller.getInterval (adaptive self);
     status_consecutiveEmpty := AdaptivePoller.getConsecutiveEmpty (adaptive self);
     status_clientId := clientId self;
     status_token := substring0 8 (token (linkInfo self)) ++ str "...";
     status_type := type (linkInfo self) |}.

(** *** Reading a cycle *)

(** What the [onPayload] step of a cycle puts on the trace. *)
Definition payload_delivery (self : Ref) (p : t) (result : PollResponse)
  : list Event :=
  match hasNewContent result, payload result with
  | true, Some pl =>
      delivery (onPayload (callbacks p)) (EvOnPayload self pl (linkInfo p))
  | _, _ => []
  end.

(** The poller after [lastSeenTimestamp] has been recorded, when it is. *)
Definition seen (now : Z) (result : PollResponse) (p : t) : t :=
  match hasNewContent result, payload result with
  | true, Some _ => set_lastSeenTimestamp (Some now) p
  | _, _ => p
  end.

(** The handlers that a cycle with this result calls before it decides
    whether to stop, [onPayload] and [onStatusChange], return normally. *)
Definition handlers_return (p : t) (result : PollResponse) : Prop :=
  match hasNewContent result, payload result with
  | true, Some pl => returns (onPayload (callbacks p)) pl (linkInfo p)
  | _, _ => True
  end
  /\ returns (onStatusChange (callbacks p)) (linkStatus result) (linkInfo p).

(** A method run on the object [self] is quiet for poller [r] between two
    states when what it adds to the trace is calm for [r] whenever [self] is
    another poller or was not running, and when it never turns a stopped
    poller back on. *)
Definition quiet (r self : Ref) (s s' : t * Runtime) : Prop :=
  (exists evs, trace (snd s') = trace (snd s) ++ evs
               /\ (self <> r \/ isRunning (fst s) = false -> calm r evs))
  /\ (isRunning (fst s) = false -> isRunning (fst s') = false).

Definition keeps {A} (r self : Ref) (m : M A) : Prop :=
  forall s, quiet r self s (snd (m s)).

End LinkPoller.

(** *** Reading a cycle, whatever its handlers do *)

Module Cycle.
Import LinkPoller.

(** The fetch brought a response that is delivered to [onPayload]: status
    2xx, a JSON body, [hasNewContent] set and a payload present. *)
Definition delivers (outcome : FetchOutcome) : bool :=
  match outcome with
  | FetchResponse status _ (JsonOk result) =>
      response_ok status && hasNewContent result
      && bool_decide (is_Some (payload result))
  | _ => false
  end.

(** What the delivery of that payload puts on the trace. *)
Definition delivered (self : Ref) (p : t) (outcome : FetchOutcome) : list Event :=
  match outcome with
  | FetchResponse status _ (JsonOk result) =>
      if response_ok status then payload_delivery self p result else []
  | _ => []
  end.

(** The fields of a poller that say which link it polls, where, and for
    whom. *)
Definition same_identity (p p' : t) : Prop :=
  linkInfo p' = linkInfo p /\ endpoint p' = endpoint p /\ apiKey p' = apiKey p
  /\ callbacks p' = callbacks p /\ debug p' = debug p /\ clientId p' = clientId p.

(** Between [p] and [p'] only the interval controller and the time of the
    last payload may have changed, and the controller went through its own
    methods. *)
Definition progress (p p' : t) : Prop :=
  same_identity p p'
  /\ isRunning p' = isRunning p /\ timeoutId p' = timeoutId p
  /\ (AdaptivePoller.reachable (adaptive p) -> AdaptivePoller.reachable (adaptive p')).

(** An event is a call of a handler of poller [self], with the link
    description [info] as its second argument. *)
Definition handler_call (self : Ref) (info : LinkInfo) (e : Event) : Prop :=
  match e with
  | EvOnPayload r _ i | EvOnStatusChange r _ i | EvOnError r _ i =>
      r = self /\ i = info
  | _ => False
  end.

(** The error a response carries in its [error] field, as the cycle words
    it for [onError]. *)
Definition server_error (result : PollResponse) : option jsstring :=
  if truthy_string (error result)
  then Some (str "Server error: " ++ default [] (error result))
  else None.

(** What reporting that error puts on the trace. *)
Definition error_delivery (self : Ref) (p : t) (result : PollResponse)
  : list Event :=
  match server_error result with
  | Some message =>
      delivery (onError (callbacks p)) (EvOnError self message (linkInfo p))
  | None => []
  end.

(** The handlers that a cycle on an active link calls, [onPayload] for the
    payload and [onError] for the server's error, return normally. *)
Definition active_handlers_return (p : t) (result : PollResponse) : Prop :=
  match hasNewContent result, payload result with
  | true, Some pl => returns (onPayload (callbacks p)) pl (linkInfo p)
  | _, _ => True
  end
  /\ match server_error result with
     | Some message => returns (onError (callbacks p)) message (linkInfo p)
     | None => True
     end.

(** The computation [m], run from [(p, rt)], has called handlers, which put
    [evs] on the trace and left the poller as [p1], and then ends by booking
    the next cycle, by stopping, or by throwing. *)
Definition ends_as (self : Ref) (m : M unit) (p : t) (rt : Runtime)
  (p1 : t) (evs : list Event) : Prop :=
  m (p, rt) = scheduleNextPoll self (p1, record evs rt)
  \/ m (p, rt) = stop self (p1, record evs rt)
  \/ exists e, m (p, rt) = (Throw e, (p1, record evs rt)).

(** An event that a method of poller [self] may put on the trace besides
    setting and clearing its timer: a request made while running, in the
    poller's name, or a call of one of its handlers. *)
Definition own_event (self : Ref) (p : t) (e : Event) : Prop :=
  match e with
  | EvFetch r ep auth body =>
      r = self /\ isRunning p = true /\ ep = endpoint p
      /\ auth = (if truthy_string (apiKey p) then apiKey p else None)
      /\ req_token body = token (linkInfo p)
      /\ req_type body = type (linkInfo p)
      /\ req_password body = password (linkInfo p)
      /\ req_clientId body = Some (clientId p)
  | EvOnPayload r _ i | EvOnStatusChange r _ i | EvOnError r _ i =>
      r = self /\ i = linkInfo p
  | EvSetTimeout _ _ _ | EvClearTimeout _ _ => False
  end.

(** From [p] to [p'] the poller kept its identity and its controller stayed
    within what the controller's methods produce. *)
Definition evolves (p p' : t) : Prop :=
  same_identity p p'
  /\ (AdaptivePoller.reachable (adaptive p) -> AdaptivePoller.reachable (adaptive p')).

(** The three things a method can do to the timer of its poller: leave it
    alone, set a new one for the next cycle (only while running), or stop
    the poller and clear the timer it holds. *)
Inductive turn (self : Ref) (p : t) (rt : Runtime) (p' : t) (rt' : Runtime)
  : Prop :=
| turn_rests (evs : list Event) :
    isRunning p' = isRunning p -> timeoutId p' = timeoutId p ->
    rt' = record evs rt -> Forall (own_event self p) evs ->
    turn self p rt p' rt'
| turn_books (evs : list Event) :
    isRunning p = true -> isRunning p' = true ->
    timeoutId p' = Some (nextTimer rt) ->
    rt' = {| armed := <[nextTimer rt := self]> (armed rt);
             nextTimer := (nextTimer rt + 1)%N;
             trace := trace rt ++ evs
                      ++ [EvSetTimeout self (nextTimer rt)
                            (AdaptivePoller.currentInterval (adaptive p'))] |} ->
    Forall (own_event self p) evs ->
    turn self p rt p' rt'
| turn_stops (evs : list Event) :
    isRunning p = true -> isRunning p' = false -> timeoutId p' = None ->
    rt' = {| armed := match timeoutId p with
                      | Some id => delete id (armed rt)
                      | None => armed rt
                      end;
             nextTimer := nextTimer rt;
             trace := trace rt ++ evs
                      ++ match timeoutId p with
                         | Some id => [EvClearTimeout self id]
                         | None => []
                         end |} ->
    Forall (own_event self p) evs ->
    turn self p rt p' rt'.

(** The method [m] of poller [self] does one of these, from every state. *)
Definition turns {A} (self : Ref) (m : M A) : Prop :=
  forall p rt,
    evolves p (fst (snd (m (p, rt))))
    /\ turn self p rt (fst (snd (m (p, rt)))) (snd (snd (m (p, rt)))).

End Cycle.

(** [validateSDKOptions], on options that already have the declared types. *)
Definition validateSDKOptions (URL_new : jsstring -> option URLObject)
  (options : SDKOptions) : Completion unit :=
  match sdk_pollingEndpoint options with
  | [] => Throw (ThrownError (str "pollingEndpoint is required in SDK options"))
  | _ =>
      match URL_new (sdk_pollingEndpoint options) with
      | None => Throw (ThrownError (str "pollingEndpoint must be a valid URL"))
      | Some _ =>
          let too_small (o : option jsnumber) :=
            match o with
            | Some n => less_than n (millis 1000)
            | None => false
            end in
          if too_small (sdk_pingInterval options) then
            Throw (ThrownError
                     (str "pingInterval must be a number >= 1000 (1 second)"))
          else if too_small (sdk_webhookInterval options) then
            Throw (ThrownError
                     (str "webhookInterval must be a number >= 1000 (1 second)"))
          else Normal tt
      end
  end.

(** [x || fallback] on optional numbers: [undefined], [0] and [NaN] are
    falsy. *)
Definition number_or (x : option jsnumber) (fallback : number) : jsnumber :=
  match x with
  | Some n => if truthy_number n then n else fallback
  | None => fallback
  end.

(** A number of at least one second: [Infinity], or a finite value of 1000
    or more. *)
Definition at_least_second (x : jsnumber) : Prop :=
  x = Infinity \/ exists q : number, x = Finite q /\ (millis 1000 <= q)%Qc.

(** [xs.join(', ')] *)
Fixpoint join (xs : list jsstring) : jsstring :=
  match xs with
  | [] => []
  | [x] => x
  | x :: rest => x ++ str ", " ++ join rest
  end.

Definition LinkType_toString (k : LinkType) : jsstring :=
  match k with
  | ping => str "ping"
  | webhook => str "webhook"
  end.

(** ** Listener registry ([secret-links-sdk.ts]) *)

(** The registry has an [onError] field of its own; inside its module the
    field of [LinkCallbacks] goes by this name. *)
Abbreviation callbacks_onError := onError.

Module SDK.

Record t := {
  pollingEndpoint : jsstring;
  apiKey : option jsstring;
  intervals_ping : jsnumber;
  intervals_webhook : jsnumber;
  activeListeners : gmap (list N) Ref;
  onError : jsstring -> Completion unit;
  debug : bool;
  validation : option ValidationOptions;
  listenerCounter : N
}.

Definition set_activeListeners (v : gmap (list N) Ref) (self : t) : t :=
  {| pollingEndpoint := pollingEndpoint self; apiKey := apiKey self;
     intervals_ping := intervals_ping self;
     intervals_webhook := intervals_webhook self;
     activeListeners := v;
     onError := onError self; debug := debug self;
     validation := validation self;
     listenerCounter := listenerCounter self |}.

Definition set_listenerCounter (v : N) (self : t) : t :=
  {| pollingEndpoint := pollingEndpoint self; apiKey := apiKey self;
     intervals_ping := intervals_ping self;
     intervals_webhook := intervals_webhook self;
     activeListeners := activeListeners self;
     onError := onError self; debug := debug self;
     validation := validation self;
     listenerCounter := v |}.

(** A poll whose fetch has not settled yet: the poller, and the listener
    identifier when the [startListening] call that created the poller is
    still awaiting [poller.start()]. *)
Record Inflight := {
  in_poller : Ref;
  in_listener : option jsstring
}.

(** The registry with everything reachable from it. *)
Record World := {
  sdk : t;
  heap : list LinkPoller.t;
  runtime : Runtime;
  inflight : list Inflight
}.

Inductive Op :=
| StartListening (linkUrl : JsArg) (callbacks : LinkCallbacks)
    (now_listener now_client now_poll : Z) (random36 : jsstring)
| StopListening (listenerId : jsstring)
| StopAll
| TimerFires (id : TimerId) (now : Z)
| FetchSettles (k : nat) (outcome : FetchOutcome) (now : Z).

Inductive Outcome :=
| Rejected (e : Thrown)
| Suspended (listenerId : jsstring)
| Resolved (listenerId : jsstring)
| Returned
| Unhandled (e : Thrown)
| Ignored.

Definition applyValidationRules (self : t) (linkInfo : LinkInfo)
  : option jsstring :=
  match validation self with
  | None => None
  | Some v =>
      let domains := default [] (allowedDomains v) in
      let kinds := default [] (allowedLinkTypes v) in
      if Nat.ltb 0 (length domains)
         && negb (includes jsstring_eqb domains (domain linkInfo)) then
        Some (str "Domain " ++ domain linkInfo
              ++ str " is not allowed. Allowed domains: " ++ join domains)
      else if Nat.ltb 0 (length kinds)
              && negb (includes LinkType_eqb kinds (type linkInfo)) then
        Some (str "Link type " ++ LinkType_toString (type linkInfo)
              ++ str " is not allowed. Allowed types: "
              ++ join (List.map LinkType_toString kinds))
      else if default false (requirePassword v) && negb (hasPassword linkInfo) then
        Some (str "Password-protected links are required")
      else None
  end.

Definition set_isValid (v : bool) (l : LinkInfo) : LinkInfo :=
  {| isValid := v; token := token l; type := type l;
     hasPassword := hasPassword l; hasEncryption := hasEncryption l;
     domain := domain l; password := password l;
     encryptionKey := encryptionKey l |}.

(** Run a method of the poller object at [r]. *)
Definition call {A} (r : Ref) (m : LinkPoller.M A) (w : World)
  : option (Completion A * World) :=
  match heap w !! r with
  | None => None
  | Some p =>
      let '(c, (p', rt')) := m (p, runtime w) in
      Some (c, {| sdk := sdk w; heap := <[r := p']> (heap w);
                  runtime := rt'; inflight := inflight w |})
  end.

Definition set_sdk (v : t) (w : World) : World :=
  {| sdk := v; heap := heap w; runtime := runtime w; inflight := inflight w |}.

Definition set_inflight (v : list Inflight) (w : World) : World :=
  {| sdk := sdk w; heap := heap w; runtime := runtime w; inflight := v |}.

Definition disarm (id : TimerId) (w : World) : World :=
  {| sdk := sdk w; heap := heap w;
     runtime := {| armed := delete id (armed (runtime w));
                   nextTimer := nextTimer (runtime w);
                   trace := trace (runtime w) |};
     inflight := inflight w |}.

Definition forget (listenerId : jsstring) (w : World) : World :=
  set_sdk (set_activeListeners (delete listenerId (activeListeners (sdk w))) (sdk w)) w.

Definition stopListening (listenerId : jsstring) (w : World) : World :=
  match activeListeners (sdk w) !! listenerId with
  | None => w
  | Some r =>
      match call r (LinkPoller.stop r) w with
      | Some (_, w') => forget listenerId w'
      | None => forget listenerId w
      end
  end.

(** The entries are visited in the order [map_to_list] gives them. *)
Definition stopAll (w : World) : World :=
  let w' :=
    fold_left
      (fun w entry =>
         match call (snd entry) (LinkPoller.stop (snd entry)) w with
         | Some (_, w') => w'
         | None => w
         end)
      (map_to_list (activeListeners (sdk w))) w in
  set_sdk (set_activeListeners ∅ (sdk w')) w'.

Definition getListenerStatus (listenerId : jsstring) (w : World)
  : option LinkPoller.Status :=
  r ← activeListeners (sdk w) !! listenerId;
  p ← heap w !! r;
  Some (LinkPoller.getStatus p).

Definition getActiveListenerCount (w : World) : nat :=
  size (activeListeners (sdk w)).

Definition isListening (w : World) : bool :=
  Nat.ltb 0 (size (activeListeners (sdk w))).

(** The template literal that names a listener, from [Date.now()] and the
    counter. *)
Definition listenerId (now : Z) (counter : N) : jsstring :=
  str "listener-" ++ Z_toString now ++ str "-" ++ N_toString counter.

(** [this.intervals[linkInfo.type] || this.intervals.ping] *)
Definition intervalFor (self : t) (kind : LinkType) : jsnumber :=
  match kind with
  | ping => intervals_ping self
  | webhook =>
      if truthy_number (intervals_webhook self) then intervals_webhook self
      else intervals_ping self
  end.

(** The options object [startListening] hands to the [LinkPoller]
    constructor. *)
Definition pollerOptions (self : t) (linkInfo : LinkInfo)
  (callbacks : LinkCallbacks) : PollerOptions :=
  {| opt_endpoint := pollingEndpoint self;
     opt_apiKey := apiKey self;
     opt_interval := intervalFor self (type linkInfo);
     opt_callbacks :=
       Build_LinkCallbacks
         (onPayload callbacks)
         (match callbacks_onError callbacks with
          | Some h => Some h
          | None => Some (fun message _ => onError self message)
          end)
         (onStatusChange callbacks);
     opt_debug := Some (debug self) |}.

Section Platform.

Variable URL_new : jsstring -> option URLObject.

Definition new (options : SDKOptions) : Completion t :=
  match validateSDKOptions URL_new options with
  | Throw e => Throw e
  | Normal _ =>
      Normal {| pollingEndpoint := sdk_pollingEndpoint options;
                apiKey := sdk_apiKey options;
                intervals_ping := number_or (sdk_pingInterval options) (millis 10000);
                intervals_webhook := number_or (sdk_webhookInterval options) (millis 60000);
                activeListeners := ∅;
                onError := default (fun _ => Normal tt) (sdk_onError options);
                debug := default false (sdk_debug options);
                validation := sdk_validation options;
                listenerCounter := 0 |}
  end.

Definition validateLink (self : t) (url : JsArg) : Completion LinkInfo :=
  match parseLink URL_new url with
  | Throw e => Throw e
  | Normal linkInfo =>
      if negb (isValid linkInfo) then Normal linkInfo
      else
        match applyValidationRules self linkInfo with
        | Some _ => Normal (set_isValid false linkInfo)
        | None => Normal linkInfo
        end
  end.

(** [startListening] up to the [await] inside [poller.start()]. *)
Definition startListening (linkUrl : JsArg) (callbacks : LinkCallbacks)
  (now_listener now_client now_poll : Z) (random36 : jsstring) (w : World)
  : World * Outcome :=
  match validateLink (sdk w) linkUrl with
  | Throw e => (w, Rejected e)
  | Normal linkInfo =>
      if negb (isValid linkInfo) then
        (w, Rejected (ThrownError (str "Invalid Secret Link URL")))
      else
        let self := set_listenerCounter (listenerCounter (sdk w) + 1) (sdk w) in
        let listenerId := listenerId now_listener (listenerCounter self) in
        let poller :=
          LinkPoller.new linkInfo (pollerOptions self linkInfo callbacks)
            (generateClientId now_client random36) in
        let r := length (heap w) in
        let self := set_activeListeners (<[listenerId := r]> (activeListeners self)) self in
        let '(c, (poller, rt)) := LinkPoller.start r now_poll (poller, runtime w) in
        let w' := {| sdk := self; heap := heap w ++ [poller]; runtime := rt;
                     inflight := inflight w |} in
        match c with
        | Normal true =>
            (set_inflight
               (inflight w' ++ [{| in_poller := r; in_listener := Some listenerId |}]) w',
             Suspended listenerId)
        | Normal false => (w', Resolved listenerId)
        | Throw e => (forget listenerId w', Rejected e)
        end
  end.

(** A timer fires and its callback calls [poll] on its poller. *)
Definition timerFires (id : TimerId) (now : Z) (w : World) : World * Outcome :=
  match armed (runtime w) !! id with
  | None => (w, Ignored)
  | Some r =>
      match call r (LinkPoller.poll_begin r now) (disarm id w) with
      | Some (Normal true, w') =>
          (set_inflight
             (inflight w' ++ [{| in_poller := r; in_listener := None |}]) w',
           Returned)
      | Some (Normal false, w') => (w', Returned)
      | Some (Throw e, w') => (w', Unhandled e)
      | None => (w, Ignored)
      end
  end.

(** The fetch of the [k]-th suspended poll settles; [poll] runs to its end,
    and with it the [startListening] call that was awaiting it, if any. *)
Definition fetchSettles (k : nat) (outcome : FetchOutcome) (now : Z) (w : World)
  : World * Outcome :=
  match inflight w !! k with
  | None => (w, Ignored)
  | Some f =>
      let r := in_poller f in
      match call r (LinkPoller.poll_resume r outcome now)
              (set_inflight (delete k (inflight w)) w) with
      | None => (w, Ignored)
      | Some (c, w') =>
          match in_listener f, c with
          | Some listenerId, Normal _ => (w', Resolved listenerId)
          | Some listenerId, Throw e => (forget listenerId w', Rejected e)
          | None, Normal _ => (w', Returned)
          | None, Throw e => (w', Unhandled e)
          end
      end
  end.

Definition step (w : World) (op : Op) : World * Outcome :=
  match op with
  | StartListening linkUrl callbacks t1 t2 t3 random36 =>
      startListening linkUrl callbacks t1 t2 t3 random36 w
  | StopListening listenerId => (stopListening listenerId w, Returned)
  | StopAll => (stopAll w, Returned)
  | TimerFires id now => timerFires id now w
  | FetchSettles k outcome now => fetchSettles k outcome now w
  end.

Fixpoint run (w : World) (ops : list Op) : World * list Outcome :=
  match ops with
  | [] => (w, [])
  | op :: ops' =>
      let '(w', o) := step w op in
      let '(w'', os) := run w' ops' in
      (w'', o :: os)
  end.

(** The world right after [new SecretLinksSDK(options)]. *)
Definition boot (options : SDKOptions) : Completion World :=
  match new options with
  | Throw e => Throw e
  | Normal self =>
      Normal {| sdk := self; heap := [];
                runtime := {| armed := ∅; nextTimer := 1%N; trace := [] |};
                inflight := [] |}
  end.

End Platform.

(** *** Reading a run *)

(** Poller [r] exists and is not running. *)
Definition dormant (r : Ref) (w : World) : Prop :=
  exists p, heap w !! r = Some p /\ LinkPoller.isRunning p = false.

(** From [w] to [w'] the trace only grew, by events calm for [r]. *)
Definition extends (r : Ref) (w w' : World) : Prop :=
  exists evs, trace (runtime w') = trace (runtime w) ++ evs /\ calm r evs.

(** The identifiers handed out by the [startListening] calls of a run: a call
    that passes validation allocates one and suspends in [poller.start()]. *)
Definition allocations (outs : list Outcome) : list jsstring :=
  omap (fun o => match o with Suspended id => Some id | _ => None end) outs.

(** The counter has counted the pollers ever created, and every entry of the
    table carries the number its poller was created under. *)
Definition well_numbered (w : World) : Prop :=
  listenerCounter (sdk w) = N.of_nat (length (heap w))
  /\ forall id r, activeListeners (sdk w) !! id = Some r ->
       r < length (heap w) /\ exists t, id = listenerId t (N.of_nat r + 1).

(** The three rules of [applyValidationRules], as conditions on a link. *)
Definition domain_rejected (v : ValidationOptions) (info : LinkInfo) : Prop :=
  exists domains, allowedDomains v = Some domains /\ domains <> []
                  /\ ~ In (domain info) domains.

Definition kind_rejected (v : ValidationOptions) (info : LinkInfo) : Prop :=
  exists kinds, allowedLinkTypes v = Some kinds /\ kinds <> []
                /\ ~ In (type info) kinds.

Definition password_missing (v : ValidationOptions) (info : LinkInfo) : Prop :=
  requirePassword v = Some true /\ hasPassword info = false.

End SDK.

(** *** Reading a world *)

Module Run.
Import SDK.

(** The pollers whose fetch has not settled yet. *)
Definition inflight_pollers (w : World) : list Ref := map in_poller (inflight w).

(** A cycle of poller [r] is pending: its fetch has not settled, or a timer
    is set for its next [poll]. *)
Definition pending (r : Ref) (w : World) : Prop :=
  In r (inflight_pollers w) \/ exists id, armed (runtime w) !! id = Some r.

(** Poller [r] is in the table. *)
Definition registered (r : Ref) (w : World) : Prop :=
  exists id, activeListeners (sdk w) !! id = Some r.

(** How the timers, the suspended polls and the table fit together: an armed
    timer belongs to a running poller that holds its handle and awaits no
    fetch; handles are older than the next handle and no two pollers hold the
    same; no poller awaits two fetches; a suspended [startListening] awaits
    the poller it numbered; and a running poller with a pending cycle is in
    the table. *)
Record tidy (w : World) : Prop := {
  tidy_armed :
    forall id r, armed (runtime w) !! id = Some r ->
      (id < nextTimer (runtime w))%N
      /\ ~ In r (inflight_pollers w)
      /\ exists p, heap w !! r = Some p /\ LinkPoller.isRunning p = true
                   /\ LinkPoller.timeoutId p = Some id;
  tidy_handles :
    forall (r : Ref) p id, heap w !! r = Some p -> LinkPoller.timeoutId p = Some id ->
      (id < nextTimer (runtime w))%N
      /\ forall (r' : Ref) p', heap w !! r' = Some p' ->
           LinkPoller.timeoutId p' = Some id -> r' = r;
  tidy_inflight : NoDup (inflight_pollers w);
  tidy_valid :
    forall f, In f (inflight w) ->
      in_poller f < length (heap w)
      /\ forall id, in_listener f = Some id ->
           exists t, id = listenerId t (N.of_nat (in_poller f) + 1);
  tidy_registered :
    forall (r : Ref) p, heap w !! r = Some p -> LinkPoller.isRunning p = true ->
      pending r w -> registered r w
}.

(** What can be said of an event on the trace of a registry configured
    with the endpoint [ep0] and the key [key0]: a request goes to that
    endpoint, with that key when it is not empty, and names the link and the
    client identifier of its poller; a handler is given the link of its
    poller, which passed validation; and a timer is never set for less than
    a second. *)
Definition sound_event (ep0 : jsstring) (key0 : option jsstring)
  (h : list LinkPoller.t) (e : Event) : Prop :=
  match e with
  | EvFetch r ep auth body =>
      ep = ep0 /\ auth = (if truthy_string key0 then key0 else None)
      /\ exists p, h !! r = Some p
           /\ req_token body = token (LinkPoller.linkInfo p)
           /\ req_type body = type (LinkPoller.linkInfo p)
           /\ req_password body = password (LinkPoller.linkInfo p)
           /\ req_clientId body = Some (LinkPoller.clientId p)
  | EvOnPayload r _ i | EvOnStatusChange r _ i | EvOnError r _ i =>
      exists p, h !! r = Some p /\ i = LinkPoller.linkInfo p /\ isValid i = true
  | EvSetTimeout _ _ delay => (millis 1000 <= delay)%Qc
  | EvClearTimeout _ _ => True
  end.

(** The registry and its pollers are configured alike, every poller polls a
    link that passed validation, with a token of 16 to 64 units, every
    controller is in a state its own methods produce, and every event so far
    is sound. *)
Definition healthy (ep0 : jsstring) (key0 : option jsstring) (w : World) : Prop :=
  pollingEndpoint (sdk w) = ep0 /\ apiKey (sdk w) = key0
  /\ (forall (r : Ref) p, heap w !! r = Some p ->
        AdaptivePoller.reachable (LinkPoller.adaptive p)
        /\ LinkPoller.endpoint p = ep0 /\ LinkPoller.apiKey p = key0
        /\ isValid (LinkPoller.linkInfo p) = true
        /\ 16 <= length (token (LinkPoller.linkInfo p)) <= 64)
  /\ Forall (sound_event ep0 key0 (heap w)) (trace (runtime w)).

(** An event that neither requests nor books anything, for any poller. *)
Definition starts_nothing (e : Event) : bool :=
  match e with
  | EvFetch _ _ _ _ | EvSetTimeout _ _ _ => false
  | _ => true
  end.

(** An operation other than a call of [startListening]. *)
Definition no_new_listener (op : Op) : bool :=
  match op with
  | StartListening _ _ _ _ _ _ => false
  | _ => true
  end.

(** The delays of the timers set so far. *)
Definition timer_delays (evs : list Event) : list number :=
  omap (fun e => match e with EvSetTimeout _ _ d => Some d | _ => None end) evs.

(** What [sound_event] says of requests and handler calls. *)
Definition in_its_pollers_name (ep0 : jsstring) (key0 : option jsstring)
  (h : list LinkPoller.t) (e : Event) : Prop :=
  match e with
  | EvSetTimeout _ _ _ => True
  | _ => sound_event ep0 key0 h e
  end.

(** The invariants of a run taken together. *)
Definition sane (ep0 : jsstring) (key0 : option jsstring) (w : World) : Prop :=
  well_numbered w /\ tidy w /\ healthy ep0 key0 w.

(** Poller [r], if it exists, is not running. *)
Definition halted (r : Ref) (w : World) : Prop :=
  forall p, heap w !! r = Some p -> LinkPoller.isRunning p = false.

End Run.

(** ** Sample objects

    A link without query or fragment and the objects the SDK builds for it;
    handlers that return and handlers that throw; and the [URL] constructor
    of the platform as it behaves on URLs that have neither query nor
    fragment. *)

Definition URL_plain : jsstring -> option URLObject :=
  fun _ => Some {| searchParams_password := None; hash := [] |}.

Definition sample_url : jsstring :=
  str "https://secret.annai.ai/link/abc123def456ghi789".

Definition sample_link : LinkInfo :=
  {| isValid := true; token := str "abc123def456ghi789"; type := ping;
     hasPassword := false; hasEncryption := false;
     domain := str "secret.annai.ai"; password := None;
     encryptionKey := None |}.

Definition accepting {A} : Handler A := fun _ _ => Normal tt.

Definition refusing {A} : Handler A :=
  fun _ _ => Throw (ThrownError (str "handler failed")).

Definition no_callbacks : LinkCallbacks :=
  {| onPayload := None; onError := None; onStatusChange := None |}.

(** Callbacks with only an [onStatusChange] handler, only an [onError]
    handler, or both. *)
Definition on_status (h : Handler LinkStatus) : LinkCallbacks :=
  {| onPayload := None; onError := None; onStatusChange := Some h |}.

Definition on_error (h : Handler jsstring) : LinkCallbacks :=
  {| onPayload := None; onError := Some h; onStatusChange := None |}.

Definition on_error_and_status (he : Handler jsstring) (hs : Handler LinkStatus)
  : LinkCallbacks :=
  {| onPayload := None; onError := Some he; onStatusChange := Some hs |}.

(** Callbacks with only an [onPayload] handler. *)
Definition on_payload (h : Handler PayloadData) : LinkCallbacks :=
  {| onPayload := Some h; onError := None; onStatusChange := None |}.

Definition sample_poller_options (callbacks : LinkCallbacks) : PollerOptions :=
  {| opt_endpoint := str "https://x/poll"; opt_apiKey := None;
     opt_interval := millis 5000; opt_callbacks := callbacks;
     opt_debug := None |}.

(** A poller for the sample link, as built by the constructor. *)
Definition fresh_poller (callbacks : LinkCallbacks) : LinkPoller.t :=
  LinkPoller.new sample_link (sample_poller_options callbacks) (str "sdk-0-k3j").

(** The same poller while it runs. *)
Definition sample_poller (callbacks : LinkCallbacks) : LinkPoller.t :=
  LinkPoller.set_isRunning true (fresh_poller callbacks).

Definition idle_runtime : Runtime :=
  {| armed := ∅; nextTimer := 1%N; trace := [] |}.

(** Options that override the ping interval with 5000 ms. *)
Definition sample_options : SDKOptions :=
  {| sdk_pollingEndpoint := str "https://x/poll"; sdk_apiKey := None;
     sdk_pingInterval := Some (Finite (millis 5000)); sdk_webhookInterval := None;
     sdk_onError := None; sdk_debug := None; sdk_validation := None |}.

Definition sample_sdk (validation : option ValidationOptions) : SDK.t :=
  {| SDK.pollingEndpoint := str "https://x/poll"; SDK.apiKey := None;
     SDK.intervals_ping := millis 5000; SDK.intervals_webhook := millis 60000;
     SDK.activeListeners := ∅; SDK.onError := fun _ => Normal tt;
     SDK.debug := false; SDK.validation := validation;
     SDK.listenerCounter := 0 |}.

(** The world right after construction with [sample_options]. *)
Definition sample_world : SDK.World :=
  {| SDK.sdk := sample_sdk None; SDK.heap := []; SDK.runtime := idle_runtime;
     SDK.inflight := [] |}.

(** A registry that requires a password. *)
Definition strict_world : SDK.World :=
  {| SDK.sdk :=
       sample_sdk (Some {| allowedDomains := None; allowedLinkTypes := None;
                           requirePassword := Some true |});
     SDK.heap := []; SDK.runtime := idle_runtime; SDK.inflight := [] |}.

(** A world with one running poller whose poll is awaiting its fetch. *)
Definition polling_world (callbacks : LinkCallbacks) : SDK.World :=
  {| SDK.sdk := sample_sdk None; SDK.heap := [sample_poller callbacks];
     SDK.runtime := idle_runtime;
     SDK.inflight := [{| SDK.in_poller := 0; SDK.in_listener := None |}] |}.

(** A successful response that reports the link deleted, with a server
    error. *)
Definition deleted_response : PollResponse :=
  {| hasNewContent := false; payload := None; nextPollIn := None;
     error := Some (str "link removed"); linkStatus := deleted |}.

(** A successful response with a payload for an active link. *)
Definition payload_response : PollResponse :=
  {| hasNewContent := true;
     payload := Some {| payload_type := ping; payload_timestamp := 1;
                        payload_data := str "{}"; payload_metadata := None |};
     nextPollIn := None; error := None; linkStatus := active |}.

Definition ok (result : PollResponse) : FetchOutcome :=
  FetchResponse 200 (str "OK") (JsonOk result).

(** The [URL] object of a link whose query is [password=secret]. *)
Definition URL_with_password : jsstring -> option URLObject :=
  fun _ => Some {| searchParams_password := Some (str "secret"); hash := [] |}.

(** The [URL] constructor on an input it refuses: it throws. *)
Definition URL_rejects : jsstring -> option URLObject := fun _ => None.

(** A URL with a space in its host.  The pattern for custom domains takes
    any host without a slash, and the [URL] constructor of the platform
    refuses a host that holds a space. *)
Definition spaced_host_url : jsstring :=
  str "https://exa mple.com/link/abc123def456ghi789".

(** Options whose ping interval is [NaN] and whose webhook interval is
    [Infinity]. *)
Definition nonfinite_options : SDKOptions :=
  {| sdk_pollingEndpoint := str "https://x/poll"; sdk_apiKey := None;
     sdk_pingInterval := Some NaN; sdk_webhookInterval := Some Infinity;
     sdk_onError := None; sdk_debug := None; sdk_validation := None |}.

(** [parseLink(url).isValid === false] *)
Definition rejected_by_parseLink (url : string) : bool :=
  match parseLink URL_plain (JsString (str url)) with
  | Normal info => negb (isValid info)
  | Throw _ => false
  end.

(** The registry of the test of custom validation rules. *)
Definition picky_sdk : SDK.t :=
  sample_sdk (Some {| allowedDomains := Some [str "allowed-domain.com"];
                      allowedLinkTypes := None;
                      requirePassword := Some true |}).

(** [validateLink(url).isValid] *)
Definition validated (URL_new : jsstring -> option URLObject) (self : SDK.t)
  (url : string) : option bool :=
  match SDK.validateLink URL_new self (JsString (str url)) with
  | Normal info => Some (isValid info)
  | Throw _ => None
  end.

(** * Properties *)

(** ** Numbers *)

Lemma positive_number_spec (x : number) :
  positive_number x = true <-> (millis 0 < x)%Qc.
Proof.
  unfold positive_number. split.
  - destruct (x ?= millis 0)%Qc eqn:E; try discriminate.
    intros _. now apply Qcgt_alt.
  - intros H. apply Qcgt_alt in H. now rewrite H.
Qed.

Lemma Math_max_spec (a b : number) :
  (a <= Math_max a b)%Qc /\ (b <= Math_max a b)%Qc
  /\ (Math_max a b = a \/ Math_max a b = b).
Proof.
  unfold Math_max. destruct (a ?= b)%Qc eqn:E.
  - apply Qceq_alt in E. subst b. repeat split; try apply Qcle_refl. now left.
  - apply Qclt_alt in E. repeat split.
    + now apply Qclt_le_weak.
    + apply Qcle_refl.
    + now right.
  - apply Qcgt_alt in E. repeat split.
    + apply Qcle_refl.
    + now apply Qclt_le_weak.
    + now left.
Qed.

Lemma Math_min_spec (a b : number) :
  (Math_min a b <= a)%Qc /\ (Math_min a b <= b)%Qc
  /\ (Math_min a b = a \/ Math_min a b = b).
Proof.
  unfold Math_min. destruct (a ?= b)%Qc eqn:E.
  - apply Qceq_alt in E. subst b. repeat split; try apply Qcle_refl. now left.
  - apply Qclt_alt in E. repeat split.
    + apply Qcle_refl.
    + now apply Qclt_le_weak.
    + now left.
  - apply Qcgt_alt in E. repeat split.
    + now apply Qclt_le_weak.
    + apply Qcle_refl.
    + now right.
Qed.

(** ** Interval controller *)

Module AdaptivePollerFacts.
Import AdaptivePoller.

Lemma adjustInterval_constants a h n :
  baseInterval (adjustInterval a h n) = baseInterval a
  /\ backoffMultiplier (adjustInterval a h n) = backoffMultiplier a
  /\ maxInterval (adjustInterval a h n) = maxInterval a
  /\ token (adjustInterval a h n) = token a
  /\ debug (adjustInterval a h n) = debug a.
Proof.
  unfold adjustInterval.
  destruct (suggested n); [now cbn|].
  destruct h; [now cbn|].
  cbn. destruct (N.leb 3 (consecutiveEmpty a + 1)); now cbn.
Qed.

Lemma reachable_constants a :
  reachable a ->
  backoffMultiplier a = Q2Qc (3 # 2) /\ maxInterval a = millis 300000
  /\ (baseInterval a = millis 10000 \/ baseInterval a = millis 60000).
Proof.
  induction 1 as [tk ty dbg | a h n _ IH | a _ IH].
  - cbn. repeat split. destruct ty; [now left | now right].
  - destruct (adjustInterval_constants a h n) as (-> & -> & -> & _). exact IH.
  - exact IH.
Qed.

Lemma adjust_empty_below_threshold a :
  (consecutiveEmpty a + 1 < 3)%N ->
  adjustInterval a false None = set_consecutiveEmpty (consecutiveEmpty a + 1) a.
Proof.
  intros H. unfold adjustInterval. cbn.
  destruct (N.leb_spec 3 (consecutiveEmpty a + 1)); [lia | reflexivity].
Qed.

Lemma adjust_empty_at_threshold a :
  (3 <= consecutiveEmpty a + 1)%N ->
  adjustInterval a false None =
  set_currentInterval
    (Math_min (currentInterval a * backoffMultiplier a)%Qc (maxInterval a))
    (set_consecutiveEmpty (consecutiveEmpty a + 1) a).
Proof.
  intros H. unfold adjustInterval. cbn.
  destruct (N.leb_spec 3 (consecutiveEmpty a + 1)); [reflexivity | lia].
Qed.



(** The back-off of a fresh ping controller, in numbers. *)
Example ping_backoff_value :
  let a := new (str "abc123def456ghi789") ping false in
  currentInterval
    (adjustInterval (adjustInterval (adjustInterval a false None) false None)
       false None)
  = millis 15000.
Proof. apply Qc_is_canon. reflexivity. Qed.

Lemma adjust_nonpositive_hint_ignored a h n :
  ~ (millis 0 < n)%Qc ->
  adjustInterval a h (Some n) = adjustInterval a h None.
Proof.
  intros H. unfold adjustInterval, suggested.
  destruct (positive_number n) eqn:E; [|reflexivity].
  apply positive_number_spec in E. contradiction.
Qed.

(** C5. With a server suggestion [s > 0], [adjustInterval(hasNewContent, s)]
    sets the current interval to [max(s, 1000)] whatever [hasNewContent] is,
    and changes no other field, the empty-cycle count included. *)
Theorem server_suggestion_wins (a : t) (hasNewContent : bool) (s : number) :
  (millis 0 < s)%Qc ->
  adjustInterval a hasNewContent (Some s)
  = set_currentInterval (Math_max s (millis 1000)) a
  /\ consecutiveEmpty (adjustInterval a hasNewContent (Some s))
     = consecutiveEmpty a
  /\ (s <= currentInterval (adjustInterval a hasNewContent (Some s)))%Qc
  /\ (millis 1000 <= currentInterval (adjustInterval a hasNewContent (Some s)))%Qc
  /\ (currentInterval (adjustInterval a hasNewContent (Some s)) = s
      \/ currentInterval (adjustInterval a hasNewContent (Some s)) = millis 1000).
Proof.
  intros Hpos. apply positive_number_spec in Hpos.
  unfold adjustInterval, suggested. rewrite Hpos. cbn.
  split; [reflexivity|]. split; [reflexivity|].
  apply Math_max_spec.
Qed.

Lemma server_suggestion_wins_witness :
  (millis 0 < millis 500)%Qc
  /\ adjustInterval (new (str "abc123def456ghi789") webhook false) true
       (Some (millis 500))
     = set_currentInterval (Math_max (millis 500) (millis 1000))
         (new (str "abc123def456ghi789") webhook false).
Proof.
  assert (H : (millis 0 < millis 500)%Qc)
    by (apply positive_number_spec; reflexivity).
  split; [exact H|].
  apply (server_suggestion_wins
           (new (str "abc123def456ghi789") webhook false) true (millis 500) H).
Defined.

End AdaptivePollerFacts.

(** ** Link poller *)

Module LinkPollerFacts.
Import LinkPoller.

Lemma stop_not_running self p rt :
  isRunning p = false -> stop self (p, rt) = (Normal tt, (p, rt)).
Proof. intros H. unfold stop, bind, current. cbn. now rewrite H. Qed.

Lemma stop_running self p rt :
  isRunning p = true ->
  stop self (p, rt) =
  (Normal tt,
   match timeoutId p with
   | Some id =>
       (set_timeoutId None (set_isRunning false p),
        {| armed := delete id (armed rt); nextTimer := nextTimer rt;
           trace := trace rt ++ [EvClearTimeout self id] |})
   | None => (set_isRunning false p, rt)
   end).
Proof.
  intros H. unfold stop, bind, current. cbn. rewrite H. cbn.
  destruct (timeoutId p); reflexivity.
Qed.

Lemma scheduleNextPoll_running self p rt :
  isRunning p = true ->
  scheduleNextPoll self (p, rt) =
  (Normal tt,
   (set_timeoutId (Some (nextTimer rt)) p,
    {| armed := <[nextTimer rt := self]> (armed rt);
       nextTimer := (nextTimer rt + 1)%N;
       trace := trace rt
                ++ [EvSetTimeout self (nextTimer rt)
                      (AdaptivePoller.currentInterval (adaptive p))] |})).
Proof. intros H. unfold scheduleNextPoll, bind, current. cbn. now rewrite H. Qed.

Lemma scheduleNextPoll_not_running self p rt :
  isRunning p = false -> scheduleNextPoll self (p, rt) = (Normal tt, (p, rt)).
Proof. intros H. unfold scheduleNextPoll, bind, current. cbn. now rewrite H. Qed.

Lemma invoke_returns {A} (h : option (Handler A)) ev arg p rt :
  returns h arg (linkInfo p) ->
  invoke h ev arg (p, rt) = (Normal tt, (p, record (delivery h (ev (linkInfo p))) rt)).
Proof.
  intros H. unfold invoke, delivery, record. destruct h as [h|]; cbn in *.
  - now rewrite H.
  - rewrite app_nil_r. now destruct rt.
Qed.

Lemma record_record evs evs' rt : record evs' (record evs rt) = record (evs ++ evs') rt.
Proof. unfold record. cbn. now rewrite app_assoc. Qed.

Lemma record_nil rt : record [] rt = rt.
Proof. unfold record. rewrite app_nil_r. now destruct rt. Qed.

Lemma poll_resume_terminal self p rt status statusText result now :
  response_ok status = true ->
  is_terminal (linkStatus result) = true ->
  handlers_return p result ->
  poll_resume self (FetchResponse status statusText (JsonOk result)) now (p, rt)
  = stop self
      (seen now result p,
       record (payload_delivery self p result
               ++ delivery (onStatusChange (callbacks p))
                    (EvOnStatusChange self (linkStatus result) (linkInfo p))) rt).
Proof.
  intros Hok Hterm [Hpl Hst].
  unfold poll_resume, try_catch, poll_try. rewrite Hok. cbn [negb].
  destruct p as [li ep ak [hp he hs] ad run tid dbg cid ls].
  destruct result as [hnc pl npi err st].
  unfold payload_delivery, seen, returns, delivery, record in *.
  cbn in Hterm, Hpl, Hst |- *.
  destruct st; [discriminate | ..].
  all: destruct hnc, pl as [pl|], hp as [hp|], hs as [hs|].
  all: unfold bind, invoke, emit, stop, clearTimeout, update, current, ret, bind.
  all: cbn; rewrite ?Hpl; cbn; rewrite ?Hst; cbn.
  all: destruct run, tid; cbn; rewrite ?app_nil_r, <- ?app_assoc; try reflexivity.
  all: try (destruct rt; reflexivity).
Qed.

Lemma poll_resume_failure self p rt outcome now e :
  transport_failure outcome = Some e ->
  returns (onError (callbacks p)) (toError e) (linkInfo p) ->
  poll_resume self outcome now (p, rt)
  = scheduleNextPoll self
      (set_adaptive (AdaptivePoller.adjustInterval (adaptive p) false None) p,
       record (delivery (onError (callbacks p))
                 (EvOnError self (toError e) (linkInfo p))) rt).
Proof.
  intros Hfail Hret.
  assert (Htry : poll_try self outcome now (p, rt) = (Throw e, (p, rt))).
  { unfold transport_failure in Hfail. unfold poll_try.
    destruct outcome as [e' | status statusText body].
    - now inversion Hfail.
    - destruct (negb (response_ok status)); [now inversion Hfail|].
      destruct body; [discriminate | now inversion Hfail]. }
  unfold poll_resume, try_catch. rewrite Htry.
  unfold poll_catch, bind at 1, current. cbn [fst snd].
  unfold bind at 1. rewrite (invoke_returns _ _ _ _ _ Hret).
  reflexivity.
Qed.

(** *** Frame: what a method does not do *)

Lemma calm_app r evs evs' : calm r evs -> calm r evs' -> calm r (evs ++ evs').
Proof. unfold calm. rewrite forallb_app. now intros -> ->. Qed.

Lemma quiet_refl r self s : quiet r self s s.
Proof.
  split; [|auto]. exists []. split; [now rewrite app_nil_r | reflexivity].
Qed.

Lemma quiet_trans r self s1 s2 s3 :
  quiet r self s1 s2 -> quiet r self s2 s3 -> quiet r self s1 s3.
Proof.
  intros [(evs & Ht & Hc) Hr] [(evs' & Ht' & Hc') Hr']. split.
  - exists (evs ++ evs'). split.
    + now rewrite Ht', Ht, app_assoc.
    + intros H. apply calm_app; [auto|].
      apply Hc'. destruct H as [H|H]; [now left | right; auto].
  - auto.
Qed.

Section Keeps.
Context (r self : Ref).

Lemma keeps_ret {A} (a : A) : keeps r self (ret a).
Proof. intros s. apply quiet_refl. Qed.

Lemma keeps_throw {A} e : keeps r self (@throw A e).
Proof. intros s. apply quiet_refl. Qed.

Lemma keeps_current : keeps r self current.
Proof. intros s. apply quiet_refl. Qed.

Lemma keeps_bind {A B} (m : M A) (f : A -> M B) :
  keeps r self m -> (forall a, keeps r self (f a)) -> keeps r self (bind m f).
Proof.
  intros Hm Hf s. unfold bind. specialize (Hm s).
  destruct (m s) as [[a|e] s1]; cbn in *; [|exact Hm].
  eapply quiet_trans; [exact Hm | apply Hf].
Qed.

Lemma keeps_try_catch {A} (body : M A) handler :
  keeps r self body -> (forall e, keeps r self (handler e)) ->
  keeps r self (try_catch body handler).
Proof.
  intros Hm Hf s. unfold try_catch. specialize (Hm s).
  destruct (body s) as [[a|e] s1]; cbn in *; [exact Hm|].
  eapply quiet_trans; [exact Hm | apply Hf].
Qed.

Lemma keeps_update f :
  (forall p, isRunning p = false -> isRunning (f p) = false) ->
  keeps r self (update f).
Proof.
  intros Hf [p rt]. split; cbn; [|apply Hf].
  exists []. split; [now rewrite app_nil_r | reflexivity].
Qed.

Lemma keeps_invoke {A} (h : option (Handler A)) ev arg :
  (forall info, starts_cycle r (ev info) = false) -> keeps r self (invoke h ev arg).
Proof.
  intros Hev [p rt]. unfold invoke. destruct h as [h|]; [|apply quiet_refl].
  cbn. split; [|auto].
  exists [ev (linkInfo p)]. split; [reflexivity|].
  intros _. unfold calm. cbn. now rewrite Hev.
Qed.

Lemma keeps_stop : keeps r self (stop self).
Proof.
  intros [p rt]. destruct (isRunning p) eqn:Hrun.
  - rewrite stop_running by exact Hrun. destruct (timeoutId p); cbn.
    + split; cbn; [|reflexivity].
      eexists. split; [reflexivity|]. reflexivity.
    + split; cbn; [|reflexivity].
      exists []. split; [now rewrite app_nil_r | reflexivity].
  - rewrite stop_not_running by exact Hrun. apply quiet_refl.
Qed.

Lemma keeps_scheduleNextPoll : keeps r self (scheduleNextPoll self).
Proof.
  intros [p rt]. destruct (isRunning p) eqn:Hrun.
  - rewrite scheduleNextPoll_running by exact Hrun. split; cbn.
    + eexists. split; [reflexivity|].
      intros [Hne | Hstop]; [|congruence].
      unfold calm. cbn. apply Nat.eqb_neq in Hne. now rewrite Hne.
    + congruence.
  - rewrite scheduleNextPoll_not_running by exact Hrun. apply quiet_refl.
Qed.

Lemma keeps_poll_begin now : keeps r self (poll_begin self now).
Proof.
  intros [p rt]. unfold poll_begin, bind, current. cbn [fst snd].
  destruct (isRunning p) eqn:Hrun; cbn [negb]; [|apply quiet_refl].
  cbn. split; cbn; [|congruence].
  eexists. split; [reflexivity|].
  intros [Hne | Hstop]; [|congruence].
  unfold calm. cbn. apply Nat.eqb_neq in Hne. now rewrite Hne.
Qed.

Lemma keeps_adjust h n : keeps r self (adjust h n).
Proof. apply keeps_update. auto. Qed.

Lemma keeps_poll_catch e : keeps r self (poll_catch self e).
Proof.
  unfold poll_catch.
  apply keeps_bind; [apply keeps_current | intros p].
  apply keeps_bind; [now apply keeps_invoke | intros _].
  apply keeps_bind; [apply keeps_adjust | intros _].
  apply keeps_scheduleNextPoll.
Qed.

Lemma keeps_poll_try outcome now : keeps r self (poll_try self outcome now).
Proof.
  unfold poll_try. destruct outcome as [e | status statusText body].
  { apply keeps_throw. }
  destruct (negb (response_ok status)); [apply keeps_throw|].
  destruct body as [result | e]; [|apply keeps_throw].
  apply keeps_bind; [apply keeps_current | intros p].
  apply keeps_bind.
  { destruct (hasNewContent result), (payload result); try apply keeps_ret.
    apply keeps_bind; [now apply keeps_update | intros _].
    now apply keeps_invoke. }
  intros _. apply keeps_bind.
  { destruct (negb (is_active (linkStatus result))); [|apply keeps_ret].
    apply keeps_bind; [now apply keeps_invoke | intros _].
    destruct (is_terminal (linkStatus result)); [|apply keeps_ret].
    apply keeps_bind; [apply keeps_stop | intros _; apply keeps_ret]. }
  intros [|]; [apply keeps_ret|].
  apply keeps_bind.
  { destruct (truthy_string (error result)); [|apply keeps_ret].
    now apply keeps_invoke. }
  intros _. apply keeps_bind; [apply keeps_adjust | intros _].
  apply keeps_scheduleNextPoll.
Qed.

Lemma keeps_poll_resume outcome now : keeps r self (poll_resume self outcome now).
Proof.
  apply keeps_try_catch; [apply keeps_poll_try | apply keeps_poll_catch].
Qed.

End Keeps.

Lemma errors_reported_app r evs evs' :
  errors_reported r (evs ++ evs') = errors_reported r evs ++ errors_reported r evs'.
Proof. unfold errors_reported. apply omap_app. Qed.

(** C4 (amended). When the exchange of a cycle fails (the fetch is rejected,
    the status is not 2xx, or the body is not JSON) and the [onError]
    handler, if any, returns normally, the cycle completes normally: the
    handler has been called once with that error, the interval controller
    has been adjusted with [(false, undefined)], the running flag is
    unchanged, and a running poller has a fresh timer armed for its next
    cycle at the adjusted interval. *)
Theorem transport_failure_reported_and_retried
  (self : Ref) (p : t) (rt : Runtime) (outcome : FetchOutcome) (now : Z)
  (e : Thrown) :
  transport_failure outcome = Some e ->
  returns (onError (callbacks p)) (toError e) (linkInfo p) ->
  exists p' rt' evs,
    poll_resume self outcome now (p, rt) = (Normal tt, (p', rt'))
    /\ trace rt' = trace rt ++ evs
    /\ errors_reported self evs
       = match onError (callbacks p) with
         | Some _ => [toError e]
         | None => []
         end
    /\ adaptive p' = AdaptivePoller.adjustInterval (adaptive p) false None
    /\ isRunning p' = isRunning p
    /\ (isRunning p = true ->
        timeoutId p' = Some (nextTimer rt)
        /\ armed rt' !! nextTimer rt = Some self
        /\ In (EvSetTimeout self (nextTimer rt)
                 (AdaptivePoller.currentInterval (adaptive p'))) evs).
Proof.
  intros Hfail Hret.
  rewrite (poll_resume_failure self p rt outcome now e Hfail Hret).
  assert (Hrep : errors_reported self
                   (delivery (onError (callbacks p))
                      (EvOnError self (toError e) (linkInfo p)))
                 = match onError (callbacks p) with
                   | Some _ => [toError e]
                   | None => []
                   end).
  { unfold delivery. destruct (onError (callbacks p)); [|reflexivity].
    unfold errors_reported. cbn [omap list_omap]. now rewrite Nat.eqb_refl. }
  destruct (isRunning p) eqn:Hrun.
  - rewrite scheduleNextPoll_running by exact Hrun.
    eexists _, _, _. split; [reflexivity|]. cbn [trace armed nextTimer isRunning adaptive timeoutId set_timeoutId set_adaptive set_isRunning record].
    split; [now rewrite <- app_assoc|].
    split; [rewrite errors_reported_app, Hrep;
            destruct (onError (callbacks p)); reflexivity|].
    split; [reflexivity|]. split; [exact Hrun|].
    intros _. split; [reflexivity|]. split; [apply lookup_insert_eq|].
    apply in_or_app. right. now left.
  - rewrite scheduleNextPoll_not_running by exact Hrun.
    eexists _, _, _. split; [reflexivity|]. cbn [trace armed nextTimer isRunning adaptive timeoutId set_timeoutId set_adaptive set_isRunning record].
    split; [reflexivity|]. split; [exact Hrep|].
    split; [reflexivity|]. split; [exact Hrun|]. discriminate.
Qed.

(** C10 (amended). When a cycle's result carries a terminal link status
    together with a server error, and the handlers the cycle calls return
    normally, the poller stops: [onError] is not called for the server
    error, nothing is fed to the interval controller, which is left as it
    was, and no next cycle is booked. *)
Theorem terminal_cycle_skips_error_and_interval
  (self : Ref) (p : t) (rt : Runtime) (status : N) (statusText : jsstring)
  (result : PollResponse) (message : jsstring) (now : Z) :
  response_ok status = true ->
  is_terminal (linkStatus result) = true ->
  error result = Some message ->
  handlers_return p result ->
  exists p' rt' evs,
    poll_resume self (FetchResponse status statusText (JsonOk result)) now (p, rt)
    = (Normal tt, (p', rt'))
    /\ trace rt' = trace rt ++ evs
    /\ errors_reported self evs = []
    /\ calm self evs
    /\ isRunning p' = false
    /\ adaptive p' = adaptive p.
Proof.
  intros Hok Hterm _ Hret.
  rewrite (poll_resume_terminal self p rt status statusText result now Hok Hterm Hret).
  set (evs0 := payload_delivery self p result
               ++ delivery (onStatusChange (callbacks p))
                    (EvOnStatusChange self (linkStatus result) (linkInfo p))).
  assert (Herr : errors_reported self evs0 = []).
  { unfold evs0, payload_delivery, delivery.
    destruct (hasNewContent result), (payload result), (onPayload (callbacks p)),
      (onStatusChange (callbacks p)); reflexivity. }
  assert (Hcalm : calm self evs0).
  { unfold evs0, payload_delivery, delivery.
    destruct (hasNewContent result), (payload result), (onPayload (callbacks p)),
      (onStatusChange (callbacks p)); reflexivity. }
  assert (Hseen : isRunning (seen now result p) = isRunning p
                  /\ timeoutId (seen now result p) = timeoutId p
                  /\ adaptive (seen now result p) = adaptive p).
  { unfold seen. now destruct (hasNewContent result), (payload result). }
  destruct Hseen as (Hsr & Hst & Hsa).
  destruct (isRunning p) eqn:Hrun.
  - rewrite stop_running by exact Hsr.
    destruct (timeoutId (seen now result p)) as [id|].
    + exists (set_timeoutId None (set_isRunning false (seen now result p))).
      eexists. exists (evs0 ++ [EvClearTimeout self id]).
      split; [reflexivity|]. cbn [trace armed nextTimer isRunning adaptive timeoutId set_timeoutId set_adaptive set_isRunning record]. split; [now rewrite app_assoc|].
      split; [rewrite errors_reported_app, Herr; reflexivity|].
      split; [apply calm_app; [exact Hcalm | reflexivity]|].
      split; [reflexivity | exact Hsa].
    + exists (set_isRunning false (seen now result p)).
      eexists. exists evs0.
      split; [reflexivity|]. cbn [trace armed nextTimer isRunning adaptive timeoutId set_timeoutId set_adaptive set_isRunning record]. repeat split; auto.
  - rewrite stop_not_running by exact Hsr.
    eexists _, _, evs0. split; [reflexivity|]. cbn [trace armed nextTimer isRunning adaptive timeoutId set_timeoutId set_adaptive set_isRunning record]. repeat split; auto.
Qed.

Lemma new_ignores_interval_option (info : LinkInfo) (options : PollerOptions)
  (clientId : jsstring) :
  let p := LinkPoller.new info options clientId in
  let default_interval :=
    match type info with ping => millis 10000 | webhook => millis 60000 end in
  AdaptivePoller.baseInterval (adaptive p) = default_interval
  /\ AdaptivePoller.currentInterval (adaptive p) = default_interval
  /\ AdaptivePoller.currentInterval
       (AdaptivePoller.adjustInterval (adaptive p) true None) = default_interval
  /\ AdaptivePoller.currentInterval (AdaptivePoller.reset (adaptive p))
     = default_interval.
Proof.
  intros p d. subst p d.
  unfold LinkPoller.new, AdaptivePoller.new.
  cbn [adaptive AdaptivePoller.baseInterval AdaptivePoller.currentInterval].
  unfold AdaptivePoller.adjustInterval, AdaptivePoller.reset.
  cbn [AdaptivePoller.suggested AdaptivePoller.baseInterval
       AdaptivePoller.currentInterval AdaptivePoller.set_consecutiveEmpty
       AdaptivePoller.set_currentInterval].
  destruct (type info); repeat split.
Qed.

Lemma transport_failure_reported_and_retried_witness :
  transport_failure (FetchRejected (ThrownError (str "network down")))
  = Some (ThrownError (str "network down"))
  /\ exists p' rt' evs,
       poll_resume 0 (FetchRejected (ThrownError (str "network down"))) 7
         (sample_poller (on_error accepting), idle_runtime)
       = (Normal tt, (p', rt'))
       /\ trace rt' = trace idle_runtime ++ evs
       /\ errors_reported 0 evs = [str "network down"]
       /\ adaptive p'
          = AdaptivePoller.adjustInterval
              (adaptive (sample_poller (on_error accepting)))
              false None
       /\ isRunning p' = true
       /\ (isRunning (sample_poller (on_error accepting)) = true ->
           timeoutId p' = Some 1%N
           /\ armed rt' !! 1%N = Some 0
           /\ In (EvSetTimeout 0 1%N
                    (AdaptivePoller.currentInterval (adaptive p'))) evs).
Proof.
  split; [reflexivity|].
  exact (transport_failure_reported_and_retried 0
           (sample_poller (on_error accepting))
           idle_runtime (FetchRejected (ThrownError (str "network down"))) 7
           (ThrownError (str "network down")) eq_refl eq_refl).
Defined.

(** C4, as stated, fails: when the [onError] handler throws, the cycle ends
    by throwing, the interval controller is not adjusted and no timer is
    armed, although the poller is still marked running. *)
Lemma throwing_onError_ends_polling :
  fst (poll_resume 0 (FetchRejected (ThrownError (str "network down"))) 7
         (sample_poller (on_error refusing), idle_runtime))
  = Throw (ThrownError (str "handler failed"))
  /\ isRunning
       (fst (snd (poll_resume 0 (FetchRejected (ThrownError (str "network down"))) 7
                    (sample_poller (on_error refusing), idle_runtime))))
     = true
  /\ AdaptivePoller.consecutiveEmpty
       (adaptive
          (fst (snd (poll_resume 0 (FetchRejected (ThrownError (str "network down"))) 7
                       (sample_poller (on_error refusing), idle_runtime)))))
     = 0%N
  /\ existsb (starts_cycle 0)
       (trace
          (snd (snd (poll_resume 0 (FetchRejected (ThrownError (str "network down"))) 7
                       (sample_poller (on_error refusing), idle_runtime)))))
     = false.
Proof. repeat split. Qed.

Lemma terminal_cycle_skips_error_and_interval_witness :
  handlers_return
    (sample_poller (on_error_and_status accepting accepting)) deleted_response
  /\ exists p' rt' evs,
       poll_resume 0 (ok deleted_response) 7
         (sample_poller (on_error_and_status accepting accepting), idle_runtime)
       = (Normal tt, (p', rt'))
       /\ trace rt' = trace idle_runtime ++ evs
       /\ errors_reported 0 evs = []
       /\ calm 0 evs
       /\ isRunning p' = false
       /\ adaptive p'
          = adaptive (sample_poller (on_error_and_status accepting accepting)).
Proof.
  assert (H : handlers_return
                (sample_poller (on_error_and_status accepting accepting))
                deleted_response) by (split; reflexivity).
  split; [exact H|].
  exact (terminal_cycle_skips_error_and_interval 0
           (sample_poller (on_error_and_status accepting accepting))
           idle_runtime 200%N (str "OK") deleted_response (str "link removed") 7
           eq_refl eq_refl eq_refl H).
Defined.

(** C10, as stated, fails: when the [onStatusChange] handler throws on the
    terminal status, the cycle lands in the [catch] block, which calls
    [onError], feeds an empty cycle to the interval controller and books the
    next cycle; the poller is not stopped. *)
Lemma terminal_cycle_with_throwing_handler_is_fed_to_interval :
  is_terminal (linkStatus deleted_response) = true
  /\ error deleted_response = Some (str "link removed")
  /\ AdaptivePoller.consecutiveEmpty
       (adaptive (sample_poller (on_error_and_status accepting refusing)))
     = 0%N
  /\ AdaptivePoller.consecutiveEmpty
       (adaptive
          (fst (snd (poll_resume 0 (ok deleted_response) 7
                       (sample_poller (on_error_and_status accepting refusing),
                        idle_runtime)))))
     = 1%N
  /\ errors_reported 0
       (trace
          (snd (snd (poll_resume 0 (ok deleted_response) 7
                       (sample_poller (on_error_and_status accepting refusing),
                        idle_runtime)))))
     = [str "handler failed"]
  /\ isRunning
       (fst (snd (poll_resume 0 (ok deleted_response) 7
                    (sample_poller (on_error_and_status accepting refusing),
                     idle_runtime))))
     = true.
Proof. repeat split. Qed.

End LinkPollerFacts.

(** ** Listener identifiers *)

Lemma uint_units_inj d d' : uint_units d = uint_units d' -> d = d'.
Proof.
  revert d'. induction d; intros d' H; destruct d'; cbn in H;
    try discriminate; try reflexivity.
  all: injection H as H; f_equal; now apply IHd.
Qed.

Lemma uint_units_digits d : Forall (fun u => (48 <= u <= 57)%N) (uint_units d).
Proof. induction d; cbn; constructor; try lia; assumption. Qed.

Lemma N_toString_inj a b : N_toString a = N_toString b -> a = b.
Proof.
  unfold N_toString. intros H. apply uint_units_inj in H.
  rewrite <- (DecimalN.Unsigned.of_to a), <- (DecimalN.Unsigned.of_to b).
  now rewrite H.
Qed.

Lemma N_toString_no_dash n : ~ In 45%N (N_toString n).
Proof.
  unfold N_toString. intros H.
  pose proof (uint_units_digits (N.to_uint n)) as Hd.
  rewrite Forall_forall in Hd. apply list_elem_of_In in H. apply Hd in H. lia.
Qed.

Lemma sep_suffix_unique {A} (sep : A) (a b x y : list A) :
  ~ In sep x -> ~ In sep y -> a ++ sep :: x = b ++ sep :: y -> x = y.
Proof.
  intros Hx Hy. revert b. induction a as [|c a IH]; intros [|d b] H; cbn in H.
  - now inversion H.
  - inversion H; subst. exfalso. apply Hx. apply in_or_app. right. now left.
  - inversion H; subst. exfalso. apply Hy. apply in_or_app. right. now left.
  - inversion H; subst. now apply IH with b.
Qed.

(** ** Listener registry *)

Module SDKFacts.
Import SDK.
Import LinkPollerFacts.

Lemma extends_refl r w : extends r w w.
Proof. exists []. split; [now rewrite app_nil_r | reflexivity]. Qed.

Lemma extends_trans r w1 w2 w3 :
  extends r w1 w2 -> extends r w2 w3 -> extends r w1 w3.
Proof.
  intros (evs & H1 & C1) (evs' & H2 & C2). exists (evs ++ evs'). split.
  - now rewrite H2, H1, app_assoc.
  - now apply calm_app.
Qed.

(** Calling a method on [r'] leaves the registry and the suspended polls
    alone and keeps every reference valid. *)
Lemma call_frame {A} r' (m : LinkPoller.M A) w c w' :
  call r' m w = Some (c, w') ->
  sdk w' = sdk w /\ inflight w' = inflight w
  /\ length (heap w') = length (heap w)
  /\ (forall r, r <> r' -> heap w' !! r = heap w !! r)
  /\ exists p, heap w !! r' = Some p
       /\ heap w' !! r' = Some (fst (snd (m (p, runtime w))))
       /\ runtime w' = snd (snd (m (p, runtime w)))
       /\ c = fst (m (p, runtime w)).
Proof.
  unfold call. destruct (heap w !! r') as [p|] eqn:Hp; [|discriminate].
  destruct (m (p, runtime w)) as [c0 [p' rt']] eqn:Hm.
  intros H. inversion H; subst; clear H. cbn.
  repeat split.
  - apply length_insert.
  - intros r Hne. now apply list_lookup_insert_ne.
  - exists p. rewrite Hm. cbn. repeat split.
    apply list_lookup_insert_eq. now apply lookup_lt_Some in Hp.
Qed.

Lemma call_dormant {A} r r' (m : LinkPoller.M A) w c w' :
  LinkPoller.keeps r r' m -> call r' m w = Some (c, w') ->
  dormant r w -> dormant r w' /\ extends r w w'.
Proof.
  intros Hk Hcall (p & Hp & Hrun).
  destruct (call_frame _ _ _ _ _ Hcall)
    as (_ & _ & _ & Hother & p0 & Hp0 & Hp0' & Hrt & _).
  specialize (Hk (p0, runtime w)). destruct Hk as [(evs & Ht & Hc) Hr].
  cbn in *. destruct (decide (r = r')) as [->|Hne].
  - rewrite Hp in Hp0. inversion Hp0; subst p0. split.
    + eexists. split; [exact Hp0' | auto].
    + exists evs. rewrite Hrt. split; [exact Ht | auto].
  - split.
    + exists p. rewrite Hother by exact Hne. auto.
    + exists evs. rewrite Hrt. split; [exact Ht | apply Hc; left; congruence].
Qed.

Lemma start_fresh self now p rt :
  LinkPoller.isRunning p = false ->
  LinkPoller.start self now (p, rt)
  = (Normal true,
     (LinkPoller.set_isRunning true p,
      record [EvFetch self (LinkPoller.endpoint p)
                (if truthy_string (LinkPoller.apiKey p)
                 then LinkPoller.apiKey p else None)
                {| req_token := token (LinkPoller.linkInfo p);
                   req_type := type (LinkPoller.linkInfo p);
                   req_password := password (LinkPoller.linkInfo p);
                   req_clientId := Some (LinkPoller.clientId p);
                   req_timestamp := Some now;
                   req_lastSeen := LinkPoller.lastSeenTimestamp p |}] rt)).
Proof.
  intros H. unfold LinkPoller.start, LinkPoller.bind, LinkPoller.current.
  cbn [fst snd]. rewrite H. reflexivity.
Qed.

Lemma status_changes_app r evs evs' :
  status_changes r (evs ++ evs') = status_changes r evs ++ status_changes r evs'.
Proof. unfold status_changes. apply omap_app. Qed.

Lemma status_changes_payload r p result :
  status_changes r (LinkPoller.payload_delivery r p result) = [].
Proof.
  unfold LinkPoller.payload_delivery, delivery.
  destruct (hasNewContent result), (payload result),
    (onPayload (LinkPoller.callbacks p)); reflexivity.
Qed.

Lemma calm_payload r p result : calm r (LinkPoller.payload_delivery r p result).
Proof.
  unfold LinkPoller.payload_delivery, delivery.
  destruct (hasNewContent result), (payload result),
    (onPayload (LinkPoller.callbacks p)); reflexivity.
Qed.

Lemma stopListening_unknown id w :
  activeListeners (sdk w) !! id = None -> stopListening id w = w.
Proof. intros H. unfold stopListening. now rewrite H. Qed.

Lemma listenerId_inj t c t' c' : listenerId t c = listenerId t' c' -> c = c'.
Proof.
  unfold listenerId. intros H. apply app_inv_head in H.
  change (str "-") with [45%N] in H. cbn [app] in H.
  apply sep_suffix_unique in H; try apply N_toString_no_dash.
  now apply N_toString_inj.
Qed.

Lemma stopAll_frame w :
  listenerCounter (sdk (stopAll w)) = listenerCounter (sdk w)
  /\ length (heap (stopAll w)) = length (heap w)
  /\ activeListeners (sdk (stopAll w)) = ∅.
Proof.
  unfold stopAll. generalize (map_to_list (activeListeners (sdk w))) as entries.
  intros entries.
  enough (H : forall w0,
            let w1 := fold_left
              (fun w entry =>
                 match call (snd entry) (LinkPoller.stop (snd entry)) w with
                 | Some (_, w') => w'
                 | None => w
                 end) entries w0 in
            sdk w1 = sdk w0 /\ length (heap w1) = length (heap w0)).
  { destruct (H w) as [Hs Hl]. cbn. rewrite Hs, Hl. auto. }
  induction entries as [|[id r'] entries IH]; intros w0; cbn; [auto|].
  destruct (call r' (LinkPoller.stop r') w0) as [[c w']|] eqn:Hcall; [|apply IH].
  destruct (call_frame _ _ _ _ _ Hcall) as (Hs & _ & Hl & _).
  destruct (IH w') as [Hs' Hl']. cbn in *. split; congruence.
Qed.

Section Platform.
Variable URL_new : jsstring -> option URLObject.

(** The two ways [startListening] can go. *)
Lemma startListening_cases linkUrl callbacks t1 t2 t3 random36 w :
  (exists e, startListening URL_new linkUrl callbacks t1 t2 t3 random36 w
             = (w, Rejected e)
     /\ (validateLink URL_new (sdk w) linkUrl = Throw e
         \/ exists info, validateLink URL_new (sdk w) linkUrl = Normal info
              /\ isValid info = false
              /\ e = ThrownError (str "Invalid Secret Link URL")))
  \/ (exists info p,
        validateLink URL_new (sdk w) linkUrl = Normal info
        /\ isValid info = true
        /\ LinkPoller.isRunning p = true
        /\ LinkPoller.adaptive p
           = AdaptivePoller.new (token info) (type info) (debug (sdk w))
        /\ LinkPoller.callbacks p
           = opt_callbacks (pollerOptions (sdk w) info callbacks)
        /\ LinkPoller.timeoutId p = None
        /\ LinkPoller.linkInfo p = info
        /\ exists ev,
             starts_cycle (length (heap w)) ev = true /\
        startListening URL_new linkUrl callbacks t1 t2 t3 random36 w
        = ({| sdk :=
                set_activeListeners
                  (<[listenerId t1 (listenerCounter (sdk w) + 1)
                     := length (heap w)]> (activeListeners (sdk w)))
                  (set_listenerCounter (listenerCounter (sdk w) + 1) (sdk w));
              heap := heap w ++ [p];
              runtime := record [ev] (runtime w);
              inflight :=
                inflight w
                ++ [{| in_poller := length (heap w);
                       in_listener :=
                         Some (listenerId t1 (listenerCounter (sdk w) + 1)) |}] |},
           Suspended (listenerId t1 (listenerCounter (sdk w) + 1)))).
Proof.
  unfold startListening.
  destruct (validateLink URL_new (sdk w) linkUrl) as [info|e] eqn:Hv.
  2:{ left. exists e. auto. }
  destruct (isValid info) eqn:Hvalid; cbn [negb].
  2:{ left. eexists. split; [reflexivity|]. right. exists info. auto. }
  right. rewrite start_fresh by reflexivity.
  exists info. eexists.
  split; [reflexivity|]. split; [exact Hvalid|].
  split; [|split; [|split; [|split; [|split]]]].
  6:{ eexists. split; [|reflexivity]. cbn. apply Nat.eqb_refl. }
  all: reflexivity.
Qed.

Lemma forget_frame id w :
  heap (forget id w) = heap w /\ runtime (forget id w) = runtime w
  /\ inflight (forget id w) = inflight w.
Proof. now unfold forget. Qed.

Lemma stopListening_dormant r id w :
  dormant r w -> dormant r (stopListening id w) /\ extends r w (stopListening id w).
Proof.
  intros Hd. unfold stopListening.
  destruct (activeListeners (sdk w) !! id) as [r'|]; [|split; [auto | apply extends_refl]].
  destruct (call r' (LinkPoller.stop r') w) as [[c w']|] eqn:Hcall.
  - destruct (call_dormant r r' _ w c w' (keeps_stop r r') Hcall Hd) as [Hd' He].
    split; [exact Hd' | exact He].
  - split; [exact Hd | exact (extends_refl r w)].
Qed.

Lemma stopAll_dormant r w :
  dormant r w -> dormant r (stopAll w) /\ extends r w (stopAll w).
Proof.
  unfold stopAll. generalize (map_to_list (activeListeners (sdk w))) as entries.
  intros entries Hd.
  enough (H : forall w0, dormant r w0 ->
            let w1 := fold_left
              (fun w entry =>
                 match call (snd entry) (LinkPoller.stop (snd entry)) w with
                 | Some (_, w') => w'
                 | None => w
                 end) entries w0 in
            dormant r w1 /\ extends r w0 w1).
  { destruct (H w Hd) as [Hd' He]. split; [exact Hd' | exact He]. }
  induction entries as [|[id r'] entries IH]; intros w0 Hd0; cbn.
  - split; [exact Hd0 | apply extends_refl].
  - destruct (call r' (LinkPoller.stop r') w0) as [[c w']|] eqn:Hcall.
    + destruct (call_dormant r r' _ w0 c w' (keeps_stop r r') Hcall Hd0) as [Hd' He].
      destruct (IH w' Hd') as [Hd'' He']. split; [exact Hd''|].
      eapply extends_trans; eassumption.
    + apply IH, Hd0.
Qed.

Lemma step_dormant r w op :
  dormant r w ->
  dormant r (fst (step URL_new w op)) /\ extends r w (fst (step URL_new w op)).
Proof.
  intros Hd. destruct op as [url cbs t1 t2 t3 rnd | id | | id now | k outcome now]; cbn.
  - destruct (startListening_cases url cbs t1 t2 t3 rnd w)
      as [(e & -> & _) | (info & p & _ & _ & _ & _ & _ & _ & _ & ev & Hev & ->)]; cbn.
    + split; [exact Hd | apply extends_refl].
    + destruct Hd as (p0 & Hp0 & Hrun). split.
      * exists p0. split; [|exact Hrun]. now apply lookup_app_l_Some.
      * exists [ev]. split; [reflexivity|].
        unfold calm. cbn. apply lookup_lt_Some in Hp0.
        destruct ev; cbn in *; try reflexivity.
        all: apply Nat.eqb_eq in Hev; subst.
        all: destruct (Nat.eqb_spec (length (heap w)) r); [lia | reflexivity].
  - now apply stopListening_dormant.
  - now apply stopAll_dormant.
  - unfold timerFires. destruct (armed (runtime w) !! id) as [r'|];
      [|split; [exact Hd | apply extends_refl]].
    assert (Hd' : dormant r (disarm id w)) by exact Hd.
    destruct (call r' (LinkPoller.poll_begin r' now) (disarm id w))
      as [[c w']|] eqn:Hcall; [|split; [exact Hd | apply extends_refl]].
    destruct (call_dormant r r' _ _ c w' (keeps_poll_begin r r' now) Hcall Hd')
      as [Hd'' He].
    destruct c as [[|]|e]; cbn; (split; [exact Hd'' | exact He]).
  - unfold fetchSettles. destruct (inflight w !! k) as [f|];
      [|split; [exact Hd | apply extends_refl]].
    set (w0 := set_inflight (delete k (inflight w)) w).
    assert (Hd' : dormant r w0) by exact Hd.
    destruct (call (in_poller f) (LinkPoller.poll_resume (in_poller f) outcome now) w0)
      as [[c w']|] eqn:Hcall; [|split; [exact Hd | apply extends_refl]].
    destruct (call_dormant r _ _ _ c w' (keeps_poll_resume r _ outcome now) Hcall Hd')
      as [Hd'' He].
    destruct (in_listener f), c; cbn; (split; [exact Hd'' | exact He]).
Qed.

Lemma run_dormant r ops w :
  dormant r w ->
  dormant r (fst (run URL_new w ops)) /\ extends r w (fst (run URL_new w ops)).
Proof.
  revert w. induction ops as [|op ops IH]; intros w Hd; cbn.
  - split; [exact Hd | apply extends_refl].
  - destruct (step_dormant r w op Hd) as [Hd' He].
    destruct (step URL_new w op) as [w' o]. cbn in *.
    destruct (IH w' Hd') as [Hd'' He'].
    destruct (run URL_new w' ops) as [w'' os]. cbn in *.
    split; [exact Hd''|]. eapply extends_trans; eassumption.
Qed.

(** C1 (amended). When the fetch of a suspended cycle settles with a result
    whose link status is terminal, and the handlers that cycle calls
    ([onPayload] when a payload is delivered, [onStatusChange]) return
    normally, then the cycle calls the [onStatusChange] handler, when one is
    registered, exactly once and with that status; it books no cycle;
    afterwards the poller is not running, and if it was running its timer
    handle is null and the timer it held is not armed; and whatever the
    registry and the runtime do next, the poller stays not running and no
    request or timer of that poller ever appears on the trace. *)
Theorem terminal_status_stops_poller_for_good
  (w : World) (k : nat) (f : Inflight) (p : LinkPoller.t)
  (status : N) (statusText : jsstring) (result : PollResponse) (now : Z)
  (ops : list Op) :
  inflight w !! k = Some f ->
  heap w !! in_poller f = Some p ->
  response_ok status = true ->
  LinkPoller.is_terminal (linkStatus result) = true ->
  LinkPoller.handlers_return p result ->
  let r := in_poller f in
  let w1 := fst (fetchSettles k (FetchResponse status statusText (JsonOk result)) now w) in
  let w2 := fst (run URL_new w1 ops) in
  (exists evs,
      trace (runtime w1) = trace (runtime w) ++ evs
      /\ status_changes r evs
         = match onStatusChange (LinkPoller.callbacks p) with
           | Some _ => [linkStatus result]
           | None => []
           end
      /\ calm r evs)
  /\ (exists p1,
        heap w1 !! r = Some p1
        /\ LinkPoller.isRunning p1 = false
        /\ (LinkPoller.isRunning p = true ->
            LinkPoller.timeoutId p1 = None
            /\ forall id, LinkPoller.timeoutId p = Some id ->
                          armed (runtime w1) !! id = None))
  /\ dormant r w2
  /\ extends r w1 w2.
Proof.
  intros Hk Hp Hok Hterm Hret r w1 w2.
  change (in_poller f) with r in Hp.
  assert (Hlen : r < length (heap w)) by (now apply lookup_lt_Some in Hp).
  assert (H1 :
    (exists evs,
      trace (runtime w1) = trace (runtime w) ++ evs
      /\ status_changes r evs
         = match onStatusChange (LinkPoller.callbacks p) with
           | Some _ => [linkStatus result]
           | None => []
           end
      /\ calm r evs)
    /\ (exists p1,
        heap w1 !! r = Some p1
        /\ LinkPoller.isRunning p1 = false
        /\ (LinkPoller.isRunning p = true ->
            LinkPoller.timeoutId p1 = None
            /\ forall id, LinkPoller.timeoutId p = Some id ->
                          armed (runtime w1) !! id = None))).
  { subst w1. unfold fetchSettles. rewrite Hk.
    unfold call. cbn [heap set_inflight runtime]. change (in_poller f) with r.
    rewrite Hp.
    rewrite (poll_resume_terminal r p (runtime w) status statusText result now Hok Hterm Hret).
    set (evs0 := LinkPoller.payload_delivery r p result
                 ++ delivery (onStatusChange (LinkPoller.callbacks p))
                      (EvOnStatusChange r (linkStatus result) (LinkPoller.linkInfo p))).
    assert (Hsc : status_changes r evs0
                  = match onStatusChange (LinkPoller.callbacks p) with
                    | Some _ => [linkStatus result]
                    | None => []
                    end).
    { unfold evs0. rewrite status_changes_app, status_changes_payload.
      unfold delivery. destruct (onStatusChange (LinkPoller.callbacks p)); cbn;
        [now rewrite Nat.eqb_refl | reflexivity]. }
    assert (Hcalm : calm r evs0).
    { unfold evs0. apply calm_app; [apply calm_payload|].
      unfold delivery. now destruct (onStatusChange (LinkPoller.callbacks p)). }
    assert (Hseen : LinkPoller.isRunning (LinkPoller.seen now result p) = LinkPoller.isRunning p
                    /\ LinkPoller.timeoutId (LinkPoller.seen now result p) = LinkPoller.timeoutId p).
    { unfold LinkPoller.seen. now destruct (hasNewContent result), (payload result). }
    destruct Hseen as [Hsr Hst].
    destruct (LinkPoller.isRunning p) eqn:Hrun.
    - rewrite stop_running by exact Hsr. rewrite Hst.
      destruct (LinkPoller.timeoutId p) as [id|] eqn:Htid.
      + destruct (in_listener f); cbn.
        all: split; [exists (evs0 ++ [EvClearTimeout r id]); split; [now rewrite app_assoc|split]|].
        all: try (rewrite status_changes_app, Hsc; cbn; now rewrite app_nil_r).
        all: try (apply calm_app; [exact Hcalm | reflexivity]).
        all: eexists; split; [now apply list_lookup_insert_eq|].
        all: split; [reflexivity|]; intros _; split; [reflexivity|].
        all: intros id' [= <-]; apply lookup_delete_eq.
      + destruct (in_listener f); cbn.
        all: split; [exists evs0; auto|].
        all: eexists; split; [now apply list_lookup_insert_eq|].
        all: split; [reflexivity|]; intros _; split; [exact Hst|]; discriminate.
    - rewrite stop_not_running by exact Hsr.
      destruct (in_listener f); cbn.
      all: split; [exists evs0; auto|].
      all: eexists; split; [now apply list_lookup_insert_eq|].
      all: split; [exact Hsr|]; discriminate. }
  destruct H1 as [Hev Hp1]. split; [exact Hev|]. split; [exact Hp1|].
  apply run_dormant. destruct Hp1 as (p1 & Hp1 & Hrun1 & _). now exists p1.
Qed.
(** C8. [stop()] on a poller that is not running (stopped before, or never
    started) returns normally and leaves the poller and the runtime as they
    were: no flag changes, no timer is touched, nothing is put on the trace;
    and [stopListening] with an identifier that is not in the table returns
    normally and leaves the whole world as it was. *)
Theorem stopping_what_is_not_running_is_a_noop
  (self : Ref) (p : LinkPoller.t) (rt : Runtime) (id : jsstring) (w : World) :
  LinkPoller.isRunning p = false ->
  activeListeners (sdk w) !! id = None ->
  LinkPoller.stop self (p, rt) = (Normal tt, (p, rt))
  /\ step URL_new w (StopListening id) = (w, Returned).
Proof.
  intros Hrun Hid. split.
  - now apply LinkPollerFacts.stop_not_running.
  - cbn. now rewrite stopListening_unknown.
Qed.

Lemma includes_In {A} (eqb : A -> A -> bool) xs x :
  (forall a b, eqb a b = true <-> a = b) ->
  includes eqb xs x = true <-> In x xs.
Proof.
  intros Heq. unfold includes. rewrite existsb_exists. split.
  - intros (y & Hin & Hy). apply Heq in Hy. now subst.
  - intros Hin. exists x. split; [exact Hin | now apply Heq].
Qed.

Lemma jsstring_eqb_eq a b : jsstring_eqb a b = true <-> a = b.
Proof. unfold jsstring_eqb. apply bool_decide_eq_true. Qed.

Lemma LinkType_eqb_eq a b : LinkType_eqb a b = true <-> a = b.
Proof. destruct a, b; cbn; split; congruence. Qed.

Lemma applyValidationRules_rejects self v info :
  validation self = Some v ->
  domain_rejected v info \/ kind_rejected v info \/ password_missing v info ->
  is_Some (applyValidationRules self info).
Proof.
  intros Hv H. unfold applyValidationRules. rewrite Hv.
  destruct (Nat.ltb 0 (length (default [] (allowedDomains v)))
            && negb (includes jsstring_eqb (default [] (allowedDomains v)) (domain info)))
    eqn:Hd; [eauto|].
  destruct (Nat.ltb 0 (length (default [] (allowedLinkTypes v)))
            && negb (includes LinkType_eqb (default [] (allowedLinkTypes v)) (type info)))
    eqn:Hk; [eauto|].
  destruct (default false (requirePassword v) && negb (hasPassword info)) eqn:Hp; [eauto|].
  exfalso. destruct H as [(ds & Hds & Hne & Hnin) | [(ks & Hks & Hne & Hnin) | [Hreq Hno]]].
  - rewrite Hds in Hd. cbn in Hd. apply andb_false_iff in Hd. destruct Hd as [Hd|Hd].
    + destruct ds; [congruence | discriminate].
    + apply negb_false_iff in Hd. apply includes_In in Hd; [auto | apply jsstring_eqb_eq].
  - rewrite Hks in Hk. cbn in Hk. apply andb_false_iff in Hk. destruct Hk as [Hk|Hk].
    + destruct ks; [congruence | discriminate].
    + apply negb_false_iff in Hk. apply includes_In in Hk; [auto | apply LinkType_eqb_eq].
  - rewrite Hreq, Hno in Hp. discriminate.
Qed.

(** Where [parseLink] returns: when it yields a link that is invalid, or one
    that the configured rules turn down (domain not in a non-empty
    allow-list, kind not in a non-empty allow-list, or password required and
    absent), [startListening] is rejected with the error
    [Invalid Secret Link URL] and the world is what it was: no poller on the
    heap, the table and the listener counter unchanged, nothing on the
    trace. *)
Theorem invalid_link_rejected_without_effect
  (w : World) (linkUrl : JsArg) (callbacks : LinkCallbacks)
  (t1 t2 t3 : Z) (random36 : jsstring) (parsed : LinkInfo) :
  parseLink URL_new linkUrl = Normal parsed ->
  isValid parsed = false
  \/ (exists v, validation (sdk w) = Some v
        /\ (domain_rejected v parsed \/ kind_rejected v parsed
            \/ password_missing v parsed)) ->
  step URL_new w (StartListening linkUrl callbacks t1 t2 t3 random36)
  = (w, Rejected (ThrownError (str "Invalid Secret Link URL"))).
Proof.
  intros Hparse Hbad. cbn. unfold startListening, validateLink. rewrite Hparse.
  destruct (isValid parsed) eqn:Hvalid; cbn [negb].
  - destruct Hbad as [Hbad | (v & Hv & Hrule)]; [discriminate|].
    destruct (applyValidationRules_rejects (sdk w) v parsed Hv Hrule) as [msg ->].
    reflexivity.
  - now rewrite Hvalid.
Qed.

(** An exception of the platform URL constructor also leaves the registry as it was. *)
Lemma rejected_means_untouched w linkUrl callbacks t1 t2 t3 random36 e w' :
  startListening URL_new linkUrl callbacks t1 t2 t3 random36 w = (w', Rejected e) ->
  w' = w.
Proof.
  destruct (startListening_cases linkUrl callbacks t1 t2 t3 random36 w)
    as [(e' & -> & _) | (info & p & _ & _ & _ & _ & _ & _ & _ & ev & _ & ->)].
  - now intros [= <- _].
  - discriminate.
Qed.

Lemma parseLink_fails_shape url :
  fails_link_shape url -> parseLink URL_new url = Normal invalidLink.
Proof.
  unfold fails_link_shape, parseLink.
  destruct url as [s | b]; [|reflexivity].
  intros [-> | [H1 H2]]; [reflexivity|].
  rewrite H1, H2. now destruct s.
Qed.

(** For every input that is not a string, is empty, or matches neither link
    pattern, [validateLink] returns normally, and what it returns has
    [isValid = false], an empty token and an empty domain. *)
Theorem malformed_link_is_invalid_not_an_exception (self : t) (url : JsArg) :
  fails_link_shape url ->
  exists info,
    validateLink URL_new self url = Normal info
    /\ isValid info = false /\ token info = [] /\ domain info = [].
Proof.
  intros H. exists invalidLink. unfold validateLink.
  rewrite parseLink_fails_shape by exact H.
  change (isValid invalidLink) with false. cbn [negb]. repeat split.
Qed.

(** Every operation but a successful allocation keeps the counter and the
    heap size and can only drop entries of the table. *)
Lemma step_shrinks w op :
  (forall url cbs t1 t2 t3 rnd, op <> StartListening url cbs t1 t2 t3 rnd) ->
  listenerCounter (sdk (fst (step URL_new w op))) = listenerCounter (sdk w)
  /\ length (heap (fst (step URL_new w op))) = length (heap w)
  /\ (forall id r, activeListeners (sdk (fst (step URL_new w op))) !! id = Some r ->
                   activeListeners (sdk w) !! id = Some r)
  /\ allocations [snd (step URL_new w op)] = [].
Proof.
  intros Hop. destruct op as [url cbs t1 t2 t3 rnd | id | | id now | k outcome now].
  - now edestruct Hop.
  - cbn [step fst snd]. unfold stopListening.
    destruct (activeListeners (sdk w) !! id) as [r'|]; [|auto].
    destruct (call r' (LinkPoller.stop r') w) as [[c w']|] eqn:Hcall; cbn.
    + destruct (call_frame _ _ _ _ _ Hcall) as (Hs & _ & Hl & _).
      rewrite Hs. repeat split; auto.
      intros id' r Hlook. apply lookup_delete_Some in Hlook. tauto.
    + repeat split; auto.
      intros id' r Hlook. apply lookup_delete_Some in Hlook. tauto.
  - cbn [step fst snd]. destruct (stopAll_frame w) as (Hc & Hl & He).
    repeat split; auto. intros id r. rewrite He. now rewrite lookup_empty.
  - cbn [step fst snd]. unfold timerFires.
    destruct (armed (runtime w) !! id) as [r'|]; [|cbn; auto].
    destruct (call r' (LinkPoller.poll_begin r' now) (disarm id w))
      as [[c w']|] eqn:Hcall; [|cbn; auto].
    destruct (call_frame _ _ _ _ _ Hcall) as (Hs & _ & Hl & _).
    destruct c as [[|]|e]; cbn; rewrite Hs; auto.
  - cbn [step fst snd]. unfold fetchSettles.
    destruct (inflight w !! k) as [f|]; [|cbn; auto].
    destruct (call (in_poller f) (LinkPoller.poll_resume (in_poller f) outcome now)
                (set_inflight (delete k (inflight w)) w))
      as [[c w']|] eqn:Hcall; [|cbn; auto].
    destruct (call_frame _ _ _ _ _ Hcall) as (Hs & _ & Hl & _).
    destruct (in_listener f), c; cbn; rewrite Hs; cbn; repeat split; auto.
    intros id' r Hlook. apply lookup_delete_Some in Hlook. tauto.
Qed.

Lemma step_numbered w op :
  well_numbered w ->
  well_numbered (fst (step URL_new w op))
  /\ (listenerCounter (sdk w) <= listenerCounter (sdk (fst (step URL_new w op))))%N
  /\ forall id, In id (allocations [snd (step URL_new w op)]) ->
       listenerCounter (sdk (fst (step URL_new w op))) = (listenerCounter (sdk w) + 1)%N
       /\ exists t, id = listenerId t (listenerCounter (sdk w) + 1).
Proof.
  intros [Hc Ht].
  assert (Hother :
    (forall url cbs t1 t2 t3 rnd, op <> StartListening url cbs t1 t2 t3 rnd) ->
    well_numbered (fst (step URL_new w op))
    /\ (listenerCounter (sdk w) <= listenerCounter (sdk (fst (step URL_new w op))))%N
    /\ forall id, In id (allocations [snd (step URL_new w op)]) ->
         listenerCounter (sdk (fst (step URL_new w op))) = (listenerCounter (sdk w) + 1)%N
         /\ exists t, id = listenerId t (listenerCounter (sdk w) + 1)).
  { intros Hop. destruct (step_shrinks w op Hop) as (Hc' & Hl' & Hsub & Hal).
    split; [split|split].
    - now rewrite Hc', Hl'.
    - intros id r Hlook. rewrite Hl'. apply Ht. now apply Hsub.
    - rewrite Hc'. lia.
    - rewrite Hal. intros id []. }
  destruct op as [url cbs t1 t2 t3 rnd | id | | id now | k outcome now];
    try (apply Hother; discriminate).
  clear Hother. cbn [step].
  destruct (startListening_cases url cbs t1 t2 t3 rnd w)
    as [(e & -> & _) | (info & p & _ & _ & _ & _ & _ & _ & _ & ev & _ & ->)]; cbn [fst snd].
  - split; [split; assumption|]. split; [lia|]. intros id [].
  - split; [split|split].
    + cbn. rewrite length_app. cbn. lia.
    + cbn. intros id r Hlook. rewrite length_app. cbn.
      apply lookup_insert_Some in Hlook. destruct Hlook as [[<- <-] | [_ Hlook]].
      * split; [lia|]. exists t1. now rewrite Hc.
      * destruct (Ht id r Hlook) as [Hlt Hid]. split; [lia | exact Hid].
    + cbn. lia.
    + cbn. intros id [<- | []]. split; [reflexivity|]. now exists t1.
Qed.

Lemma allocations_cons o os : allocations (o :: os) = allocations [o] ++ allocations os.
Proof. unfold allocations. cbn. now destruct o. Qed.

Lemma run_numbered ops w :
  well_numbered w ->
  well_numbered (fst (run URL_new w ops))
  /\ (listenerCounter (sdk w) <= listenerCounter (sdk (fst (run URL_new w ops))))%N
  /\ NoDup (allocations (snd (run URL_new w ops)))
  /\ forall id, In id (allocations (snd (run URL_new w ops))) ->
       exists t c, id = listenerId t c
                   /\ (listenerCounter (sdk w) < c
                       <= listenerCounter (sdk (fst (run URL_new w ops))))%N.
Proof.
  revert w. induction ops as [|op ops IH]; intros w Hw; cbn [run].
  - cbn. split; [exact Hw|]. split; [lia|]. split; [constructor|]. intros id [].
  - destruct (step_numbered w op Hw) as (Hw1 & Hle1 & Hal1).
    destruct (step URL_new w op) as [w1 o]. cbn [fst snd] in *.
    destruct (IH w1 Hw1) as (Hw2 & Hle2 & Hnd & Hal2).
    destruct (run URL_new w1 ops) as [w2 os]. cbn [fst snd] in *.
    split; [exact Hw2|]. split; [lia|].
    rewrite allocations_cons. split.
    + apply NoDup_app. split; [|split; [|exact Hnd]].
      * unfold allocations. destruct o; cbn; try apply NoDup_nil_2.
        apply NoDup_singleton.
      * intros id Hin1 Hin2.
        apply list_elem_of_In in Hin1. apply list_elem_of_In in Hin2.
        destruct (Hal1 id Hin1) as (Hc1 & t & ->).
        destruct (Hal2 _ Hin2) as (t' & c' & Heq & Hrange).
        apply listenerId_inj in Heq. lia.
    + intros id Hin. apply in_app_or in Hin. destruct Hin as [Hin|Hin].
      * destruct (Hal1 id Hin) as (Hc1 & t & ->). exists t, (listenerCounter (sdk w) + 1)%N.
        split; [reflexivity | lia].
      * destruct (Hal2 id Hin) as (t & c & -> & Hrange). exists t, c.
        split; [reflexivity | lia].
Qed.

Lemma run_app ops1 ops2 w :
  run URL_new w (ops1 ++ ops2)
  = (fst (run URL_new (fst (run URL_new w ops1)) ops2),
     snd (run URL_new w ops1) ++ snd (run URL_new (fst (run URL_new w ops1)) ops2)).
Proof.
  revert w. induction ops1 as [|op ops1 IH]; intros w; cbn [run app fst snd].
  - now destruct (run URL_new w ops2).
  - destruct (step URL_new w op) as [w1 o]. rewrite IH.
    destruct (run URL_new w1 ops1) as [w2 os]. cbn [fst snd].
    now destruct (run URL_new w2 ops2).
Qed.

Lemma boot_numbered options w0 :
  boot URL_new options = Normal w0 -> well_numbered w0.
Proof.
  unfold boot, new. destruct (validateSDKOptions URL_new options); [|discriminate].
  intros [= <-]. split; [reflexivity|]. cbn. intros id r. now rewrite lookup_empty.
Qed.

(** C7. In every run of a registry from its construction, the identifiers
    allocated by [startListening] calls are pairwise distinct; an identifier
    is mapped to one and the same poller whenever it is in the table; and an
    identifier that was in the table and has been removed from it is not
    allocated again. *)
Theorem listener_identifiers_are_never_reused
  (options : SDKOptions) (w0 : World) (ops1 ops2 ops3 : list Op) :
  boot URL_new options = Normal w0 ->
  let run1 := run URL_new w0 ops1 in
  let run2 := run URL_new (fst run1) ops2 in
  let run3 := run URL_new (fst run2) ops3 in
  NoDup (allocations (snd run1 ++ snd run2 ++ snd run3))
  /\ (forall id r r',
        activeListeners (sdk (fst run1)) !! id = Some r ->
        activeListeners (sdk (fst run3)) !! id = Some r' -> r = r')
  /\ (forall id,
        id ∈ dom (activeListeners (sdk (fst run1))) ->
        id ∉ dom (activeListeners (sdk (fst run2))) ->
        ~ In id (allocations (snd run3))).
Proof.
  intros Hboot run1 run2 run3.
  pose proof (boot_numbered options w0 Hboot) as H0.
  destruct (run_numbered ops1 w0 H0) as (H1 & Hle1 & _ & _). fold run1 in H1, Hle1.
  destruct (run_numbered ops2 (fst run1) H1) as (H2 & Hle2 & _ & _). fold run2 in H2, Hle2.
  destruct (run_numbered ops3 (fst run2) H2) as (H3 & Hle3 & _ & Hal3). fold run3 in H3, Hle3, Hal3.
  split; [|split].
  - destruct (run_numbered (ops1 ++ ops2 ++ ops3) w0 H0) as (_ & _ & Hnd & _).
    rewrite !run_app in Hnd. exact Hnd.
  - intros id r r' Hr Hr'.
    destruct H1 as [_ H1]. destruct H3 as [_ H3].
    destruct (H1 id r Hr) as (_ & t & Hid). destruct (H3 id r' Hr') as (_ & t' & Hid').
    rewrite Hid in Hid'. apply listenerId_inj in Hid'. lia.
  - intros id Hin _ Halloc.
    apply elem_of_dom in Hin. destruct Hin as [r Hr].
    destruct H1 as [Hc1 H1]. destruct (H1 id r Hr) as (Hlt & t & Hid).
    destruct (Hal3 id Halloc) as (t' & c' & Hid' & Hrange).
    rewrite Hid in Hid'. apply listenerId_inj in Hid'. lia.
Qed.

End Platform.

(** A cycle that ends, in whatever way, removes nothing from the table
    unless it makes a pending [startListening] reject: a poller that stops
    itself on a terminal status stays registered until [stopListening] or
    [stopAll]. *)
Lemma settled_fetch_keeps_registry k outcome now w :
  (forall e, snd (fetchSettles k outcome now w) <> Rejected e) ->
  sdk (fst (fetchSettles k outcome now w)) = sdk w.
Proof.
  unfold fetchSettles. destruct (inflight w !! k) as [f|]; [|reflexivity].
  destruct (call (in_poller f) (LinkPoller.poll_resume (in_poller f) outcome now)
              (set_inflight (delete k (inflight w)) w))
    as [[c w']|] eqn:Hcall; [|reflexivity].
  destruct (call_frame _ _ _ _ _ Hcall) as (Hs & _).
  destruct (in_listener f), c; cbn [fst snd]; intros H; try exact Hs.
  now destruct (H e).
Qed.

(** *** The statements at the sample objects *)

Lemma terminal_status_stops_poller_for_good_witness :
  LinkPoller.handlers_return
    (sample_poller (on_status accepting)) deleted_response
  /\ dormant 0
       (fst (run URL_plain
               (fst (fetchSettles 0 (ok deleted_response) 7
                       (polling_world (on_status accepting))))
               [TimerFires 1%N 9; StopAll])).
Proof.
  assert (H : LinkPoller.handlers_return
                (sample_poller (on_status accepting))
                deleted_response) by (split; reflexivity).
  split; [exact H|].
  exact (proj1 (proj2 (proj2
           (terminal_status_stops_poller_for_good URL_plain
              (polling_world (on_status accepting))
              0 {| in_poller := 0; in_listener := None |}
              (sample_poller (on_status accepting))
              200%N (str "OK") deleted_response 7 [TimerFires 1%N 9; StopAll]
              eq_refl eq_refl eq_refl eq_refl H)))).
Defined.

(** C1, as stated, fails: when the [onStatusChange] handler throws on the
    terminal status, the poller is still running after the cycle, a timer is
    armed for it, and when that timer fires it polls the endpoint again. *)
Lemma terminal_status_with_throwing_handler_keeps_polling :
  LinkPoller.is_terminal (linkStatus deleted_response) = true
  /\ status_changes 0
       (trace (runtime
          (fst (fetchSettles 0 (ok deleted_response) 7
                  (polling_world (on_status refusing))))))
     = [deleted]
  /\ (LinkPoller.isRunning
       <$> heap (fst (fetchSettles 0 (ok deleted_response) 7
                        (polling_world (on_status refusing))))
           !! 0)
     = Some true
  /\ armed (runtime
              (fst (fetchSettles 0 (ok deleted_response) 7
                      (polling_world (on_status refusing)))))
       !! 1%N
     = Some 0
  /\ existsb (starts_cycle 0)
       (trace (runtime
          (fst (run URL_plain
                  (polling_world (on_status refusing))
                  [FetchSettles 0 (ok deleted_response) 7;
                   TimerFires 1%N 10007]))))
     = true.
Proof. repeat split. Qed.

Lemma stopping_what_is_not_running_is_a_noop_witness :
  LinkPoller.isRunning (fresh_poller no_callbacks) = false
  /\ activeListeners (sdk sample_world) !! str "non-existent-id" = None
  /\ LinkPoller.stop 0 (fresh_poller no_callbacks, idle_runtime)
     = (Normal tt, (fresh_poller no_callbacks, idle_runtime))
  /\ step URL_plain sample_world (StopListening (str "non-existent-id"))
     = (sample_world, Returned).
Proof.
  split; [reflexivity|]. split; [reflexivity|].
  exact (stopping_what_is_not_running_is_a_noop URL_plain 0
           (fresh_poller no_callbacks) idle_runtime (str "non-existent-id")
           sample_world eq_refl eq_refl).
Defined.

Lemma sample_url_parses : parseLink URL_plain (JsString sample_url) = Normal sample_link.
Proof. vm_compute. reflexivity. Qed.

Lemma invalid_link_rejected_without_effect_witness :
  password_missing
    {| allowedDomains := None; allowedLinkTypes := None;
       requirePassword := Some true |} sample_link
  /\ step URL_plain strict_world
       (StartListening (JsString sample_url) no_callbacks 1 2 3 (str "k3j"))
     = (strict_world, Rejected (ThrownError (str "Invalid Secret Link URL"))).
Proof.
  assert (H : password_missing
                {| allowedDomains := None; allowedLinkTypes := None;
                   requirePassword := Some true |} sample_link)
    by (split; reflexivity).
  split; [exact H|].
  apply (invalid_link_rejected_without_effect URL_plain strict_world
           (JsString sample_url) no_callbacks 1 2 3 (str "k3j") sample_link).
  - vm_compute. reflexivity.
  - right. eexists. split; [reflexivity|]. right. right. exact H.
Defined.

Lemma malformed_link_is_invalid_not_an_exception_witness :
  fails_link_shape (JsString (str "https://secret.annai.ai/link/abc"))
  /\ exists info,
       validateLink URL_plain (sample_sdk None)
         (JsString (str "https://secret.annai.ai/link/abc")) = Normal info
       /\ isValid info = false /\ token info = [] /\ domain info = [].
Proof.
  assert (H : fails_link_shape (JsString (str "https://secret.annai.ai/link/abc")))
    by (right; split; vm_compute; reflexivity).
  split; [exact H|].
  exact (malformed_link_is_invalid_not_an_exception URL_plain (sample_sdk None)
           (JsString (str "https://secret.annai.ai/link/abc")) H).
Defined.

(** C6. A URL with a space in its host matches the pattern for custom
    domains, with a token of eighteen units, and the [URL] constructor
    refuses it.  [parseLink] calls the constructor outside any [try], so
    [startListening] is rejected with the constructor's [Invalid URL] and
    not with [Invalid Secret Link URL]; the world is what it was. *)
Theorem refused_host_is_rejected_with_the_URL_error :
  exec secretLinks spaced_host_url = None
  /\ ((fun m => (group m 1, group m 2)) <$> exec customDomain spaced_host_url)
     = Some (str "exa mple.com", str "abc123def456ghi789")
  /\ step URL_rejects sample_world
       (StartListening (JsString spaced_host_url) no_callbacks 1 2 3 (str "k3j"))
     = (sample_world, Rejected (ThrownError (str "Invalid URL"))).
Proof. repeat split; vm_compute; reflexivity. Qed.

(** C9. On the same URL, whose host is not a domain, [validateLink] does not
    return a link with [isValid = false]: the exception of the [URL]
    constructor leaves [parseLink] and [validateLink]. *)
Theorem refused_host_makes_validateLink_throw :
  parseLink URL_rejects (JsString spaced_host_url)
  = Throw (ThrownError (str "Invalid URL"))
  /\ validateLink URL_rejects (sample_sdk None) (JsString spaced_host_url)
     = Throw (ThrownError (str "Invalid URL")).
Proof. split; vm_compute; reflexivity. Qed.

Lemma listener_identifiers_are_never_reused_witness :
  boot URL_plain sample_options = Normal sample_world
  /\ NoDup
       (allocations
          (snd (run URL_plain sample_world
                  [StartListening (JsString sample_url) no_callbacks 5 5 5 (str "a")])
           ++ snd (run URL_plain
                     (fst (run URL_plain sample_world
                             [StartListening (JsString sample_url) no_callbacks
                                5 5 5 (str "a")]))
                     [StopAll])
           ++ snd (run URL_plain
                     (fst (run URL_plain
                             (fst (run URL_plain sample_world
                                     [StartListening (JsString sample_url)
                                        no_callbacks 5 5 5 (str "a")]))
                             [StopAll]))
                     [StartListening (JsString sample_url) no_callbacks 5 5 5
                        (str "a")]))).
Proof.
  assert (H : boot URL_plain sample_options = Normal sample_world) by reflexivity.
  split; [exact H|].
  exact (proj1
           (listener_identifiers_are_never_reused URL_plain sample_options
              sample_world
              [StartListening (JsString sample_url) no_callbacks 5 5 5 (str "a")]
              [StopAll]
              [StartListening (JsString sample_url) no_callbacks 5 5 5 (str "a")]
              H)).
Defined.

(** The two identifiers of that run: same clock reading, different counter. *)
Example identifiers_of_two_calls :
  allocations
    (snd (run URL_plain sample_world
            [StartListening (JsString sample_url) no_callbacks 5 5 5 (str "a");
             StopAll;
             StartListening (JsString sample_url) no_callbacks 5 5 5 (str "a")]))
  = [str "listener-5-1"; str "listener-5-2"].
Proof. vm_compute. reflexivity. Qed.

(** C3. A registry built with [pingInterval: 5000] accepts the override and
    stores it, and hands it to the constructor of the poller it creates for
    a ping link; yet the interval controller of that poller has 10000 as its
    base interval, and after a cycle with new content, which resets the
    interval to the base, the next cycle is booked 10000 ms ahead. *)
Theorem ping_interval_override_is_ignored :
  boot URL_plain sample_options = Normal sample_world
  /\ intervals_ping (sdk sample_world) = millis 5000
  /\ opt_interval (pollerOptions (sdk sample_world) sample_link no_callbacks)
     = millis 5000
  /\ (AdaptivePoller.baseInterval
       <$> (LinkPoller.adaptive
            <$> heap (fst (run URL_plain sample_world
                             [StartListening (JsString sample_url) no_callbacks
                                5 5 5 (str "a");
                              FetchSettles 0 (ok payload_response) 6]))
                !! 0))
     = Some (millis 10000)
  /\ last (trace (runtime
              (fst (run URL_plain sample_world
                      [StartListening (JsString sample_url) no_callbacks
                         5 5 5 (str "a");
                       FetchSettles 0 (ok payload_response) 6]))))
     = Some (EvSetTimeout 0 1%N (millis 10000)).
Proof. repeat split. Qed.

(** *** The tests of the repository, replayed on the model *)

Example test_parseLink_rejects_invalid_urls :
  forallb rejected_by_parseLink
    [""; "not-a-url"; "https://example.com/link/abc123";
     "https://secret.annai.ai/not-link/abc123";
     "https://secret.annai.ai/link/"; "https://secret.annai.ai/link/abc"]%string
  = true.
Proof. vm_compute. reflexivity. Qed.

Example test_parseLink_custom_domain :
  parseLink URL_plain
    (JsString (str "https://my-custom-domain.com/link/abc123def456ghi789"))
  = Normal {| isValid := true; token := str "abc123def456ghi789"; type := ping;
              hasPassword := false; hasEncryption := false;
              domain := str "my-custom-domain.com"; password := None;
              encryptionKey := None |}.
Proof. vm_compute. reflexivity. Qed.

Example test_parseLink_password :
  parseLink URL_with_password
    (JsString (str "https://secret.annai.ai/link/abc123def456ghi789?password=secret"))
  = Normal {| isValid := true; token := str "abc123def456ghi789"; type := ping;
              hasPassword := true; hasEncryption := false;
              domain := str "secret.annai.ai"; password := Some (str "secret");
              encryptionKey := None |}.
Proof. vm_compute. reflexivity. Qed.

Example test_custom_validation_rules :
  validated URL_plain picky_sdk
    "https://secret.annai.ai/link/abc123def456ghi789" = Some false
  /\ validated URL_plain picky_sdk
       "https://allowed-domain.com/link/abc123def456ghi789" = Some false
  /\ validated URL_with_password picky_sdk
       "https://allowed-domain.com/link/abc123def456ghi789?password=secret"
     = Some true.
Proof. repeat split; vm_compute; reflexivity. Qed.

Example test_startListening_rejects_invalid_url :
  step URL_plain sample_world
    (StartListening (JsString (str "invalid-url")) no_callbacks 1 2 3 (str "k3j"))
  = (sample_world, Rejected (ThrownError (str "Invalid Secret Link URL"))).
Proof. reflexivity. Qed.

(** The first request goes out during [startListening], with the token of
    the link. *)
Example test_startListening_issues_one_request :
  trace (runtime
           (fst (step URL_plain sample_world
                   (StartListening (JsString sample_url) no_callbacks 1 2 3
                      (str "k3j")))))
  = [EvFetch 0 (str "https://x/poll") None
       {| req_token := str "abc123def456ghi789"; req_type := ping;
          req_password := None; req_clientId := Some (str "sdk-2-k3j");
          req_timestamp := Some 3%Z; req_lastSeen := None |}].
Proof. vm_compute. reflexivity. Qed.

Example test_no_listeners_at_construction :
  getActiveListenerCount sample_world = 0 /\ isListening sample_world = false.
Proof. split; reflexivity. Qed.

(** A payload for an active link: one [onPayload] call, and the next cycle
    booked at the base interval of the controller. *)
Example test_payload_then_next_cycle :
  trace (runtime
           (fst (fetchSettles 0 (ok payload_response) 7
                   (polling_world
                      {| onPayload := Some accepting;
                         callbacks_onError := None;
                         onStatusChange := None |}))))
  = [EvOnPayload 0
       {| payload_type := ping; payload_timestamp := 1;
          payload_data := str "{}"; payload_metadata := None |} sample_link;
     EvSetTimeout 0 1%N (millis 10000)].
Proof. reflexivity. Qed.

End SDKFacts.

(** ** The interval controller over many cycles *)

Module AdaptivePollerMore.
Import AdaptivePollerRuns.
Import AdaptivePoller AdaptivePollerFacts.

Lemma millis_le a b : (a <= b)%Z -> (millis a <= millis b)%Qc.
Proof.
  intros H. unfold millis, Qcle. cbn. rewrite !Qred_correct.
  now rewrite <- Zle_Qle.
Qed.

Lemma millis_lt a b : (a < b)%Z -> (millis a < millis b)%Qc.
Proof.
  intros H. unfold millis, Qclt. cbn. rewrite !Qred_correct.
  now rewrite <- Zlt_Qlt.
Qed.

Lemma Math_min_glb a b c : (c <= a)%Qc -> (c <= b)%Qc -> (c <= Math_min a b)%Qc.
Proof. intros Ha Hb. destruct (Math_min_spec a b) as (_ & _ & [-> | ->]); assumption. Qed.

Lemma Math_max_lub a b c : (a <= c)%Qc -> (b <= c)%Qc -> (Math_max a b <= c)%Qc.
Proof. intros Ha Hb. destruct (Math_max_spec a b) as (_ & _ & [-> | ->]); assumption. Qed.

Lemma Math_min_l a b : (a <= b)%Qc -> Math_min a b = a.
Proof.
  intros H. unfold Math_min. destruct (a ?= b)%Qc eqn:E; try reflexivity.
  apply Qcgt_alt in E. exfalso. eapply Qclt_not_le; eassumption.
Qed.

Lemma Math_min_r a b : (b <= a)%Qc -> Math_min a b = b.
Proof.
  intros H. unfold Math_min. destruct (a ?= b)%Qc eqn:E; try reflexivity.
  - now apply Qceq_alt in E.
  - apply Qclt_alt in E. exfalso. eapply Qclt_not_le; eassumption.
Qed.

(** Multiplying a non-negative interval by 1.5 does not shorten it. *)
Lemma grows x : (millis 0 <= x)%Qc -> (x <= x * Q2Qc (3 # 2))%Qc.
Proof.
  intros H. rewrite <- (Qcmult_1_r x) at 1.
  rewrite (Qcmult_comm x 1), (Qcmult_comm x (Q2Qc (3#2))).
  apply Qcmult_le_compat_r; [|exact H]. now vm_compute.
Qed.


Lemma unhinted_reachable a : unhinted a -> reachable a.
Proof. induction 1; now constructor. Qed.

Lemma base_bounds a :
  reachable a -> (millis 10000 <= baseInterval a)%Qc /\ (baseInterval a <= millis 60000)%Qc.
Proof.
  intros H. destruct (reachable_constants a H) as (_ & _ & [-> | ->]);
    split; now apply millis_le.
Qed.

Lemma floor_of_reachable (a : t) :
  reachable a -> (millis 1000 <= currentInterval a)%Qc.
Proof.
  induction 1 as [tk ty dbg | a h n Hr IH | a Hr IH].
  - cbn. destruct ty; now apply millis_le.
  - destruct (reachable_constants a Hr) as (Hmul & Hmax & _).
    destruct (base_bounds a Hr) as [Hb _].
    assert (Hbase : (millis 1000 <= baseInterval a)%Qc).
    { eapply Qcle_trans; [|exact Hb]. now apply millis_le. }
    unfold adjustInterval. destruct (suggested n) as [s|].
    { cbn. apply Math_max_spec. }
    destruct h; [exact Hbase|].
    cbn [consecutiveEmpty set_consecutiveEmpty].
    destruct (N.leb 3 (consecutiveEmpty a + 1)); [|exact IH].
    cbn [currentInterval set_currentInterval set_consecutiveEmpty
         backoffMultiplier maxInterval].
    rewrite Hmul, Hmax. apply Math_min_glb.
    + eapply Qcle_trans; [exact IH|]. apply grows.
      eapply Qcle_trans; [|exact IH]. now apply millis_le.
    + now apply millis_le.
  - destruct (base_bounds a Hr) as [Hb _]. cbn.
    eapply Qcle_trans; [|exact Hb]. now apply millis_le.
Qed.

(** X1. The interval a controller reports never drops below 1000 ms,
    whatever the server suggests and however the cycles went. *)
Theorem interval_never_below_floor (a : t) :
  reachable a -> (millis 1000 <= getInterval a)%Qc.
Proof. exact (floor_of_reachable a). Qed.

Lemma interval_never_below_floor_witness :
  reachable (adjustInterval (new (str "abc123def456ghi789") ping false) false
               (Some (millis 1)))
  /\ (millis 1000
      <= getInterval
           (adjustInterval (new (str "abc123def456ghi789") ping false) false
              (Some (millis 1))))%Qc.
Proof.
  assert (H : reachable (adjustInterval (new (str "abc123def456ghi789") ping false)
                           false (Some (millis 1))))
    by (apply reach_adjust, reach_new).
  split; [exact H|]. exact (interval_never_below_floor _ H).
Defined.

(** X2. A controller that is never given a server suggestion keeps its
    interval between its base interval and 300000 ms, and a cycle without
    content never shortens it. *)
Theorem unhinted_interval_bounds (a : t) :
  unhinted a ->
  (baseInterval a <= currentInterval a)%Qc
  /\ (currentInterval a <= millis 300000)%Qc
  /\ (currentInterval a <= currentInterval (adjustInterval a false None))%Qc.
Proof.
  intros Hu.
  assert (Hb : (baseInterval a <= currentInterval a)%Qc
               /\ (currentInterval a <= millis 300000)%Qc).
  { induction Hu as [tk ty dbg | a h Hu IH | a Hu IH].
    - cbn. split; [apply Qcle_refl|]. destruct ty; now apply millis_le.
    - pose proof (unhinted_reachable a Hu) as Hr.
      destruct (reachable_constants a Hr) as (Hmul & Hmax & _).
      destruct (base_bounds a Hr) as [Hb1 Hb2]. destruct IH as [IH1 IH2].
      unfold adjustInterval. cbn [suggested].
      destruct h.
      { cbn. split; [apply Qcle_refl|].
        eapply Qcle_trans; [exact Hb2|]. now apply millis_le. }
      cbn [consecutiveEmpty set_consecutiveEmpty].
      destruct (N.leb 3 (consecutiveEmpty a + 1)); [|now split].
      cbn [currentInterval baseInterval set_currentInterval set_consecutiveEmpty
           backoffMultiplier maxInterval].
      rewrite Hmul, Hmax. split.
      + apply Math_min_glb.
        * eapply Qcle_trans; [exact IH1|]. apply grows.
          eapply Qcle_trans; [|exact IH1]. eapply Qcle_trans; [|exact Hb1].
          now apply millis_le.
        * eapply Qcle_trans; [exact Hb2|]. now apply millis_le.
      + apply Math_min_spec.
    - pose proof (unhinted_reachable a Hu) as Hr.
      destruct (base_bounds a Hr) as [_ Hb2]. cbn. split; [apply Qcle_refl|].
      eapply Qcle_trans; [exact Hb2|]. now apply millis_le. }
  destruct Hb as [Hb1 Hb2]. split; [exact Hb1|]. split; [exact Hb2|].
  pose proof (unhinted_reachable a Hu) as Hr.
  destruct (reachable_constants a Hr) as (Hmul & Hmax & _).
  destruct (base_bounds a Hr) as [Hbase _].
  unfold adjustInterval. cbn [suggested consecutiveEmpty set_consecutiveEmpty].
  destruct (N.leb 3 (consecutiveEmpty a + 1)); [|apply Qcle_refl].
  cbn [currentInterval set_currentInterval set_consecutiveEmpty
       backoffMultiplier maxInterval].
  rewrite Hmul, Hmax. apply Math_min_glb; [|exact Hb2].
  apply grows. eapply Qcle_trans; [|exact Hb1]. eapply Qcle_trans; [|exact Hbase].
  now apply millis_le.
Qed.

Lemma unhinted_interval_bounds_witness :
  unhinted (new (str "abc123def456ghi789") webhook false)
  /\ (currentInterval (new (str "abc123def456ghi789") webhook false)
      <= millis 300000)%Qc.
Proof.
  assert (H : unhinted (new (str "abc123def456ghi789") webhook false))
    by apply unhinted_new.
  split; [exact H|]. exact (proj1 (proj2 (unhinted_interval_bounds _ H))).
Defined.

Lemma min_backoff_step x :
  (millis 0 <= x)%Qc ->
  Math_min (Math_min x (millis 300000) * Q2Qc (3 # 2))%Qc (millis 300000)
  = Math_min (x * Q2Qc (3 # 2))%Qc (millis 300000).
Proof.
  intros Hx. destruct (Qclt_le_dec (millis 300000) x) as [Hgt | Hle].
  - rewrite (Math_min_r x) by now apply Qclt_le_weak.
    rewrite !Math_min_r; try reflexivity.
    + eapply Qcle_trans; [apply Qclt_le_weak; exact Hgt | now apply grows].
    + apply grows. now apply millis_le.
  - now rewrite (Math_min_l x).
Qed.

Lemma empty_cycles_S n a :
  empty_cycles (S n) a = adjustInterval (empty_cycles n a) false None.
Proof. reflexivity. Qed.

Lemma empty_cycles_reachable n a : reachable a -> reachable (empty_cycles n a).
Proof.
  intros H. induction n; [exact H|]. rewrite empty_cycles_S. now constructor.
Qed.

Lemma power_nonneg n : (millis 0 <= Q2Qc (3 # 2) ^ n)%Qc.
Proof.
  induction n; [now vm_compute|]. cbn [Qcpower].
  replace (millis 0) with (Q2Qc (3 # 2) * millis 0)%Qc by (apply Qc_is_canon; reflexivity).
  rewrite !(Qcmult_comm (Q2Qc (3 # 2))).
  apply Qcmult_le_compat_r; [exact IHn | now vm_compute].
Qed.

Lemma empty_cycles_closed_form (a : t) (n : nat) :
  reachable a ->
  consecutiveEmpty a = 0%N ->
  currentInterval a = baseInterval a ->
  consecutiveEmpty (empty_cycles n a) = N.of_nat n
  /\ currentInterval (empty_cycles n a)
     = if Nat.ltb n 3 then baseInterval a
       else Math_min (baseInterval a * Q2Qc (3 # 2) ^ (n - 2))%Qc (millis 300000).
Proof.
  intros Hr Hzero Hcur.
  destruct (base_bounds a Hr) as [Hbase _].
  assert (Hpos : (millis 0 <= baseInterval a)%Qc).
  { eapply Qcle_trans; [|exact Hbase]. now apply millis_le. }
  induction n as [|n [IHc IHi]].
  - cbn. now rewrite Hzero, Hcur.
  - rewrite empty_cycles_S.
    pose proof (empty_cycles_reachable n a Hr) as Hrn.
    destruct (reachable_constants _ Hrn) as (Hmul & Hmax & _).
    destruct (Nat.ltb (S n) 3) eqn:Hlt.
    + apply Nat.ltb_lt in Hlt.
      rewrite adjust_empty_below_threshold by (rewrite IHc; lia).
      cbn. rewrite IHc. split; [lia|].
      rewrite IHi. destruct (Nat.ltb_spec n 3); [reflexivity | lia].
    + apply Nat.ltb_ge in Hlt.
      rewrite adjust_empty_at_threshold by (rewrite IHc; lia).
      cbn [consecutiveEmpty currentInterval set_currentInterval set_consecutiveEmpty
           backoffMultiplier maxInterval].
      rewrite IHc, Hmul, Hmax. split; [lia|].
      rewrite IHi. destruct (Nat.ltb_spec n 3) as [Hn | Hn].
      * assert (n = 2) as -> by lia. cbn [Nat.sub Qcpower].
        now rewrite Qcmult_1_r.
      * replace (S n - 2) with (S (n - 2)) by lia. cbn [Qcpower].
        rewrite min_backoff_step.
        -- f_equal. rewrite <- Qcmult_assoc. f_equal. apply Qcmult_comm.
        -- replace (millis 0) with (millis 0 * Q2Qc (3 # 2) ^ (n - 2))%Qc
             by (apply Qc_is_canon; rewrite Qcmult_0_l; reflexivity).
           apply Qcmult_le_compat_r; [exact Hpos | apply power_nonneg].
Qed.

(** X3. Starting with an empty-cycle count of 0 and the interval at the
    base, after [n] consecutive cycles without content and without a server
    suggestion the controller reports [n] empty cycles, and an interval that
    is still the base when [n < 3] and [min(base * 1.5^(n-2), 300000)] from
    the third cycle on. *)
Theorem backoff_closed_form (a : t) (n : nat) :
  reachable a ->
  getConsecutiveEmpty a = 0%N ->
  getInterval a = baseInterval a ->
  getConsecutiveEmpty (empty_cycles n a) = N.of_nat n
  /\ getInterval (empty_cycles n a)
     = if Nat.ltb n 3 then baseInterval a
       else Math_min (baseInterval a * Q2Qc (3 # 2) ^ (n - 2))%Qc (millis 300000).
Proof. exact (empty_cycles_closed_form a n). Qed.

Lemma backoff_closed_form_witness :
  reachable (new (str "abc123def456ghi789") ping false)
  /\ getInterval (empty_cycles 5 (new (str "abc123def456ghi789") ping false))
     = Math_min (millis 10000 * Q2Qc (3 # 2) ^ 3)%Qc (millis 300000).
Proof.
  split; [apply reach_new|].
  exact (proj2 (backoff_closed_form (new (str "abc123def456ghi789") ping false) 5
                  (reach_new _ _ _) eq_refl eq_refl)).
Defined.


Lemma power_from_nine k : (Q2Qc (3 # 2) ^ 9 <= Q2Qc (3 # 2) ^ (9 + k))%Qc.
Proof.
  induction k as [|k IH].
  - rewrite Nat.add_0_r. apply Qcle_refl.
  - replace (9 + S k) with (S (9 + k)) by lia.
    eapply Qcle_trans; [exact IH|].
    change (Q2Qc (3 # 2) ^ S (9 + k))%Qc
      with (Q2Qc (3 # 2) * Q2Qc (3 # 2) ^ (9 + k))%Qc.
    rewrite Qcmult_comm. apply grows. apply power_nonneg.
Qed.

(** X4. From the same start, after eleven or more consecutive cycles without
    content and without a server suggestion the interval is exactly 300000
    ms, for ping and webhook links alike. *)
Theorem backoff_saturates (a : t) (n : nat) :
  reachable a ->
  getConsecutiveEmpty a = 0%N ->
  getInterval a = baseInterval a ->
  11 <= n ->
  getInterval (empty_cycles n a) = millis 300000.
Proof.
  intros Hr Hzero Hcur Hn. unfold getInterval.
  destruct (empty_cycles_closed_form a n Hr Hzero Hcur) as [_ ->].
  destruct (Nat.ltb_spec n 3); [lia|].
  apply Math_min_r.
  destruct (base_bounds a Hr) as [Hbase _].
  replace (n - 2) with (9 + (n - 11)) by lia.
  apply Qcle_trans with (millis 10000 * Q2Qc (3 # 2) ^ 9)%Qc; [now vm_compute|].
  apply Qcle_trans with (baseInterval a * Q2Qc (3 # 2) ^ 9)%Qc.
  - apply Qcmult_le_compat_r; [exact Hbase | apply power_nonneg].
  - rewrite !(Qcmult_comm (baseInterval a)).
    apply Qcmult_le_compat_r; [apply power_from_nine|].
    eapply Qcle_trans; [|exact Hbase]. now apply millis_le.
Qed.

Lemma backoff_saturates_witness :
  reachable (new (str "abc123def456ghi789") ping false)
  /\ 11 <= 12
  /\ getInterval (empty_cycles 12 (new (str "abc123def456ghi789") ping false))
     = millis 300000.
Proof.
  split; [apply reach_new|]. split; [lia|].
  apply (backoff_saturates (new (str "abc123def456ghi789") ping false) 12
           (reach_new _ _ _) eq_refl eq_refl). lia.
Defined.

End AdaptivePollerMore.

(** ** The link patterns and [parseLink] *)

Module RegexFacts.

Lemma lits_sound l : forall s k c res,
  l <> [] ->
  rmatch (lits l) s k c = Some res ->
  exists rest, s = l ++ rest /\ k rest c = Some res.
Proof.
  induction l as [|x l IH]; intros s k c res Hne H; [congruence|].
  destruct l as [|y l].
  - cbn in H. destruct s as [|z s]; [discriminate|].
    destruct (N.eqb_spec x z); [|discriminate]. subst. now exists s.
  - change (lits (x :: y :: l)) with (Cat (Lit x) (lits (y :: l))) in H.
    cbn [rmatch] in H. destruct s as [|z s]; [discriminate|].
    destruct (N.eqb_spec x z); [|discriminate]. subst.
    apply IH in H; [|discriminate]. destruct H as (rest & -> & Hk). now exists rest.
Qed.

Lemma lits_complete l : forall rest k c,
  l <> [] -> rmatch (lits l) (l ++ rest) k c = k rest c.
Proof.
  induction l as [|x l IH]; intros rest k c Hne; [congruence|].
  destruct l as [|y l].
  - cbn. now rewrite N.eqb_refl.
  - change (lits (x :: y :: l)) with (Cat (Lit x) (lits (y :: l))).
    cbn [rmatch app]. rewrite N.eqb_refl. now apply IH.
Qed.

Lemma repeat_class_sound (p : N -> bool) k res : forall hi lo s c,
  rmatch (Repeat lo hi (Class p)) s k c = Some res ->
  exists tok rest,
    s = tok ++ rest /\ lo <= length tok <= hi /\ Forall (fun u => p u = true) tok
    /\ k rest c = Some res.
Proof.
  assert (Hnone : forall hi s c, k s c = Some res ->
            exists tok rest, s = tok ++ rest /\ 0 <= length tok <= hi
                             /\ Forall (fun u => p u = true) tok /\ k rest c = Some res).
  { intros hi s c Hk. exists [], s. split; [reflexivity|].
    split; [cbn; lia|]. split; [constructor | exact Hk]. }
  induction hi as [|hi IH]; intros lo s c H; cbn [rmatch] in *.
  - destruct (Nat.eqb_spec lo 0); [|discriminate]. subst. now apply Hnone.
  - destruct s as [|y s].
    + destruct (Nat.eqb_spec lo 0); [|discriminate]. subst. now apply Hnone.
    + destruct (p y) eqn:Hp.
      * match type of H with
        | match ?X with _ => _ end = _ => destruct X as [r|] eqn:Hrec
        end.
        -- inversion H; subst r. apply IH in Hrec.
           destruct Hrec as (tok & rest & -> & Hlen & Hall & Hk).
           exists (y :: tok), rest. split; [reflexivity|].
           split; [cbn; lia|]. split; [|exact Hk].
           constructor; [exact Hp | exact Hall].
        -- destruct (Nat.eqb_spec lo 0); [|discriminate]. subst. now apply Hnone.
      * destruct (Nat.eqb_spec lo 0); [|discriminate]. subst. now apply Hnone.
Qed.

(** Greedy repetition takes a whole run that is followed by the end of the
    input or by a unit outside the class, when the run has a legal length. *)
Lemma repeat_class_complete (p : N -> bool) k : forall hi lo tok rest c,
  Forall (fun u => p u = true) tok -> lo <= length tok <= hi ->
  (forall y rest', rest = y :: rest' -> p y = false) ->
  is_Some (k rest c) ->
  rmatch (Repeat lo hi (Class p)) (tok ++ rest) k c = k rest c.
Proof.
  induction hi as [|hi IH]; intros lo tok rest c Hall Hlen Hstop Hk; cbn [rmatch].
  - destruct tok; [|cbn in Hlen; lia]. cbn in *.
    destruct (Nat.eqb_spec lo 0); [reflexivity | lia].
  - destruct tok as [|y tok].
    + cbn [app]. cbn in Hlen. assert (lo = 0) as -> by lia. cbn [Nat.eqb].
      destruct rest as [|z rest]; [reflexivity|].
      rewrite (Hstop z rest eq_refl). reflexivity.
    + cbn [app]. inversion Hall as [|? ? Hy Hall']; subst.
      rewrite Hy. cbn in Hlen.
      specialize (IH (Nat.pred lo) tok rest c Hall' ltac:(lia) Hstop Hk).
      cbn [rmatch] in IH. rewrite IH.
      destruct Hk as [r Hk]. now rewrite Hk.
Qed.


Lemma star_class_sound (p : N -> bool) k res s c :
  rmatch (Star (Class p)) s k c = Some res ->
  exists pre rest,
    s = pre ++ rest /\ Forall (fun u => p u = true) pre /\ k rest c = Some res.
Proof.
  cbn [rmatch]. generalize (length s) at 1. intros fuel. revert s c.
  induction fuel as [|fuel IH]; intros s c H.
  - exists [], s. repeat split; [constructor | exact H].
  - destruct s as [|y s].
    + exists [], []. repeat split; [constructor | exact H].
    + destruct (p y) eqn:Hp.
      * cbn [length] in H.
        replace (Nat.ltb (length s) (S (length s))) with true in H
          by (symmetry; apply Nat.ltb_lt; lia).
        match type of H with
        | match ?X with _ => _ end = _ => destruct X as [r|] eqn:Hrec
        end.
        -- inversion H; subst r. apply IH in Hrec.
           destruct Hrec as (pre & rest & -> & Hall & Hk).
           exists (y :: pre), rest. repeat split; [|exact Hk].
           constructor; assumption.
        -- exists [], (y :: s). repeat split; [constructor | exact H].
      * exists [], (y :: s). repeat split; [constructor | exact H].
Qed.

Lemma star_class_complete (p : N -> bool) k pre rest c :
  Forall (fun u => p u = true) pre ->
  (forall y rest', rest = y :: rest' -> p y = false) ->
  is_Some (k rest c) ->
  rmatch (Star (Class p)) (pre ++ rest) k c = k rest c.
Proof.
  intros Hall Hstop Hk. cbn [rmatch].
  assert (Hfuel : length pre <= length (pre ++ rest)) by (rewrite length_app; lia).
  revert Hfuel. generalize (length (pre ++ rest)) at 1 2. intros fuel. revert fuel.
  induction Hall as [|y pre Hy Hall IH]; intros fuel Hfuel.
  - cbn [app]. destruct fuel as [|fuel]; [reflexivity|].
    destruct rest as [|z rest]; [reflexivity|].
    now rewrite (Hstop z rest eq_refl).
  - destruct fuel as [|fuel]; [cbn in Hfuel; lia|].
    cbn [app length]. rewrite Hy.
    replace (Nat.ltb (length (pre ++ rest)) (S (length (pre ++ rest)))) with true
      by (symmetry; apply Nat.ltb_lt; lia).
    rewrite IH by (cbn in Hfuel; lia).
    destruct Hk as [r Hk]. now rewrite Hk.
Qed.

Lemma plus_class_sound (p : N -> bool) k res s c :
  rmatch (Plus (Class p)) s k c = Some res ->
  exists pre rest,
    s = pre ++ rest /\ pre <> [] /\ Forall (fun u => p u = true) pre
    /\ k rest c = Some res.
Proof.
  unfold Plus. intros H.
  change (rmatch (Cat (Class p) (Star (Class p))) s k c)
    with (rmatch (Class p) s (fun s' c' => rmatch (Star (Class p)) s' k c') c) in H.
  destruct s as [|y s]; [discriminate|]. cbn [rmatch] in H.
  destruct (p y) eqn:Hp; [|discriminate].
  apply (star_class_sound p k res s c) in H.
  destruct H as (pre & rest & -> & Hall & Hk).
  exists (y :: pre), rest. repeat split; [discriminate | | exact Hk].
  constructor; assumption.
Qed.

Lemma plus_class_complete (p : N -> bool) k pre rest c :
  pre <> [] ->
  Forall (fun u => p u = true) pre ->
  (forall y rest', rest = y :: rest' -> p y = false) ->
  is_Some (k rest c) ->
  rmatch (Plus (Class p)) (pre ++ rest) k c = k rest c.
Proof.
  intros Hne Hall Hstop Hk. destruct Hall as [|y pre Hy Hall]; [congruence|].
  unfold Plus.
  change (rmatch (Cat (Class p) (Star (Class p))) ((y :: pre) ++ rest) k c)
    with (rmatch (Class p) (y :: pre ++ rest)
            (fun s' c' => rmatch (Star (Class p)) s' k c') c).
  cbn [rmatch]. rewrite Hy. now apply star_class_complete.
Qed.

(** An optional group made of one fixed unit and a run of the class. *)
Lemma optional_group_sound j x (p : N -> bool) s k c res :
  rmatch (Opt (Group j (Cat (Lit x) (Star (Class p))))) s k c = Some res ->
  exists q rest c',
    s = q ++ rest /\ k rest c' = Some res
    /\ (forall i, i <> j -> c' i = c i)
    /\ (q = [] \/ exists q', q = x :: q' /\ Forall (fun u => p u = true) q').
Proof.
  intros H.
  change (rmatch (Opt (Group j (Cat (Lit x) (Star (Class p))))) s k c)
    with (match rmatch (Group j (Cat (Lit x) (Star (Class p)))) s k c with
          | Some r => Some r
          | None => k s c
          end) in H.
  destruct (rmatch (Group j (Cat (Lit x) (Star (Class p)))) s k c) as [r|] eqn:Hg.
  - inversion H; subst r. clear H.
    change (rmatch (Group j (Cat (Lit x) (Star (Class p)))) s k c)
      with (rmatch (Lit x) s
              (fun s1 c1 =>
                 rmatch (Star (Class p)) s1
                   (fun s' c' =>
                      k s' (set_capture j (firstn (length s - length s') s) c')) c1)
              c) in Hg.
    destruct s as [|y s]; [discriminate|]. cbn [rmatch] in Hg.
    destruct (N.eqb_spec x y); [|discriminate]. subst y.
    apply star_class_sound in Hg. destruct Hg as (pre & rest & -> & Hall & Hk).
    eexists (x :: pre), rest, _. split; [reflexivity|]. split; [exact Hk|].
    split.
    + intros i Hi. unfold set_capture.
      destruct (Nat.eqb_spec j i); [congruence | reflexivity].
    + right. now exists pre.
  - exists [], s, c. repeat split; auto.
Qed.

Lemma optional_group_skipped j x (p : N -> bool) s k c :
  (forall s', s <> x :: s') ->
  rmatch (Opt (Group j (Cat (Lit x) (Star (Class p))))) s k c = k s c.
Proof.
  intros Hs.
  change (rmatch (Opt (Group j (Cat (Lit x) (Star (Class p))))) s k c)
    with (match rmatch (Lit x) s
              (fun s1 c1 =>
                 rmatch (Star (Class p)) s1
                   (fun s' c' =>
                      k s' (set_capture j (firstn (length s - length s') s) c')) c1)
              c with
          | Some r => Some r
          | None => k s c
          end).
  destruct s as [|y s]; [reflexivity|]. cbn [rmatch].
  destruct (N.eqb_spec x y); [|reflexivity]. subst. now destruct (Hs s).
Qed.


Lemma rmatch_Cat r1 r2 s k c :
  rmatch (Cat r1 r2) s k c = rmatch r1 s (fun s' c' => rmatch r2 s' k c') c.
Proof. reflexivity. Qed.

Lemma rmatch_Group i r s k c :
  rmatch (Group i r) s k c
  = rmatch r s
      (fun s' c' => k s' (set_capture i (firstn (length s - length s') s) c')) c.
Proof. reflexivity. Qed.

Lemma firstn_consumed (tok rest : jsstring) :
  firstn (length (tok ++ rest) - length rest) (tok ++ rest) = tok.
Proof.
  rewrite length_app. replace (length tok + length rest - length rest) with (length tok) by lia.
  now rewrite firstn_app, Nat.sub_diag, firstn_all, app_nil_r.
Qed.

Lemma tail_sound j2 j3 s c res :
  rmatch (Cat (Opt (Group j2 (Cat (Lit 63) (Star (Class dot_unit)))))
              (Opt (Group j3 (Cat (Lit 35) (Star (Class dot_unit))))))
    s at_end c = Some res ->
  query_or_fragment s /\ forall i, i <> j2 -> i <> j3 -> res i = c i.
Proof.
  rewrite rmatch_Cat. intros H.
  apply optional_group_sound in H.
  destruct H as (q1 & rest1 & c1 & -> & H & Hc1 & Hq1).
  apply optional_group_sound in H.
  destruct H as (q2 & rest2 & c2 & -> & H & Hc2 & Hq2).
  destruct rest2; [|discriminate]. inversion H; subst res. rewrite app_nil_r.
  split.
  - destruct Hq1 as [-> | (q1' & -> & Hall1)].
    + destruct Hq2 as [-> | (q2' & -> & Hall2)]; [now left|].
      right. exists 35%N, q2'. auto.
    + right. exists 63%N, (q1' ++ q2). repeat split; [now left|].
      apply Forall_app. split; [exact Hall1|].
      destruct Hq2 as [-> | (q2' & -> & Hall2)]; [constructor|].
      constructor; [reflexivity | exact Hall2].
  - intros i Hi2 Hi3. rewrite Hc2 by exact Hi3. now apply Hc1.
Qed.

Lemma tail_empty j2 j3 c :
  rmatch (Cat (Opt (Group j2 (Cat (Lit 63) (Star (Class dot_unit)))))
              (Opt (Group j3 (Cat (Lit 35) (Star (Class dot_unit))))))
    [] at_end c = Some c.
Proof.
  rewrite rmatch_Cat.
  rewrite optional_group_skipped by discriminate.
  now rewrite optional_group_skipped by discriminate.
Qed.

Lemma str_nonempty_secret : str "https://secret.annai.ai/link/" <> [].
Proof. discriminate. Qed.

Lemma secretLinks_sound s m :
  exec secretLinks s = Some m ->
  exists tok rest,
    s = str "https://secret.annai.ai/link/" ++ tok ++ rest
    /\ 16 <= length tok <= 64
    /\ Forall (fun u => token_unit u = true) tok
    /\ query_or_fragment rest
    /\ m 1 = Some tok.
Proof.
  unfold exec, secretLinks. fold at_end. rewrite rmatch_Cat. intros H.
  apply lits_sound in H; [|discriminate]. destruct H as (s1 & -> & H).
  rewrite rmatch_Cat, rmatch_Group in H.
  apply repeat_class_sound in H. destruct H as (tok & rest & -> & Hlen & Hall & H).
  rewrite firstn_consumed in H. apply tail_sound in H. destruct H as [Hq Hc].
  exists tok, rest. repeat split; try tauto.
  rewrite Hc by discriminate. reflexivity.
Qed.

Lemma customDomain_sound s m :
  exec customDomain s = Some m ->
  exists d tok rest,
    s = str "https://" ++ d ++ str "/link/" ++ tok ++ rest
    /\ d <> [] /\ Forall (fun u => not_slash u = true) d
    /\ 16 <= length tok <= 64
    /\ Forall (fun u => token_unit u = true) tok
    /\ query_or_fragment rest
    /\ m 1 = Some d /\ m 2 = Some tok.
Proof.
  unfold exec, customDomain. fold at_end. rewrite rmatch_Cat. intros H.
  apply lits_sound in H; [|discriminate]. destruct H as (s1 & -> & H).
  rewrite rmatch_Cat, rmatch_Group in H.
  apply plus_class_sound in H. destruct H as (d & s2 & -> & Hne & Hd & H).
  rewrite firstn_consumed in H. rewrite rmatch_Cat in H.
  apply lits_sound in H; [|discriminate]. destruct H as (s3 & -> & H).
  rewrite rmatch_Cat, rmatch_Group in H.
  apply repeat_class_sound in H. destruct H as (tok & rest & -> & Hlen & Hall & H).
  rewrite firstn_consumed in H. apply tail_sound in H. destruct H as [Hq Hc].
  exists d, tok, rest. repeat split; try tauto.
  - rewrite Hc by discriminate. reflexivity.
  - rewrite Hc by discriminate. reflexivity.
Qed.


Lemma token_part_complete j j2 j3 tok c :
  16 <= length tok <= 64 ->
  Forall (fun u => token_unit u = true) tok ->
  rmatch (Cat (Group j (Repeat 16 64 (Class token_unit)))
            (Cat (Opt (Group j2 (Cat (Lit 63) (Star (Class dot_unit)))))
                 (Opt (Group j3 (Cat (Lit 35) (Star (Class dot_unit)))))))
    tok at_end c
  = Some (set_capture j tok c).
Proof.
  intros Hlen Hall. rewrite rmatch_Cat, rmatch_Group.
  match goal with
  | |- rmatch _ _ ?K _ = _ =>
      pose proof (repeat_class_complete token_unit K 64 16 tok [] c Hall Hlen) as H
  end.
  rewrite app_nil_r in H. cbn beta in H. cbn [length] in H.
  rewrite Nat.sub_0_r, firstn_all, tail_empty in H.
  rewrite H; [reflexivity | discriminate | eauto].
Qed.

Lemma secretLinks_complete tok :
  16 <= length tok <= 64 ->
  Forall (fun u => token_unit u = true) tok ->
  exec secretLinks (str "https://secret.annai.ai/link/" ++ tok)
  = Some (set_capture 1 tok no_captures).
Proof.
  intros Hlen Hall. unfold exec, secretLinks. fold at_end.
  rewrite rmatch_Cat, lits_complete by discriminate.
  now apply token_part_complete.
Qed.

Lemma customDomain_complete d tok :
  d <> [] -> Forall (fun u => not_slash u = true) d ->
  16 <= length tok <= 64 ->
  Forall (fun u => token_unit u = true) tok ->
  exec customDomain (str "https://" ++ d ++ str "/link/" ++ tok)
  = Some (set_capture 2 tok (set_capture 1 d no_captures)).
Proof.
  intros Hne Hd Hlen Hall. unfold exec, customDomain. fold at_end.
  rewrite rmatch_Cat, lits_complete by discriminate.
  rewrite rmatch_Cat, rmatch_Group.
  assert (Hin : forall c,
            rmatch (Cat (lits (str "/link/"))
                      (Cat (Group 2 (Repeat 16 64 (Class token_unit)))
                         (Cat (Opt (Group 3 (Cat (Lit 63) (Star (Class dot_unit)))))
                              (Opt (Group 4 (Cat (Lit 35) (Star (Class dot_unit))))))))
              (str "/link/" ++ tok) at_end c
            = Some (set_capture 2 tok c)).
  { intros c. rewrite rmatch_Cat, lits_complete by discriminate.
    now apply token_part_complete. }
  rewrite plus_class_complete; try assumption.
  - rewrite firstn_consumed. apply Hin.
  - intros y rest' Heq. change (str "/link/") with (47%N :: str "link/") in Heq.
    now inversion Heq.
  - rewrite firstn_consumed, Hin. eauto.
Qed.

Lemma split_at_first {A} (sep : A) (x y a b : list A) :
  ~ In sep x -> ~ In sep y -> x ++ sep :: a = y ++ sep :: b -> x = y /\ a = b.
Proof.
  revert y. induction x as [|c x IH]; intros [|d y] Hx Hy H; cbn in H.
  - now inversion H.
  - inversion H; subst. exfalso. apply Hy. now left.
  - inversion H; subst. exfalso. apply Hx. now left.
  - inversion H; subst. destruct (IH y) as [-> ->]; auto.
    + intros Hin. apply Hx. now right.
    + intros Hin. apply Hy. now right.
Qed.

Lemma not_slash_no_47 d : Forall (fun u => not_slash u = true) d -> ~ In 47%N d.
Proof.
  intros Hall Hin. rewrite Forall_forall in Hall.
  apply list_elem_of_In in Hin. apply Hall in Hin. discriminate.
Qed.

Lemma query_or_fragment_inside_token tok' rest tok :
  Forall (fun u => token_unit u = true) tok ->
  tok = tok' ++ rest -> query_or_fragment rest -> rest = [].
Proof.
  intros Hall -> [-> | (x & q & -> & Hx & _)]; [reflexivity|].
  apply Forall_app in Hall. destruct Hall as [_ Hall].
  inversion Hall as [|? ? Hx' _]; subst. destruct Hx as [-> | ->]; discriminate.
Qed.

End RegexFacts.

Module ParseLinkFacts.
Import RegexFacts.

Section Platform.
Variable URL_new : jsstring -> option URLObject.

(** The token of a link that [parseLink] declares valid has 16 to 64
    units. *)
Lemma valid_link_token_length (url : JsArg) (info : LinkInfo) :
  parseLink URL_new url = Normal info -> isValid info = true ->
  16 <= length (token info) <= 64.
Proof.
  unfold parseLink. destruct url as [[|u0 url0] | b];
    try (intros [= <-]; discriminate).
  set (url := u0 :: url0).
  destruct (exec secretLinks url) as [m|] eqn:Hs.
  - apply secretLinks_sound in Hs.
    destruct Hs as (tok & rest & _ & Hlen & _ & _ & Hm).
    unfold group. rewrite Hm.
    destruct tok as [|t0 tok]; [cbn in Hlen; lia|].
    destruct (URL_new url); [|discriminate].
    intros [= <-] _. exact Hlen.
  - destruct (exec customDomain url) as [m|] eqn:Hc.
    + apply customDomain_sound in Hc.
      destruct Hc as (d & tok & rest & _ & _ & _ & Hlen & _ & _ & Hm1 & Hm2).
      unfold group. rewrite Hm1, Hm2.
      destruct tok as [|t0 tok]; [cbn in Hlen; lia|].
      destruct (URL_new url); [|discriminate].
      intros [= <-] _. exact Hlen.
    + intros [= <-]. discriminate.
Qed.

(** X5. A link that [parseLink] declares valid has the shape
    [https://<domain>/link/<token>] followed by nothing, a query or a
    fragment: the domain is not empty and has no slash, the token is 16 to
    64 units of the token class, and the link type is read off the length of
    the token. *)
Theorem valid_link_has_the_link_shape (url : jsstring) (info : LinkInfo) :
  parseLink URL_new (JsString url) = Normal info ->
  isValid info = true ->
  exists rest,
    url = str "https://" ++ domain info ++ str "/link/" ++ token info ++ rest
    /\ domain info <> []
    /\ Forall (fun u => not_slash u = true) (domain info)
    /\ 16 <= length (token info) <= 64
    /\ Forall (fun u => token_unit u = true) (token info)
    /\ query_or_fragment rest
    /\ type info = (if Nat.leb (length (token info)) 24 then ping else webhook).
Proof.
  unfold parseLink. destruct url as [|u0 url0].
  { intros [= <-]. discriminate. }
  set (url := u0 :: url0).
  destruct (exec secretLinks url) as [m|] eqn:Hs.
  - apply secretLinks_sound in Hs.
    destruct Hs as (tok & rest & Hurl & Hlen & Hall & Hq & Hm).
    unfold group. rewrite Hm.
    destruct tok as [|t0 tok]; [cbn in Hlen; lia|].
    destruct (URL_new url); [|discriminate].
    intros [= <-] _. cbn [domain token type]. exists rest.
    split; [exact Hurl|]. split; [discriminate|]. split; [|tauto].
    apply Forall_forall. intros x Hx. apply list_elem_of_In in Hx.
    exact (proj1 (forallb_forall not_slash (str "secret.annai.ai")) eq_refl x Hx).
  - destruct (exec customDomain url) as [m|] eqn:Hc.
    + apply customDomain_sound in Hc.
      destruct Hc as (d & tok & rest & Hurl & Hne & Hd & Hlen & Hall & Hq & Hm1 & Hm2).
      unfold group. rewrite Hm1, Hm2.
      destruct tok as [|t0 tok]; [cbn in Hlen; lia|].
      destruct (URL_new url); [|discriminate].
      intros [= <-] _. cbn [domain token type]. exists rest. tauto.
    + intros [= <-]. discriminate.
Qed.


Lemma secret_prefix :
  str "https://secret.annai.ai/link/"
  = str "https://" ++ str "secret.annai.ai" ++ str "/link/".
Proof. reflexivity. Qed.

(** X6. Every URL of the form [https://<domain>/link/<token>], with a domain
    that is not empty and has no slash and a token of 16 to 64 units of the
    token class, is parsed as a valid link with that domain and that token,
    provided the [URL] constructor of the platform accepts it. *)
Theorem plain_link_is_accepted (d tok : jsstring) (u : URLObject) :
  d <> [] ->
  Forall (fun x => not_slash x = true) d ->
  16 <= length tok <= 64 ->
  Forall (fun x => token_unit x = true) tok ->
  URL_new (str "https://" ++ d ++ str "/link/" ++ tok) = Some u ->
  exists info,
    parseLink URL_new (JsString (str "https://" ++ d ++ str "/link/" ++ tok))
    = Normal info
    /\ isValid info = true /\ domain info = d /\ token info = tok
    /\ type info = detectLinkType tok.
Proof.
  intros Hne Hd Hlen Hall Hu.
  set (url := str "https://" ++ d ++ str "/link/" ++ tok) in *.
  assert (Hgroups :
    match exec secretLinks url with
    | None =>
        match exec customDomain url with
        | Some m => (Some m, group m 1, group m 2)
        | None => (None, str "secret.annai.ai", [])
        end
    | Some m => (Some m, str "secret.annai.ai", group m 1)
    end = (match exec secretLinks url with
           | Some m => Some m
           | None => exec customDomain url
           end, d, tok)
    /\ (is_Some (exec secretLinks url) \/ is_Some (exec customDomain url))).
  { destruct (exec secretLinks url) as [m|] eqn:Hs.
    - split; [|left; eauto].
      apply secretLinks_sound in Hs.
      destruct Hs as (tok' & rest & Hurl & _ & _ & Hq & Hm).
      unfold url in Hurl. rewrite secret_prefix in Hurl.
      rewrite <- !app_assoc in Hurl. apply app_inv_head in Hurl.
      change (str "/link/") with (47%N :: str "link/") in Hurl.
      apply split_at_first in Hurl.
      + destruct Hurl as [Hdom Htok]. apply app_inv_head in Htok.
        pose proof (query_or_fragment_inside_token tok' rest tok Hall Htok Hq) as ->.
        rewrite app_nil_r in Htok. subst. unfold group. now rewrite Hm.
      + now apply not_slash_no_47.
      + apply not_slash_no_47. apply Forall_forall. intros x Hx.
        apply list_elem_of_In in Hx.
        exact (proj1 (forallb_forall not_slash (str "secret.annai.ai")) eq_refl x Hx).
    - unfold url. rewrite customDomain_complete by assumption.
      split; [reflexivity | right; eauto]. }
  destruct Hgroups as [Hgroups Hmatch].
  assert (Hcons : exists u0 url0, url = u0 :: url0).
  { unfold url. change (str "https://") with (104%N :: str "ttps://"). cbn [app]. eauto. }
  destruct Hcons as (u0 & url0 & Hcons).
  unfold parseLink. rewrite Hcons. rewrite <- Hcons. rewrite Hgroups.
  destruct tok as [|t0 tok]; [cbn in Hlen; lia|].
  rewrite Hu.
  destruct (exec secretLinks url) as [m|].
  - eexists. split; [reflexivity|]. repeat split.
  - destruct Hmatch as [[? [=]] | [m Hm]]. rewrite Hm.
    eexists. split; [reflexivity|]. repeat split.
Qed.

(** X7. [parseLink] throws exactly when the input matches one of the two
    patterns and the [URL] constructor of the platform rejects it. *)
Theorem parseLink_throws_with_the_platform (url : jsstring) :
  (exists e, parseLink URL_new (JsString url) = Throw e)
  <-> (is_Some (exec secretLinks url) \/ is_Some (exec customDomain url))
      /\ URL_new url = None.
Proof.
  unfold parseLink. destruct url as [|u0 url0].
  { split; [intros [e [=]] | intros [[[m Hm] | [m Hm]] _]; discriminate]. }
  set (url := u0 :: url0).
  destruct (exec secretLinks url) as [m|] eqn:Hs.
  - pose proof Hs as Hs'. apply secretLinks_sound in Hs'.
    destruct Hs' as (tok & rest & _ & Hlen & _ & _ & Hm).
    unfold group. rewrite Hm. destruct tok as [|t0 tok]; [cbn in Hlen; lia|].
    destruct (URL_new url).
    + split; [intros [e [=]] | intros [_ [=]]].
    + split; [intros _; split; [left; eauto | reflexivity] | eauto].
  - destruct (exec customDomain url) as [m|] eqn:Hc.
    + pose proof Hc as Hc'. apply customDomain_sound in Hc'.
      destruct Hc' as (d & tok & rest & _ & _ & _ & Hlen & _ & _ & _ & Hm).
      unfold group. rewrite Hm. destruct tok as [|t0 tok]; [cbn in Hlen; lia|].
      destruct (URL_new url).
      * split; [intros [e [=]] | intros [_ [=]]].
      * split; [intros _; split; [right; eauto | reflexivity] | eauto].
    + split; [intros [e [=]] | intros [[[m [=]] | [m [=]]] _]].
Qed.

(** X8. In whatever [parseLink] returns, a password is present only with
    [hasPassword] and is not empty, and an encryption key is present exactly
    with [hasEncryption] and is not empty. *)
Theorem secrets_of_a_parsed_link (url : JsArg) (info : LinkInfo) :
  parseLink URL_new url = Normal info ->
  (forall pw, password info = Some pw -> hasPassword info = true /\ pw <> [])
  /\ (forall key, encryptionKey info = Some key ->
                  hasEncryption info = true /\ key <> [])
  /\ (hasEncryption info = true -> is_Some (encryptionKey info)).
Proof.
  assert (Hinvalid :
    (forall pw, password invalidLink = Some pw ->
                hasPassword invalidLink = true /\ pw <> [])
    /\ (forall key, encryptionKey invalidLink = Some key ->
                    hasEncryption invalidLink = true /\ key <> [])
    /\ (hasEncryption invalidLink = true -> is_Some (encryptionKey invalidLink))).
  { repeat split; discriminate. }
  unfold parseLink. destruct url as [[|u0 url0] | b];
    try (intros [= <-]; exact Hinvalid).
  set (url := u0 :: url0).
  destruct (match exec secretLinks url with
            | None =>
                match exec customDomain url with
                | Some m => (Some m, group m 1, group m 2)
                | None => (None, str "secret.annai.ai", [])
                end
            | Some m => (Some m, str "secret.annai.ai", group m 1)
            end) as [[m d] tok].
  destruct m as [m|]; [|intros [= <-]; exact Hinvalid].
  destruct tok as [|t0 tok]; [intros [= <-]; exact Hinvalid|].
  destruct (URL_new url) as [u|]; [|discriminate].
  intros [= <-]. cbn [password hasPassword encryptionKey hasEncryption].
  split; [|split].
  - intros pw Hpw. destruct (searchParams_password u) as [[|p0 pw0]|] eqn:Hp;
      cbn in Hpw; try discriminate.
    inversion Hpw; subst. split; [|discriminate].
    apply bool_decide_eq_true. eauto.
  - intros key Hkey.
    destruct (Nat.ltb 1 (length (hash u))) eqn:Hh; [|discriminate].
    split; [reflexivity|]. inversion Hkey; subst.
    apply Nat.ltb_lt in Hh. destruct (hash u) as [|h0 [|h1 hs]]; cbn in *; try lia.
    discriminate.
  - intros ->. eauto.
Qed.

End Platform.

Lemma valid_link_has_the_link_shape_witness :
  parseLink URL_plain (JsString sample_url) = Normal sample_link
  /\ isValid sample_link = true
  /\ 16 <= length (token sample_link) <= 64.
Proof.
  assert (H : parseLink URL_plain (JsString sample_url) = Normal sample_link)
    by (vm_compute; reflexivity).
  split; [exact H|]. split; [reflexivity|].
  destruct (valid_link_has_the_link_shape URL_plain sample_url sample_link H eq_refl)
    as (rest & _ & _ & _ & Hlen & _).
  exact Hlen.
Defined.

Lemma plain_link_is_accepted_witness :
  Forall (fun x => not_slash x = true) (str "my-custom-domain.com")
  /\ Forall (fun x => token_unit x = true) (str "abc123def456ghi789")
  /\ exists info,
       parseLink URL_plain
         (JsString (str "https://" ++ str "my-custom-domain.com" ++ str "/link/"
                    ++ str "abc123def456ghi789"))
       = Normal info
       /\ isValid info = true /\ domain info = str "my-custom-domain.com"
       /\ token info = str "abc123def456ghi789"
       /\ type info = detectLinkType (str "abc123def456ghi789").
Proof.
  assert (Hd : Forall (fun x => not_slash x = true) (str "my-custom-domain.com")).
  { apply Forall_forall. intros x Hx. apply list_elem_of_In in Hx.
    exact (proj1 (forallb_forall not_slash (str "my-custom-domain.com")) eq_refl x Hx). }
  assert (Ht : Forall (fun x => token_unit x = true) (str "abc123def456ghi789")).
  { apply Forall_forall. intros x Hx. apply list_elem_of_In in Hx.
    exact (proj1 (forallb_forall token_unit (str "abc123def456ghi789")) eq_refl x Hx). }
  split; [exact Hd|]. split; [exact Ht|].
  apply (plain_link_is_accepted URL_plain (str "my-custom-domain.com")
           (str "abc123def456ghi789") {| searchParams_password := None; hash := [] |}).
  - discriminate.
  - exact Hd.
  - vm_compute. split; lia.
  - exact Ht.
  - reflexivity.
Defined.

Lemma secrets_of_a_parsed_link_witness :
  parseLink URL_with_password
    (JsString (str "https://secret.annai.ai/link/abc123def456ghi789?password=secret"))
  = Normal {| isValid := true; token := str "abc123def456ghi789"; type := ping;
              hasPassword := true; hasEncryption := false;
              domain := str "secret.annai.ai"; password := Some (str "secret");
              encryptionKey := None |}
  /\ (true = true /\ str "secret" <> []).
Proof.
  assert (H : parseLink URL_with_password
                (JsString
                   (str "https://secret.annai.ai/link/abc123def456ghi789?password=secret"))
              = Normal {| isValid := true; token := str "abc123def456ghi789";
                          type := ping; hasPassword := true;
                          hasEncryption := false;
                          domain := str "secret.annai.ai";
                          password := Some (str "secret");
                          encryptionKey := None |})
    by (vm_compute; reflexivity).
  split; [exact H|].
  exact (proj1 (secrets_of_a_parsed_link URL_with_password _ _ H) (str "secret") eq_refl).
Defined.

End ParseLinkFacts.

(** ** Construction and validation *)

Module RegistrySetup.
Import SDK SDKFacts.

Section Platform.
Variable URL_new : jsstring -> option URLObject.

Lemma less_than_second (n : jsnumber) :
  less_than n (millis 1000) = false <-> n = NaN \/ at_least_second n.
Proof.
  unfold at_least_second. destruct n as [q| | |]; cbn [less_than].
  - destruct (q ?= millis 1000)%Qc eqn:E.
    + split; [|reflexivity]. intros _. right. right. exists q. split; [reflexivity|].
      apply Qceq_alt in E. rewrite E. apply Qcle_refl.
    + split; [discriminate|]. intros [H | [H | (q' & [= <-] & H)]]; try discriminate.
      apply Qclt_alt in E. exfalso. eapply Qclt_not_le; eassumption.
    + split; [|reflexivity]. intros _. right. right. exists q. split; [reflexivity|].
      apply Qcgt_alt in E. now apply Qclt_le_weak.
  - split; [auto | reflexivity].
  - split; [discriminate|]. intros [H | [H | (q & H & _)]]; discriminate.
  - split; [auto | reflexivity].
Qed.

Lemma too_small_spec (o : option jsnumber) :
  match o with
  | Some n => less_than n (millis 1000)
  | None => false
  end = false
  <-> forall n, o = Some n -> n = NaN \/ at_least_second n.
Proof.
  destruct o as [n|]; [|split; [intros _ n [=] | reflexivity]].
  rewrite less_than_second. split; [now intros H n' [= <-] | auto].
Qed.

Lemma validateSDKOptions_accepts (options : SDKOptions) :
  validateSDKOptions URL_new options = Normal tt
  <-> sdk_pollingEndpoint options <> []
      /\ is_Some (URL_new (sdk_pollingEndpoint options))
      /\ (forall n, sdk_pingInterval options = Some n ->
                    n = NaN \/ at_least_second n)
      /\ (forall n, sdk_webhookInterval options = Some n ->
                    n = NaN \/ at_least_second n).
Proof.
  unfold validateSDKOptions.
  destruct (sdk_pollingEndpoint options) as [|e0 ep] eqn:Hep.
  { split; [intros [=] | intros [H _]; congruence]. }
  destruct (URL_new (e0 :: ep)) as [u|].
  2:{ split; [intros [=] | intros (_ & [u [=]] & _)]. }
  pose proof (too_small_spec (sdk_pingInterval options)) as Hp.
  pose proof (too_small_spec (sdk_webhookInterval options)) as Hw.
  cbv zeta.
  destruct (match sdk_pingInterval options with
            | Some n => less_than n (millis 1000)
            | None => false
            end).
  { split; [intros [=] | intros (_ & _ & H & _)].
    apply Hp in H. discriminate. }
  destruct (match sdk_webhookInterval options with
            | Some n => less_than n (millis 1000)
            | None => false
            end).
  { split; [intros [=] | intros (_ & _ & _ & H)].
    apply Hw in H. discriminate. }
  split; [|reflexivity]. intros _. split; [discriminate|]. split; [eauto|].
  split; [now apply Hp | now apply Hw].
Qed.

(** X9. The constructor succeeds exactly when the endpoint is a non-empty
    string that the [URL] constructor accepts and each interval override
    that is given is [NaN], [Infinity] or a finite number of at least 1000:
    the check [x < 1000] rejects the finite numbers below 1000 and
    [-Infinity], and lets [NaN] through.  Otherwise it throws. *)
Theorem construction_succeeds_iff (options : SDKOptions) :
  (exists self, new URL_new options = Normal self)
  <-> sdk_pollingEndpoint options <> []
      /\ is_Some (URL_new (sdk_pollingEndpoint options))
      /\ (forall n, sdk_pingInterval options = Some n ->
                    n = NaN \/ n = Infinity
                    \/ exists q : number, n = Finite q /\ (millis 1000 <= q)%Qc)
      /\ (forall n, sdk_webhookInterval options = Some n ->
                    n = NaN \/ n = Infinity
                    \/ exists q : number, n = Finite q /\ (millis 1000 <= q)%Qc).
Proof.
  pose proof (validateSDKOptions_accepts options) as Hv. unfold at_least_second in Hv.
  rewrite <- Hv. unfold new.
  destruct (validateSDKOptions URL_new options) as [[]|e].
  - split; [reflexivity | eauto].
  - split; [intros [self [=]] | discriminate].
Qed.

Lemma number_or_kept (n : jsnumber) (fallback : number) :
  at_least_second n -> number_or (Some n) fallback = n.
Proof.
  intros [-> | (q & -> & H)]; [reflexivity|]. cbn.
  destruct (q ?= millis 0)%Qc eqn:E; try reflexivity.
  apply Qceq_alt in E. subst q.
  exfalso. revert H. apply Qclt_not_le. now vm_compute.
Qed.

Lemma number_or_stored (o : option jsnumber) (fallback : Z) :
  (1000 <= fallback)%Z ->
  (forall n, o = Some n -> n = NaN \/ at_least_second n) ->
  number_or o (millis fallback)
  = match o with
    | None | Some NaN => Finite (millis fallback)
    | Some n => n
    end
  /\ at_least_second (number_or o (millis fallback)).
Proof.
  intros Hf H.
  assert (Hfallback : at_least_second (Finite (millis fallback))).
  { right. exists (millis fallback). split; [reflexivity|].
    unfold millis, Qcle. cbn. rewrite !Qred_correct.
    unfold Qle. cbn. lia. }
  destruct o as [n|]; [|split; [reflexivity | exact Hfallback]].
  destruct (H n eq_refl) as [-> | Hn]; [split; [reflexivity | exact Hfallback]|].
  rewrite number_or_kept by exact Hn. split; [|exact Hn].
  destruct Hn as [-> | (q & -> & _)]; reflexivity.
Qed.

(** X10. A registry that has been constructed holds as its ping interval the
    [pingInterval] option, or 10000 ms when that is absent or [NaN], and as
    its webhook interval the [webhookInterval] option, or 60000 ms when that
    is absent or [NaN]; both are [Infinity] or a finite number of at least
    1000, so never [NaN]; it has the endpoint and the validation rules of
    the options, no listener, and its counter at 0. *)
Theorem constructed_registry (options : SDKOptions) (self : t) :
  new URL_new options = Normal self ->
  intervals_ping self
  = match sdk_pingInterval options with
    | None | Some NaN => Finite (millis 10000)
    | Some n => n
    end
  /\ intervals_webhook self
     = match sdk_webhookInterval options with
       | None | Some NaN => Finite (millis 60000)
       | Some n => n
       end
  /\ (intervals_ping self = Infinity
      \/ exists q : number,
           intervals_ping self = Finite q /\ (millis 1000 <= q)%Qc)
  /\ (intervals_webhook self = Infinity
      \/ exists q : number,
           intervals_webhook self = Finite q /\ (millis 1000 <= q)%Qc)
  /\ activeListeners self = ∅
  /\ listenerCounter self = 0%N
  /\ pollingEndpoint self = sdk_pollingEndpoint options
  /\ validation self = sdk_validation options.
Proof.
  intros H.
  unfold new in H.
  destruct (validateSDKOptions URL_new options) as [[]|e] eqn:Hv; [|discriminate].
  destruct (proj1 (validateSDKOptions_accepts options) Hv) as (_ & _ & Hp & Hw).
  inversion H; subst self; clear H.
  cbn [intervals_ping intervals_webhook activeListeners listenerCounter
       pollingEndpoint validation].
  destruct (number_or_stored (sdk_pingInterval options) 10000 ltac:(lia) Hp)
    as [Hp1 Hp2].
  destruct (number_or_stored (sdk_webhookInterval options) 60000 ltac:(lia) Hw)
    as [Hw1 Hw2].
  repeat split; assumption.
Qed.

Lemma applyValidationRules_accepts self v info :
  validation self = Some v ->
  applyValidationRules self info = None ->
  ~ domain_rejected v info /\ ~ kind_rejected v info /\ ~ password_missing v info.
Proof.
  intros Hv H. unfold applyValidationRules in H. rewrite Hv in H.
  destruct (Nat.ltb 0 (length (default [] (allowedDomains v)))
            && negb (includes jsstring_eqb (default [] (allowedDomains v)) (domain info)))
    eqn:Hd; [discriminate|].
  destruct (Nat.ltb 0 (length (default [] (allowedLinkTypes v)))
            && negb (includes LinkType_eqb (default [] (allowedLinkTypes v)) (type info)))
    eqn:Hk; [discriminate|].
  destruct (default false (requirePassword v) && negb (hasPassword info)) eqn:Hp;
    [discriminate|].
  split; [|split].
  - intros (ds & Hds & Hne & Hnin). rewrite Hds in Hd. cbn [default] in Hd.
    apply andb_false_iff in Hd. destruct Hd as [Hd | Hd].
    + destruct ds; [congruence | discriminate].
    + apply negb_false_iff in Hd. apply includes_In in Hd; [auto | apply jsstring_eqb_eq].
  - intros (ks & Hks & Hne & Hnin). rewrite Hks in Hk. cbn [default] in Hk.
    apply andb_false_iff in Hk. destruct Hk as [Hk | Hk].
    + destruct ks; [congruence | discriminate].
    + apply negb_false_iff in Hk. apply includes_In in Hk; [auto | apply LinkType_eqb_eq].
  - intros [Hreq Hno]. rewrite Hreq, Hno in Hp. discriminate.
Qed.

Lemma validateLink_valid_parsed (self : t) (url : JsArg) (info : LinkInfo) :
  validateLink URL_new self url = Normal info -> isValid info = true ->
  parseLink URL_new url = Normal info /\ applyValidationRules self info = None.
Proof.
  unfold validateLink. destruct (parseLink URL_new url) as [parsed|e]; [|discriminate].
  destruct (isValid parsed) eqn:Hvalid; cbn [negb].
  2:{ intros [= <-] H. congruence. }
  destruct (applyValidationRules self parsed) as [msg|] eqn:Hrules.
  { intros [= <-]. discriminate. }
  intros [= <-] _. split; [reflexivity|].
  unfold applyValidationRules in *. destruct (validation self); [exact Hrules | reflexivity].
Qed.

(** X11. A link that [validateLink] declares valid is what [parseLink]
    returned, was valid there, and is turned down by none of the configured
    rules: its domain is on the allow-list if that list is not empty, so is
    its kind, and it has a password if one is required. *)
Theorem accepted_link_satisfies_the_rules (self : t) (url : JsArg) (info : LinkInfo) :
  validateLink URL_new self url = Normal info ->
  isValid info = true ->
  parseLink URL_new url = Normal info
  /\ forall v, validation self = Some v ->
       ~ domain_rejected v info /\ ~ kind_rejected v info
       /\ ~ password_missing v info.
Proof.
  intros Hv Hvalid.
  destruct (validateLink_valid_parsed self url info Hv Hvalid) as [Hparse Hrules].
  split; [exact Hparse|].
  intros v Hval. now apply (applyValidationRules_accepts self).
Qed.

(** X12. [validateLink] completes as [parseLink] does, and a link it returns
    differs from the parsed one in [isValid] at most: token, kind, domain and
    secrets are those of the parsed link even when a rule turns it down. *)
Theorem validateLink_only_judges (self : t) (url : JsArg) :
  match parseLink URL_new url with
  | Throw e => validateLink URL_new self url = Throw e
  | Normal parsed =>
      exists verdict,
        validateLink URL_new self url = Normal (set_isValid verdict parsed)
        /\ (verdict = true -> isValid parsed = true)
        /\ (validation self = None -> verdict = isValid parsed)
  end.
Proof.
  unfold validateLink. destruct (parseLink URL_new url) as [parsed|e]; [|reflexivity].
  destruct (isValid parsed) eqn:Hvalid; cbn [negb].
  - destruct (applyValidationRules self parsed) as [msg|] eqn:Hrules.
    + exists false. split; [reflexivity|]. split; [discriminate|].
      intros Hnone. unfold applyValidationRules in Hrules. rewrite Hnone in Hrules.
      discriminate.
    + exists true. split; [|auto]. destruct parsed. cbn in *. now subst.
  - exists false. split; [|split; [discriminate | auto]].
    destruct parsed. cbn in *. now subst.
Qed.

End Platform.

Lemma accepted_link_satisfies_the_rules_witness :
  validateLink URL_with_password picky_sdk
    (JsString (str "https://allowed-domain.com/link/abc123def456ghi789?password=secret"))
  = Normal {| isValid := true; token := str "abc123def456ghi789"; type := ping;
              hasPassword := true; hasEncryption := false;
              domain := str "allowed-domain.com";
              password := Some (str "secret"); encryptionKey := None |}
  /\ parseLink URL_with_password
       (JsString (str "https://allowed-domain.com/link/abc123def456ghi789?password=secret"))
     = Normal {| isValid := true; token := str "abc123def456ghi789"; type := ping;
                 hasPassword := true; hasEncryption := false;
                 domain := str "allowed-domain.com";
                 password := Some (str "secret"); encryptionKey := None |}.
Proof.
  assert (H : validateLink URL_with_password picky_sdk
                (JsString (str "https://allowed-domain.com/link/abc123def456ghi789?password=secret"))
              = Normal {| isValid := true; token := str "abc123def456ghi789";
                          type := ping; hasPassword := true;
                          hasEncryption := false;
                          domain := str "allowed-domain.com";
                          password := Some (str "secret");
                          encryptionKey := None |})
    by (vm_compute; reflexivity).
  split; [exact H|].
  exact (proj1 (accepted_link_satisfies_the_rules URL_with_password picky_sdk _ _
                  H eq_refl)).
Defined.

(** A [NaN] interval passes the check of [validateSDKOptions] and is then
    replaced by the default; [Infinity] passes and is stored. *)
Example nonfinite_intervals :
  exists self,
    new URL_plain nonfinite_options = Normal self
    /\ intervals_ping self = millis 10000
    /\ intervals_webhook self = Infinity.
Proof. eexists. repeat split. Qed.

Lemma constructed_registry_witness :
  new URL_plain sample_options = Normal (sample_sdk None)
  /\ intervals_ping (sample_sdk None) = millis 5000.
Proof.
  assert (H : new URL_plain sample_options = Normal (sample_sdk None)) by reflexivity.
  split; [exact H|].
  exact (proj1 (constructed_registry URL_plain sample_options (sample_sdk None) H)).
Defined.

End RegistrySetup.

(** ** A poll cycle, whatever its handlers do *)

Module CycleFacts.
Import LinkPoller LinkPollerFacts Cycle.

Lemma same_identity_refl p : same_identity p p.
Proof. now repeat split. Qed.

Lemma same_identity_trans p1 p2 p3 :
  same_identity p1 p2 -> same_identity p2 p3 -> same_identity p1 p3.
Proof. unfold same_identity. intuition congruence. Qed.

Lemma progress_refl p : progress p p.
Proof. split; [apply same_identity_refl | auto]. Qed.

Lemma progress_trans p1 p2 p3 : progress p1 p2 -> progress p2 p3 -> progress p1 p3.
Proof.
  intros (Hi & Hr & Ht & Ha) (Hi' & Hr' & Ht' & Ha').
  split; [eapply same_identity_trans; eassumption|].
  split; [congruence|]. split; [congruence | auto].
Qed.

Lemma progress_info p p' : progress p p' -> linkInfo p' = linkInfo p.
Proof. intros H. apply H. Qed.

Lemma bind_normal {A B} (m : M A) (f : A -> M B) s a s' :
  m s = (Normal a, s') -> bind m f s = f a s'.
Proof. intros H. unfold bind. now rewrite H. Qed.

Lemma bind_throw {A B} (m : M A) (f : A -> M B) s e s' :
  m s = (Throw e, s') -> bind m f s = (Throw e, s').
Proof. intros H. unfold bind. now rewrite H. Qed.

Lemma stop_returns self s : stop self s = (Normal tt, snd (stop self s)).
Proof.
  destruct s as [p rt]. destruct (isRunning p) eqn:Hrun.
  - rewrite stop_running by exact Hrun. now destruct (timeoutId p).
  - now rewrite stop_not_running.
Qed.

Lemma scheduleNextPoll_returns self s :
  scheduleNextPoll self s = (Normal tt, snd (scheduleNextPoll self s)).
Proof.
  destruct s as [p rt]. destruct (isRunning p) eqn:Hrun.
  - now rewrite scheduleNextPoll_running.
  - now rewrite scheduleNextPoll_not_running.
Qed.

(** A handler call returns or throws; either way the call is on the trace. *)
Lemma invoke_cases {A} (h : option (Handler A)) ev arg p rt :
  invoke h ev arg (p, rt)
  = (Normal tt, (p, record (delivery h (ev (linkInfo p))) rt))
  \/ exists e, invoke h ev arg (p, rt)
               = (Throw e, (p, record (delivery h (ev (linkInfo p))) rt)).
Proof.
  unfold invoke, delivery. destruct h as [h|].
  - cbn [fst snd emit]. destruct (h arg (linkInfo p)) as [[]|e].
    + left. reflexivity.
    + right. exists e. reflexivity.
  - left. now rewrite record_nil.
Qed.

Lemma delivery_handler_calls {A} (h : option (Handler A)) self info ev :
  handler_call self info ev -> Forall (handler_call self info) (delivery h ev).
Proof.
  intros H. unfold delivery. destruct h; [now repeat constructor | constructor].
Qed.

Lemma calls_app self info evs evs' :
  Forall (handler_call self info) evs ->
  Forall (handler_call self info) evs' ->
  Forall (handler_call self info) (evs ++ evs').
Proof. intros H H'. apply Forall_app. now split. Qed.

Lemma progress_seen now p : progress p (set_lastSeenTimestamp (Some now) p).
Proof. split; [now repeat split | auto]. Qed.

Lemma progress_adjusted p h n :
  progress p (set_adaptive (AdaptivePoller.adjustInterval (adaptive p) h n) p).
Proof.
  split; [now repeat split|]. split; [reflexivity|]. split; [reflexivity|].
  cbn [adaptive set_adaptive]. now constructor.
Qed.

(** How the [catch] block ends. *)
Lemma poll_catch_ends self e p rt :
  exists p1 evs,
    progress p p1 /\ Forall (handler_call self (linkInfo p)) evs
    /\ lastSeenTimestamp p1 = lastSeenTimestamp p
    /\ (poll_catch self e (p, rt) = scheduleNextPoll self (p1, record evs rt)
        \/ exists e', poll_catch self e (p, rt) = (Throw e', (p1, record evs rt))).
Proof.
  unfold poll_catch.
  rewrite (bind_normal current _ (p, rt) p (p, rt) eq_refl).
  set (ev := EvOnError self (toError e)).
  assert (Hev : Forall (handler_call self (linkInfo p))
                  (delivery (onError (callbacks p)) (ev (linkInfo p)))).
  { apply delivery_handler_calls. now split. }
  destruct (invoke_cases (onError (callbacks p)) ev (toError e) p rt) as [H | [e' H]].
  - rewrite (bind_normal _ _ _ _ _ H).
    exists (set_adaptive (AdaptivePoller.adjustInterval (adaptive p) false None) p),
      (delivery (onError (callbacks p)) (ev (linkInfo p))).
    split; [apply progress_adjusted|].
    split; [exact Hev | split; [reflexivity | left; reflexivity]].
  - rewrite (bind_throw _ _ _ _ _ H).
    exists p, (delivery (onError (callbacks p)) (ev (linkInfo p))).
    split; [apply progress_refl|]. split; [exact Hev|].
    split; [reflexivity|]. right. now exists e'.
Qed.

(** The statements of the [try] block that follow the delivery of the
    payload, from any state of the poller. *)
Lemma after_payload_ends self (result : PollResponse) (cbs : LinkCallbacks) q rt :
  exists p1 evs,
    progress q p1 /\ Forall (handler_call self (linkInfo q)) evs
    /\ lastSeenTimestamp p1 = lastSeenTimestamp q
    /\ ends_as self
         (bind
            (if negb (is_active (linkStatus result)) then
               bind (invoke (onStatusChange cbs)
                       (EvOnStatusChange self (linkStatus result))
                       (linkStatus result))
                 (fun _ =>
                    if is_terminal (linkStatus result)
                    then bind (stop self) (fun _ => ret true)
                    else ret false)
             else ret false)
            (fun returned : bool =>
               if returned then ret tt
               else
                 bind
                   (if truthy_string (error result) then
                      invoke (onError cbs)
                        (EvOnError self
                           (str "Server error: " ++ default [] (error result)))
                        (str "Server error: " ++ default [] (error result))
                    else ret tt)
                   (fun _ =>
                      bind (adjust (hasNewContent result) (nextPollIn result))
                        (fun _ => scheduleNextPoll self))))
         q rt p1 evs.
Proof.
  unfold ends_as.
  (* the status step *)
  assert (Hstatus :
    exists evs, Forall (handler_call self (linkInfo q)) evs /\
      let s2 :=
        (if negb (is_active (linkStatus result)) then
           bind (invoke (onStatusChange cbs)
                   (EvOnStatusChange self (linkStatus result))
                   (linkStatus result))
             (fun _ =>
                if is_terminal (linkStatus result)
                then bind (stop self) (fun _ => ret true)
                else ret false)
         else ret false) in
      s2 (q, rt) = (Normal false, (q, record evs rt))
      \/ s2 (q, rt) = (Normal true, snd (stop self (q, record evs rt)))
      \/ exists e, s2 (q, rt) = (Throw e, (q, record evs rt))).
  { cbv zeta. destruct (negb (is_active (linkStatus result))).
    2:{ exists []. split; [constructor|]. left. now rewrite record_nil. }
    exists (delivery (onStatusChange cbs)
              (EvOnStatusChange self (linkStatus result) (linkInfo q))).
    split; [apply delivery_handler_calls; now split|].
    destruct (invoke_cases (onStatusChange cbs)
                (EvOnStatusChange self (linkStatus result)) (linkStatus result) q rt)
      as [H | [e H]].
    - rewrite (bind_normal _ _ _ _ _ H).
      destruct (is_terminal (linkStatus result)).
      + right. left. unfold bind at 1. rewrite stop_returns. reflexivity.
      + left. reflexivity.
    - rewrite (bind_throw _ _ _ _ _ H). right. right. now exists e. }
  destruct Hstatus as (evs2 & Hcalls2 & Hs2). cbv zeta in Hs2.
  destruct Hs2 as [Hs2 | [Hs2 | [e Hs2]]].
  - rewrite (bind_normal _ _ _ _ _ Hs2).
    (* the server error step *)
    assert (Herr :
      exists evs, Forall (handler_call self (linkInfo q)) evs /\
        let s3 :=
          (if truthy_string (error result) then
             invoke (onError cbs)
               (EvOnError self (str "Server error: " ++ default [] (error result)))
               (str "Server error: " ++ default [] (error result))
           else ret tt) in
        s3 (q, record evs2 rt) = (Normal tt, (q, record evs (record evs2 rt)))
        \/ exists e, s3 (q, record evs2 rt) = (Throw e, (q, record evs (record evs2 rt)))).
    { cbv zeta. destruct (truthy_string (error result)).
      2:{ exists []. split; [constructor|]. left. now rewrite record_nil. }
      exists (delivery (onError cbs)
                (EvOnError self (str "Server error: " ++ default [] (error result))
                   (linkInfo q))).
      split; [apply delivery_handler_calls; now split|].
      apply invoke_cases. }
    destruct Herr as (evs3 & Hcalls3 & Hs3). cbv zeta in Hs3.
    destruct Hs3 as [Hs3 | [e Hs3]].
    + rewrite (bind_normal _ _ _ _ _ Hs3). rewrite record_record.
      exists (set_adaptive
                (AdaptivePoller.adjustInterval (adaptive q) (hasNewContent result)
                   (nextPollIn result)) q), (evs2 ++ evs3).
      split; [apply progress_adjusted|]. split; [now apply calls_app|].
      split; [reflexivity|]. left. reflexivity.
    + rewrite (bind_throw _ _ _ _ _ Hs3). rewrite record_record.
      exists q, (evs2 ++ evs3). split; [apply progress_refl|].
      split; [now apply calls_app|]. split; [reflexivity|]. right. right. now exists e.
  - rewrite (bind_normal _ _ _ _ _ Hs2).
    exists q, evs2. split; [apply progress_refl|]. split; [exact Hcalls2|].
    split; [reflexivity|]. right. left. now rewrite stop_returns.
  - rewrite (bind_throw _ _ _ _ _ Hs2).
    exists q, evs2. split; [apply progress_refl|]. split; [exact Hcalls2|].
    split; [reflexivity|]. right. right. now exists e.
Qed.

Lemma payload_delivery_calls self p result :
  Forall (handler_call self (linkInfo p)) (payload_delivery self p result).
Proof.
  unfold payload_delivery.
  destruct (hasNewContent result); [destruct (payload result)|]; try constructor.
  apply delivery_handler_calls. now split.
Qed.

(** How the [try] block ends. *)
Lemma poll_try_ends self outcome now p rt :
  exists p1 evs,
    progress p p1 /\ Forall (handler_call self (linkInfo p)) evs
    /\ lastSeenTimestamp p1
       = (if delivers outcome then Some now else lastSeenTimestamp p)
    /\ (exists rest, evs = delivered self p outcome ++ rest)
    /\ ends_as self (poll_try self outcome now) p rt p1 evs.
Proof.
  assert (Hthrow : forall e, delivers outcome = false ->
            delivered self p outcome = [] ->
            poll_try self outcome now (p, rt) = (Throw e, (p, rt)) ->
            exists p1 evs,
              progress p p1 /\ Forall (handler_call self (linkInfo p)) evs
              /\ lastSeenTimestamp p1
                 = (if delivers outcome then Some now else lastSeenTimestamp p)
              /\ (exists rest, evs = delivered self p outcome ++ rest)
              /\ ends_as self (poll_try self outcome now) p rt p1 evs).
  { intros e Hd Hd' H. exists p, []. split; [apply progress_refl|].
    split; [constructor|]. rewrite Hd. split; [reflexivity|].
    split; [exists []; now rewrite Hd'|].
    right. right. exists e. now rewrite record_nil. }
  destruct outcome as [e | status statusText body].
  { now apply (Hthrow e). }
  destruct (response_ok status) eqn:Hok.
  2:{ apply (Hthrow (ThrownError
                        (str "HTTP " ++ N_toString status ++ str ": " ++ statusText))).
      - unfold delivers; destruct body; [now rewrite Hok | reflexivity].
      - unfold delivered; destruct body; [now rewrite Hok | reflexivity].
      - unfold poll_try. rewrite Hok. reflexivity. }
  destruct body as [result | e].
  2:{ apply (Hthrow e); [reflexivity | reflexivity|]. unfold poll_try. now rewrite Hok. }
  clear Hthrow. unfold ends_as, poll_try, delivers, delivered. rewrite Hok. cbn [negb andb].
  rewrite (bind_normal current _ (p, rt) p (p, rt) eq_refl).
  assert (Hpay :
    exists q,
      progress p q
      /\ lastSeenTimestamp q
         = (if hasNewContent result && bool_decide (is_Some (payload result))
            then Some now else lastSeenTimestamp p)
      /\ let s1 :=
           match hasNewContent result, payload result with
           | true, Some pl =>
               bind (update (set_lastSeenTimestamp (Some now)))
                 (fun _ => invoke (onPayload (callbacks p)) (EvOnPayload self pl) pl)
           | _, _ => ret tt
           end in
         s1 (p, rt) = (Normal tt, (q, record (payload_delivery self p result) rt))
         \/ exists e, s1 (p, rt)
                      = (Throw e, (q, record (payload_delivery self p result) rt))).
  { cbv zeta. unfold payload_delivery.
    destruct (hasNewContent result); [destruct (payload result) as [pl|]|].
    - rewrite (bind_normal (update (set_lastSeenTimestamp (Some now))) _ (p, rt) tt
                 (set_lastSeenTimestamp (Some now) p, rt) eq_refl).
      exists (set_lastSeenTimestamp (Some now) p).
      split; [apply progress_seen|]. split; [reflexivity|].
      apply (invoke_cases (onPayload (callbacks p)) (EvOnPayload self pl) pl
               (set_lastSeenTimestamp (Some now) p) rt).
    - exists p. split; [apply progress_refl|].
      split; [reflexivity|]. left. now rewrite record_nil.
    - exists p. split; [apply progress_refl|].
      split; [reflexivity|]. left. now rewrite record_nil. }
  pose proof (payload_delivery_calls self p result) as Hcalls1.
  destruct Hpay as (q & Hprog1 & Hseen1 & Hs1). cbv zeta in Hs1.
  destruct Hs1 as [Hs1 | [e Hs1]].
  - rewrite (bind_normal _ _ _ _ _ Hs1).
    destruct (after_payload_ends self result (callbacks p) q
                (record (payload_delivery self p result) rt))
      as (p1 & evs & Hprog & Hcalls & Hseen & Hend).
    unfold ends_as in Hend. rewrite record_record in Hend.
    rewrite (progress_info _ _ Hprog1) in Hcalls.
    exists p1, (payload_delivery self p result ++ evs).
    split; [eapply progress_trans; eassumption|].
    split; [now apply calls_app|]. split; [congruence|].
    split; [now exists evs | exact Hend].
  - rewrite (bind_throw _ _ _ _ _ Hs1).
    exists q, (payload_delivery self p result). split; [exact Hprog1|].
    split; [exact Hcalls1|]. split; [exact Hseen1|].
    split; [exists []; now rewrite app_nil_r|]. right. right. now exists e.
Qed.

(** How a cycle ends once its fetch has settled: by booking the next cycle,
    by stopping, or by throwing out of the [catch] block.  Up to there it has
    only called handlers, [onPayload] first, and updated the controller and
    the time of the last payload. *)
Lemma poll_resume_ends self outcome now p rt :
  exists p1 evs,
    progress p p1 /\ Forall (handler_call self (linkInfo p)) evs
    /\ lastSeenTimestamp p1
       = (if delivers outcome then Some now else lastSeenTimestamp p)
    /\ (exists rest, evs = delivered self p outcome ++ rest)
    /\ ends_as self (poll_resume self outcome now) p rt p1 evs.
Proof.
  destruct (poll_try_ends self outcome now p rt)
    as (p1 & evs & Hprog & Hcalls & Hseen & Hpre & [H | [H | [e H]]]).
  - exists p1, evs. split; [exact Hprog|]. split; [exact Hcalls|].
    split; [exact Hseen|]. split; [exact Hpre|]. left.
    unfold poll_resume, try_catch. rewrite H, scheduleNextPoll_returns. reflexivity.
  - exists p1, evs. split; [exact Hprog|]. split; [exact Hcalls|].
    split; [exact Hseen|]. split; [exact Hpre|]. right. left.
    unfold poll_resume, try_catch. rewrite H, stop_returns. reflexivity.
  - destruct (poll_catch_ends self e p1 (record evs rt))
      as (p2 & evs2 & Hprog2 & Hcalls2 & Hseen2 & Hend).
    rewrite record_record in Hend. rewrite (progress_info _ _ Hprog) in Hcalls2.
    exists p2, (evs ++ evs2).
    split; [eapply progress_trans; eassumption|].
    split; [now apply calls_app|]. split; [congruence|].
    split; [destruct Hpre as [rest ->]; exists (rest ++ evs2); now rewrite app_assoc|].
    unfold ends_as, poll_resume, try_catch. rewrite H.
    destruct Hend as [Hend | Hend]; [left | right; right]; exact Hend.
Qed.

(** What the two ways of ending normally do to the poller. *)
Lemma scheduleNextPoll_state self p rt :
  let p' := fst (snd (scheduleNextPoll self (p, rt))) in
  same_identity p p' /\ adaptive p' = adaptive p
  /\ lastSeenTimestamp p' = lastSeenTimestamp p /\ isRunning p' = isRunning p.
Proof.
  cbv zeta. destruct (isRunning p) eqn:Hrun.
  - rewrite scheduleNextPoll_running by exact Hrun. cbn. now repeat split.
  - rewrite scheduleNextPoll_not_running by exact Hrun. cbn. now repeat split.
Qed.

Lemma stop_state self p rt :
  let p' := fst (snd (stop self (p, rt))) in
  same_identity p p' /\ adaptive p' = adaptive p
  /\ lastSeenTimestamp p' = lastSeenTimestamp p /\ isRunning p' = false.
Proof.
  cbv zeta. destruct (isRunning p) eqn:Hrun.
  - rewrite stop_running by exact Hrun. destruct (timeoutId p); cbn; now repeat split.
  - rewrite stop_not_running by exact Hrun. cbn. now repeat split.
Qed.

(** X13. Whatever the response and whatever the handlers do, a cycle leaves the
    link, endpoint, key, handlers and client identifier of its poller as they
    were, keeps the interval controller within what its own methods produce,
    and sets the time of the last payload to the time of the cycle exactly
    when the response was a 2xx JSON body that announced new content and
    carried a payload. *)
Theorem cycle_changes_only_pace_and_last_seen self outcome now p rt :
  let p' := fst (snd (poll_resume self outcome now (p, rt))) in
  same_identity p p'
  /\ lastSeenTimestamp p'
     = (if delivers outcome then Some now else lastSeenTimestamp p)
  /\ (AdaptivePoller.reachable (adaptive p) -> AdaptivePoller.reachable (adaptive p')).
Proof.
  cbv zeta.
  destruct (poll_resume_ends self outcome now p rt)
    as (p1 & evs & (Hid & _ & _ & Had) & _ & Hseen & _ & [H | [H | [e H]]]);
    rewrite H.
  - destruct (scheduleNextPoll_state self p1 (record evs rt)) as (Hid' & Ha & Hs & _).
    split; [eapply same_identity_trans; eassumption|].
    split; [congruence|]. now rewrite Ha.
  - destruct (stop_state self p1 (record evs rt)) as (Hid' & Ha & Hs & _).
    split; [eapply same_identity_trans; eassumption|].
    split; [congruence|]. now rewrite Ha.
  - cbn [fst snd]. auto.
Qed.

(** X14. A response that arrives after [stop()] is still handled: the
    handlers are called, [onPayload] first when there is a payload, and the
    time of the last payload is recorded; but no timer is set or cleared and
    the poller stays stopped. *)
Theorem response_after_stop_reaches_the_handlers self outcome now p rt :
  isRunning p = false ->
  let s' := snd (poll_resume self outcome now (p, rt)) in
  isRunning (fst s') = false /\ timeoutId (fst s') = timeoutId p
  /\ lastSeenTimestamp (fst s')
     = (if delivers outcome then Some now else lastSeenTimestamp p)
  /\ armed (snd s') = armed rt /\ nextTimer (snd s') = nextTimer rt
  /\ exists rest,
       trace (snd s') = trace rt ++ delivered self p outcome ++ rest
       /\ Forall (handler_call self (linkInfo p)) rest.
Proof.
  intros Hrun. cbv zeta.
  destruct (poll_resume_ends self outcome now p rt)
    as (p1 & evs & (_ & Hr & Ht & _) & Hcalls & Hseen & [rest ->] & Hend).
  assert (Hrun1 : isRunning p1 = false) by congruence.
  assert (Hs : snd (poll_resume self outcome now (p, rt))
               = (p1, record (delivered self p outcome ++ rest) rt)).
  { destruct Hend as [H | [H | [e H]]]; rewrite H.
    - now rewrite scheduleNextPoll_not_running.
    - now rewrite stop_not_running.
    - reflexivity. }
  rewrite Hs. cbn [fst snd record armed nextTimer trace].
  split; [exact Hrun1|]. split; [exact Ht|]. split; [exact Hseen|].
  split; [reflexivity|].
  split; [reflexivity|]. exists rest. split; [reflexivity|].
  apply Forall_app in Hcalls. apply Hcalls.
Qed.

(** X15. A 2xx response for an active link, with handlers that return: the
    payload is delivered if the response has one, the server's error is
    reported if it names one, the controller is fed the activity and the
    server's hint, and exactly one timer is set, at the controller's new
    interval. *)
Theorem active_cycle_books_the_next_one self status statusText result now p rt :
  isRunning p = true ->
  response_ok status = true ->
  linkStatus result = active ->
  active_handlers_return p result ->
  let a' :=
    AdaptivePoller.adjustInterval (adaptive p) (hasNewContent result)
      (nextPollIn result) in
  poll_resume self (FetchResponse status statusText (JsonOk result)) now (p, rt)
  = (Normal tt,
     (set_timeoutId (Some (nextTimer rt)) (set_adaptive a' (seen now result p)),
      {| armed := <[nextTimer rt := self]> (armed rt);
         nextTimer := (nextTimer rt + 1)%N;
         trace := trace rt
                  ++ payload_delivery self p result
                  ++ error_delivery self p result
                  ++ [EvSetTimeout self (nextTimer rt)
                        (AdaptivePoller.currentInterval a')] |})).
Proof.
  intros Hrun Hok Hact [Hpl Herr]. cbv zeta.
  assert (Htry :
    poll_try self (FetchResponse status statusText (JsonOk result)) now (p, rt)
    = scheduleNextPoll self
        (set_adaptive
           (AdaptivePoller.adjustInterval (adaptive p) (hasNewContent result)
              (nextPollIn result)) (seen now result p),
         record (payload_delivery self p result ++ error_delivery self p result) rt)).
  { unfold poll_try. rewrite Hok. cbn [negb].
    rewrite (bind_normal current _ (p, rt) p (p, rt) eq_refl).
    assert (Hs1 :
      (match hasNewContent result, payload result with
       | true, Some pl =>
           bind (update (set_lastSeenTimestamp (Some now)))
             (fun _ => invoke (onPayload (callbacks p)) (EvOnPayload self pl) pl)
       | _, _ => ret tt
       end) (p, rt)
      = (Normal tt, (seen now result p, record (payload_delivery self p result) rt))).
    { unfold seen, payload_delivery.
      destruct (hasNewContent result); [destruct (payload result) as [pl|]|].
      - rewrite (bind_normal (update (set_lastSeenTimestamp (Some now))) _ (p, rt) tt
                   (set_lastSeenTimestamp (Some now) p, rt) eq_refl).
        now rewrite (invoke_returns (onPayload (callbacks p)) (EvOnPayload self pl) pl
                       (set_lastSeenTimestamp (Some now) p) rt Hpl).
      - now rewrite record_nil.
      - now rewrite record_nil. }
    rewrite (bind_normal _ _ _ _ _ Hs1). rewrite Hact. cbn [is_active negb].
    rewrite (bind_normal (ret false) _ _ false _ eq_refl).
    assert (Hs3 :
      (if truthy_string (error result) then
         invoke (onError (callbacks p))
           (EvOnError self (str "Server error: " ++ default [] (error result)))
           (str "Server error: " ++ default [] (error result))
       else ret tt)
        (seen now result p, record (payload_delivery self p result) rt)
      = (Normal tt,
         (seen now result p,
          record (payload_delivery self p result ++ error_delivery self p result) rt))).
    { unfold error_delivery, server_error in *.
      assert (Hli : linkInfo (seen now result p) = linkInfo p).
      { unfold seen. now destruct (hasNewContent result), (payload result). }
      destruct (truthy_string (error result)).
      - rewrite <- Hli in Herr.
        rewrite (invoke_returns _ _ _ _ _ Herr), record_record, Hli. reflexivity.
      - now rewrite app_nil_r. }
    rewrite (bind_normal _ _ _ _ _ Hs3).
    assert (Had : adaptive (seen now result p) = adaptive p).
    { unfold seen. now destruct (hasNewContent result), (payload result). }
    unfold adjust.
    rewrite (bind_normal (update _) _ _ tt _ eq_refl). cbn [fst snd].
    now rewrite Had. }
  unfold poll_resume, try_catch. rewrite Htry.
  rewrite scheduleNextPoll_running.
  2:{ cbn [set_adaptive isRunning]. unfold seen.
      now destruct (hasNewContent result), (payload result). }
  unfold record. cbn [armed nextTimer trace adaptive set_adaptive].
  now rewrite <- !app_assoc.
Qed.

(** X16. Stopping a running poller and starting it again: the new cycle
    begins at once with a request that carries the time of the last payload,
    and the interval controller is as it was before the stop; nothing resets
    the back-off. *)
Theorem restart_keeps_pace_and_last_seen self now p rt :
  isRunning p = true ->
  let s1 := snd (stop self (p, rt)) in
  let '(c, (p2, rt2)) := start self now s1 in
  c = Normal true
  /\ isRunning p2 = true /\ timeoutId p2 = None
  /\ adaptive p2 = adaptive p /\ lastSeenTimestamp p2 = lastSeenTimestamp p
  /\ trace rt2
     = trace (snd s1)
       ++ [EvFetch self (endpoint p)
             (if truthy_string (apiKey p) then apiKey p else None)
             {| req_token := token (linkInfo p);
                req_type := type (linkInfo p);
                req_password := password (linkInfo p);
                req_clientId := Some (clientId p);
                req_timestamp := Some now;
                req_lastSeen := lastSeenTimestamp p |}].
Proof.
  intros Hrun. cbv zeta. rewrite stop_running by exact Hrun.
  destruct (timeoutId p) as [id|] eqn:Hid; cbn [snd].
  - rewrite SDKFacts.start_fresh by reflexivity. cbn. now repeat split.
  - rewrite SDKFacts.start_fresh by reflexivity. cbn. rewrite Hid. now repeat split.
Qed.

Lemma response_after_stop_reaches_the_handlers_witness :
  isRunning (fresh_poller (on_payload accepting)) = false
  /\ exists rest,
       trace (snd (snd (poll_resume 0 (ok payload_response) 7
                          (fresh_poller (on_payload accepting), idle_runtime))))
       = trace idle_runtime
         ++ delivered 0 (fresh_poller (on_payload accepting)) (ok payload_response)
         ++ rest
       /\ Forall (handler_call 0 (linkInfo (fresh_poller (on_payload accepting)))) rest.
Proof.
  split; [reflexivity|].
  exact (proj2 (proj2 (proj2 (proj2 (proj2
           (response_after_stop_reaches_the_handlers 0 (ok payload_response) 7
              (fresh_poller (on_payload accepting)) idle_runtime eq_refl)))))).
Defined.

Lemma active_cycle_books_the_next_one_witness :
  active_handlers_return (sample_poller (on_payload accepting)) payload_response
  /\ fst (poll_resume 0 (ok payload_response) 7
            (sample_poller (on_payload accepting), idle_runtime))
     = Normal tt.
Proof.
  assert (H : active_handlers_return (sample_poller (on_payload accepting))
                payload_response) by (split; reflexivity).
  split; [exact H|].
  exact (f_equal fst
           (active_cycle_books_the_next_one 0 200%N (str "OK") payload_response 7
              (sample_poller (on_payload accepting)) idle_runtime
              eq_refl eq_refl eq_refl H)).
Defined.

Lemma restart_keeps_pace_and_last_seen_witness :
  isRunning (sample_poller no_callbacks) = true
  /\ (let s1 := snd (stop 0 (sample_poller no_callbacks, idle_runtime)) in
      let '(c, (p2, rt2)) := start 0 9 s1 in
      c = Normal true
      /\ isRunning p2 = true /\ timeoutId p2 = None
      /\ adaptive p2 = adaptive (sample_poller no_callbacks)
      /\ lastSeenTimestamp p2 = lastSeenTimestamp (sample_poller no_callbacks)
      /\ trace rt2
         = trace (snd s1)
           ++ [EvFetch 0 (endpoint (sample_poller no_callbacks))
                 (if truthy_string (apiKey (sample_poller no_callbacks))
                  then apiKey (sample_poller no_callbacks) else None)
                 {| req_token := token (linkInfo (sample_poller no_callbacks));
                    req_type := type (linkInfo (sample_poller no_callbacks));
                    req_password := password (linkInfo (sample_poller no_callbacks));
                    req_clientId := Some (clientId (sample_poller no_callbacks));
                    req_timestamp := Some 9%Z;
                    req_lastSeen := lastSeenTimestamp (sample_poller no_callbacks) |}]).
Proof.
  split; [reflexivity|].
  exact (restart_keeps_pace_and_last_seen 0 9 (sample_poller no_callbacks)
           idle_runtime eq_refl).
Defined.

(** *** Every method takes one turn *)

Lemma handler_calls_own self p evs :
  Forall (handler_call self (linkInfo p)) evs -> Forall (own_event self p) evs.
Proof.
  intros H. eapply Forall_impl; [exact H|].
  intros [] H'; cbn in *; try contradiction; exact H'.
Qed.

Lemma evolves_refl p : evolves p p.
Proof. split; [apply same_identity_refl | auto]. Qed.

Lemma evolves_trans p1 p2 p3 : evolves p1 p2 -> evolves p2 p3 -> evolves p1 p3.
Proof.
  intros [Hi Ha] [Hi' Ha']. split; [eapply same_identity_trans; eassumption | auto].
Qed.

Lemma turns_stop self : turns self (stop self).
Proof.
  intros p rt. destruct (isRunning p) eqn:Hrun.
  - rewrite stop_running by exact Hrun. split.
    + destruct (timeoutId p); cbn [fst snd]; (split; [now repeat split | auto]).
    + apply (turn_stops _ _ _ _ _ []).
      * exact Hrun.
      * destruct (timeoutId p); reflexivity.
      * destruct (timeoutId p) eqn:E; [reflexivity | exact E].
      * destruct (timeoutId p); cbn [fst snd app]; [reflexivity|].
        rewrite app_nil_r. now destruct rt.
      * constructor.
  - rewrite stop_not_running by exact Hrun. cbn [fst snd].
    split; [apply evolves_refl|].
    apply (turn_rests _ _ _ _ _ []); try reflexivity; [|constructor].
    now rewrite record_nil.
Qed.

Lemma turns_poll_begin self now : turns self (poll_begin self now).
Proof.
  intros p rt. unfold poll_begin.
  rewrite (bind_normal current _ (p, rt) p (p, rt) eq_refl).
  destruct (isRunning p) eqn:Hrun; cbn [negb].
  - unfold bind, emit, ret. cbn [fst snd]. split; [apply evolves_refl|].
    eapply turn_rests; try reflexivity.
    repeat constructor. exact Hrun.
  - cbn [ret fst snd]. split; [apply evolves_refl|].
    apply (turn_rests _ _ _ _ _ []); try reflexivity; [|constructor].
    now rewrite record_nil.
Qed.

Lemma turns_poll_resume self outcome now : turns self (poll_resume self outcome now).
Proof.
  intros p rt.
  destruct (poll_resume_ends self outcome now p rt)
    as (p1 & evs & Hprog & Hcalls & _ & _ & Hend).
  pose proof (handler_calls_own _ _ _ Hcalls) as Hown.
  destruct Hprog as (Hid & Hr & Ht & Ha).
  destruct Hend as [H | [H | [e H]]]; rewrite H.
  - destruct (isRunning p1) eqn:Hrun1.
    + rewrite scheduleNextPoll_running by exact Hrun1. cbn [fst snd]. split.
      * split; [now repeat split; apply Hid | exact Ha].
      * apply (turn_books _ _ _ _ _ evs).
        -- congruence.
        -- exact Hrun1.
        -- reflexivity.
        -- unfold record. cbn [armed nextTimer trace adaptive set_timeoutId].
           now rewrite <- app_assoc.
        -- exact Hown.
    + rewrite scheduleNextPoll_not_running by exact Hrun1. cbn [fst snd]. split.
      * split; assumption.
      * apply (turn_rests _ _ _ _ _ evs); [congruence | exact Ht | reflexivity | exact Hown].
  - destruct (isRunning p1) eqn:Hrun1.
    + rewrite stop_running by exact Hrun1. split.
      * destruct (timeoutId p1); cbn [fst snd];
          (split; [repeat split; apply Hid | exact Ha]).
      * apply (turn_stops _ _ _ _ _ evs).
        -- congruence.
        -- destruct (timeoutId p1); reflexivity.
        -- destruct (timeoutId p1) eqn:E; [reflexivity | exact E].
        -- rewrite <- Ht. unfold record.
           destruct (timeoutId p1); cbn [fst snd armed nextTimer trace];
             now rewrite ?app_nil_r, <- ?app_assoc.
        -- exact Hown.
    + rewrite stop_not_running by exact Hrun1. cbn [fst snd]. split.
      * split; assumption.
      * apply (turn_rests _ _ _ _ _ evs); [congruence | exact Ht | reflexivity | exact Hown].
  - cbn [fst snd]. split; [split; assumption|].
    apply (turn_rests _ _ _ _ _ evs); [exact Hr | exact Ht | reflexivity | exact Hown].
Qed.

End CycleFacts.

(** ** Invariants of a run *)

Module RunFacts.
Import SDK SDKFacts LinkPollerFacts Cycle CycleFacts Run.

(** Calling a method that takes a turn. *)
Lemma call_turns {A} r (m : LinkPoller.M A) w c w' :
  turns r m -> call r m w = Some (c, w') ->
  sdk w' = sdk w /\ inflight w' = inflight w
  /\ length (heap w') = length (heap w)
  /\ (forall r', r' <> r -> heap w' !! r' = heap w !! r')
  /\ exists p p', heap w !! r = Some p /\ heap w' !! r = Some p'
       /\ evolves p p' /\ turn r p (runtime w) p' (runtime w')
       /\ c = fst (m (p, runtime w))
       /\ p' = fst (snd (m (p, runtime w)))
       /\ runtime w' = snd (snd (m (p, runtime w))).
Proof.
  intros Hm Hcall.
  destruct (call_frame _ _ _ _ _ Hcall) as (Hs & Hi & Hl & Ho & p & Hp & Hp' & Hrt & Hc).
  split; [exact Hs|]. split; [exact Hi|]. split; [exact Hl|]. split; [exact Ho|].
  exists p, (fst (snd (m (p, runtime w)))).
  destruct (Hm p (runtime w)) as [He Ht].
  split; [exact Hp|]. split; [exact Hp'|]. split; [exact He|].
  split; [now rewrite Hrt|]. auto.
Qed.

Lemma pending_same w w' r :
  inflight w' = inflight w -> armed (runtime w') = armed (runtime w) ->
  pending r w' -> pending r w.
Proof.
  unfold pending, inflight_pollers. intros -> ->. auto.
Qed.

Lemma call_tidy {A} r (m : LinkPoller.M A) w c w' :
  turns r m -> call r m w = Some (c, w') -> tidy w ->
  (nextTimer (runtime w') <> nextTimer (runtime w) ->
   ~ In r (inflight_pollers w)
   /\ (forall id, armed (runtime w) !! id <> Some r)
   /\ registered r w) ->
  tidy w'.
Proof.
  intros Hm Hcall Hw Hside.
  destruct (call_turns _ _ _ _ _ Hm Hcall)
    as (Hs & Hi & Hl & Ho & p & p' & Hp & Hp' & _ & Ht & _).
  destruct Hw as [Harmed Hhandles Hnd Hvalid Hreg].
  assert (Hinfl : inflight_pollers w' = inflight_pollers w).
  { unfold inflight_pollers. now rewrite Hi. }
  assert (Hregd : forall r0, registered r0 w -> registered r0 w').
  { unfold registered. now rewrite Hs. }
  assert (Hlook : forall (r0 : Ref) p0, heap w' !! r0 = Some p0 ->
            (r0 = r /\ p0 = p') \/ (r0 <> r /\ heap w !! r0 = Some p0)).
  { intros r0 p0 H0. destruct (decide (r0 = r)) as [->|Hne].
    - left. split; [reflexivity | congruence].
    - right. split; [exact Hne|]. now rewrite <- Ho. }
  destruct Ht as [evs Hrun Htid Hrt _ | evs Hrun Hrun' Htid Hrt _
                  | evs Hrun Hrun' Htid Hrt _].
  - (* the timer is left alone *)
    assert (Ha : armed (runtime w') = armed (runtime w)) by now rewrite Hrt.
    assert (Hn : nextTimer (runtime w') = nextTimer (runtime w)) by now rewrite Hrt.
    split.
    + intros id r0 H0. rewrite Ha in H0. rewrite Hn, Hinfl.
      destruct (Harmed id r0 H0) as (Hlt & Hnin & p0 & Hp0 & Hr0 & Ht0).
      split; [exact Hlt|]. split; [exact Hnin|].
      destruct (decide (r0 = r)) as [->|Hne].
      * exists p'. split; [exact Hp'|]. rewrite Hp in Hp0. inversion Hp0; subst p0.
        split; congruence.
      * exists p0. rewrite Ho by exact Hne. auto.
    + intros r0 p0 id H0 Hid. rewrite Hn.
      assert (Hold : forall (r1 : Ref) p1, heap w' !! r1 = Some p1 ->
                LinkPoller.timeoutId p1 = Some id ->
                exists q, heap w !! r1 = Some q /\ LinkPoller.timeoutId q = Some id).
      { intros r1 p1 H1 Hid1. destruct (Hlook r1 p1 H1) as [[-> ->] | [_ H1']].
        - exists p. split; [exact Hp | congruence].
        - exists p1. auto. }
      destruct (Hold r0 p0 H0 Hid) as (q0 & Hq0 & Hidq0).
      destruct (Hhandles r0 q0 id Hq0 Hidq0) as [Hlt Huniq].
      split; [exact Hlt|]. intros r1 p1 H1 Hid1.
      destruct (Hold r1 p1 H1 Hid1) as (q1 & Hq1 & Hidq1). eauto.
    + now rewrite Hinfl.
    + intros f Hf. rewrite Hi in Hf. rewrite Hl. now apply Hvalid.
    + intros r0 p0 H0 Hr0 Hpend. apply Hregd.
      apply (pending_same w w') in Hpend; [|exact Hi | exact Ha].
      destruct (Hlook r0 p0 H0) as [[-> ->] | [_ H0']].
      * apply (Hreg r p Hp); [congruence | exact Hpend].
      * now apply (Hreg r0 p0).
  - (* a timer is set *)
    destruct Hside as (Hnin & Hnone & Hregr).
    { rewrite Hrt. cbn. lia. }
    assert (Ha : armed (runtime w')
                 = <[nextTimer (runtime w) := r]> (armed (runtime w))) by now rewrite Hrt.
    assert (Hn : nextTimer (runtime w') = (nextTimer (runtime w) + 1)%N) by now rewrite Hrt.
    split.
    + intros id r0 H0. rewrite Ha in H0. rewrite Hn, Hinfl.
      apply lookup_insert_Some in H0. destruct H0 as [[<- <-] | [Hne H0]].
      * split; [lia|]. split; [exact Hnin|]. exists p'. auto.
      * destruct (Harmed id r0 H0) as (Hlt & Hnin0 & p0 & Hp0 & Hr0 & Ht0).
        split; [lia|]. split; [exact Hnin0|].
        assert (Hne0 : r0 <> r) by (intros ->; now apply (Hnone id)).
        exists p0. rewrite Ho by exact Hne0. auto.
    + intros r0 p0 id H0 Hid. rewrite Hn.
      destruct (Hlook r0 p0 H0) as [[-> ->] | [Hne0 H0']].
      * rewrite Htid in Hid. inversion Hid; subst id. split; [lia|].
        intros r1 p1 H1 Hid1. destruct (Hlook r1 p1 H1) as [[-> _] | [_ H1']];
          [reflexivity|].
        destruct (Hhandles r1 p1 _ H1' Hid1) as [Hlt _]. lia.
      * destruct (Hhandles r0 p0 id H0' Hid) as [Hlt Huniq]. split; [lia|].
        intros r1 p1 H1 Hid1. destruct (Hlook r1 p1 H1) as [[-> ->] | [_ H1']].
        -- rewrite Htid in Hid1. inversion Hid1; subst id. lia.
        -- eauto.
    + now rewrite Hinfl.
    + intros f Hf. rewrite Hi in Hf. rewrite Hl. now apply Hvalid.
    + intros r0 p0 H0 Hr0 Hpend. apply Hregd.
      destruct (Hlook r0 p0 H0) as [[-> ->] | [Hne0 H0']]; [exact Hregr|].
      apply (Hreg r0 p0 H0' Hr0).
      destruct Hpend as [Hin | [id Hid]].
      * left. now rewrite <- Hinfl.
      * right. rewrite Ha in Hid. apply lookup_insert_Some in Hid.
        destruct Hid as [[_ <-] | [_ Hid]]; [contradiction | eauto].
  - (* the poller stops *)
    assert (Hsub : forall id r0, armed (runtime w') !! id = Some r0 ->
              armed (runtime w) !! id = Some r0
              /\ LinkPoller.timeoutId p <> Some id).
    { intros id r0. rewrite Hrt. cbn [armed].
      destruct (LinkPoller.timeoutId p) as [tid|].
      - intros H0. apply lookup_delete_Some in H0. destruct H0 as [Hne H0].
        split; [exact H0 | congruence].
      - intros H0. split; [exact H0 | discriminate]. }
    assert (Hn : nextTimer (runtime w') = nextTimer (runtime w)) by now rewrite Hrt.
    assert (Hnot : forall id r0, armed (runtime w') !! id = Some r0 -> r0 <> r).
    { intros id r0 H0 ->. destruct (Hsub id r H0) as [H0' Hne].
      destruct (Harmed id r H0') as (_ & _ & p0 & Hp0 & _ & Ht0).
      rewrite Hp in Hp0. inversion Hp0; subst p0. contradiction. }
    split.
    + intros id r0 H0. rewrite Hn, Hinfl.
      pose proof (Hnot id r0 H0) as Hne0.
      destruct (Hsub id r0 H0) as [H0' _].
      destruct (Harmed id r0 H0') as (Hlt & Hnin0 & p0 & Hp0 & Hr0 & Ht0).
      split; [exact Hlt|]. split; [exact Hnin0|].
      exists p0. rewrite Ho by exact Hne0. auto.
    + intros r0 p0 id H0 Hid. rewrite Hn.
      destruct (Hlook r0 p0 H0) as [[-> ->] | [Hne0 H0']]; [congruence|].
      destruct (Hhandles r0 p0 id H0' Hid) as [Hlt Huniq]. split; [exact Hlt|].
      intros r1 p1 H1 Hid1. destruct (Hlook r1 p1 H1) as [[-> ->] | [_ H1']];
        [congruence | eauto].
    + now rewrite Hinfl.
    + intros f Hf. rewrite Hi in Hf. rewrite Hl. now apply Hvalid.
    + intros r0 p0 H0 Hr0 Hpend. apply Hregd.
      destruct (Hlook r0 p0 H0) as [[-> ->] | [Hne0 H0']]; [congruence|].
      apply (Hreg r0 p0 H0' Hr0).
      destruct Hpend as [Hin | [id Hid]].
      * left. now rewrite <- Hinfl.
      * right. exists id. now apply Hsub.
Qed.

(** *** Methods that leave the clock of handles alone *)

Lemma stop_nextTimer self p rt :
  nextTimer (snd (snd (LinkPoller.stop self (p, rt)))) = nextTimer rt.
Proof.
  destruct (LinkPoller.isRunning p) eqn:Hrun.
  - rewrite stop_running by exact Hrun. now destruct (LinkPoller.timeoutId p).
  - now rewrite stop_not_running.
Qed.

Lemma poll_begin_effect self now p rt :
  exists evs,
    LinkPoller.poll_begin self now (p, rt)
    = (Normal (LinkPoller.isRunning p), (p, record evs rt)).
Proof.
  unfold LinkPoller.poll_begin.
  rewrite (bind_normal LinkPoller.current _ (p, rt) p (p, rt) eq_refl).
  destruct (LinkPoller.isRunning p); cbn [negb].
  - eexists [_]. reflexivity.
  - exists []. now rewrite record_nil.
Qed.

Lemma poll_resume_throws self outcome now p rt e :
  fst (LinkPoller.poll_resume self outcome now (p, rt)) = Throw e ->
  armed (snd (snd (LinkPoller.poll_resume self outcome now (p, rt)))) = armed rt.
Proof.
  destruct (poll_resume_ends self outcome now p rt)
    as (p1 & evs & _ & _ & _ & _ & [H | [H | [e' H]]]); rewrite H.
  - rewrite scheduleNextPoll_returns. discriminate.
  - rewrite stop_returns. discriminate.
  - reflexivity.
Qed.

(** *** Bookkeeping around a call *)

Lemma disarm_tidy id w : tidy w -> tidy (disarm id w).
Proof.
  intros [Harmed Hhandles Hnd Hvalid Hreg]. split; cbn.
  - intros id' r H0. apply lookup_delete_Some in H0. destruct H0 as [_ H0].
    now apply Harmed.
  - exact Hhandles.
  - exact Hnd.
  - exact Hvalid.
  - intros r p Hp Hr Hpend. apply (Hreg r p Hp Hr).
    destruct Hpend as [Hin | [id' Hid']]; [now left | right].
    cbn in Hid'. apply lookup_delete_Some in Hid'. exists id'. tauto.
Qed.

Lemma delete_sublist {A} k (l : list A) x : In x (delete k l) -> In x l.
Proof.
  intros H. apply list_elem_of_In in H. apply list_elem_of_In.
  eapply elem_of_sublist; [exact H | apply sublist_delete].
Qed.

Lemma NoDup_delete_lookup {A} (l : list A) k x :
  NoDup l -> l !! k = Some x -> ~ In x (delete k l).
Proof.
  revert k. induction l as [|a l IH]; intros [|k] Hnd Hk; cbn in *; try discriminate.
  - inversion Hk; subst a. apply NoDup_cons in Hnd. destruct Hnd as [Hnin _].
    intros H. apply Hnin. now apply list_elem_of_In.
  - apply NoDup_cons in Hnd. destruct Hnd as [Hnin Hnd]. intros [-> | H].
    + apply Hnin. eapply list_elem_of_lookup_2. exact Hk.
    + now apply (IH k).
Qed.

Lemma inflight_pollers_delete k w :
  inflight_pollers (set_inflight (delete k (inflight w)) w)
  = delete k (inflight_pollers w).
Proof.
  unfold inflight_pollers. cbn. generalize (inflight w) as l. clear w.
  intros l. revert k. induction l as [|f l IH]; intros [|k]; cbn; try reflexivity.
  now rewrite IH.
Qed.

Lemma dequeue_tidy k w : tidy w -> tidy (set_inflight (delete k (inflight w)) w).
Proof.
  intros [Harmed Hhandles Hnd Hvalid Hreg].
  assert (Hsub : forall r, In r (inflight_pollers (set_inflight (delete k (inflight w)) w)) ->
                           In r (inflight_pollers w)).
  { intros r. rewrite inflight_pollers_delete. apply delete_sublist. }
  split.
  - intros id r H0. cbn in H0. destruct (Harmed id r H0) as (Hlt & Hnin & Hp).
    split; [exact Hlt|]. split; [|exact Hp]. intros Hin. apply Hnin. now apply Hsub.
  - exact Hhandles.
  - rewrite inflight_pollers_delete. eapply sublist_NoDup; [exact Hnd | apply sublist_delete].
  - intros f Hf. cbn in Hf. apply delete_sublist in Hf. now apply Hvalid.
  - intros r p Hp Hr Hpend. apply (Hreg r p Hp Hr).
    destruct Hpend as [Hin | Hid]; [left; now apply Hsub | now right].
Qed.

Lemma enqueue_tidy f w :
  tidy w ->
  ~ In (in_poller f) (inflight_pollers w) ->
  (forall id, armed (runtime w) !! id <> Some (in_poller f)) ->
  in_poller f < length (heap w) ->
  (forall id, in_listener f = Some id ->
     exists t, id = listenerId t (N.of_nat (in_poller f) + 1)) ->
  (forall p, heap w !! in_poller f = Some p -> LinkPoller.isRunning p = true ->
     registered (in_poller f) w) ->
  tidy (set_inflight (inflight w ++ [f]) w).
Proof.
  intros [Harmed Hhandles Hnd Hvalid Hreg] Hnin Hnone Hlt Hlid Hregf.
  assert (Hin : forall r, In r (inflight_pollers (set_inflight (inflight w ++ [f]) w))
                          <-> In r (inflight_pollers w) \/ r = in_poller f).
  { intros r. unfold inflight_pollers. cbn. rewrite map_app, in_app_iff. cbn.
    intuition congruence. }
  split.
  - intros id r H0. cbn in H0. destruct (Harmed id r H0) as (Hlt0 & Hnin0 & Hp).
    split; [exact Hlt0|]. split; [|exact Hp]. rewrite Hin. intros [H | ->].
    + contradiction.
    + now apply (Hnone id).
  - exact Hhandles.
  - unfold inflight_pollers. cbn. rewrite map_app. cbn.
    apply NoDup_app. split; [exact Hnd|]. split; [|apply NoDup_singleton].
    intros r Hr Hr'. apply list_elem_of_In in Hr. apply list_elem_of_In in Hr'.
    destruct Hr' as [<- | []]. contradiction.
  - intros f0 Hf0. cbn in Hf0. apply in_app_iff in Hf0.
    destruct Hf0 as [Hf0 | [<- | []]]; [now apply Hvalid | auto].
  - intros r p Hp Hr Hpend. unfold registered. cbn.
    destruct Hpend as [Hin0 | Hid].
    + apply Hin in Hin0. destruct Hin0 as [Hin0 | ->].
      * apply (Hreg r p Hp Hr). now left.
      * now apply (Hregf p).
    + apply (Hreg r p Hp Hr). now right.
Qed.

Lemma forget_tidy id w :
  tidy w ->
  (forall (r : Ref) p, heap w !! r = Some p -> LinkPoller.isRunning p = true ->
     pending r w -> activeListeners (sdk w) !! id <> Some r) ->
  tidy (forget id w).
Proof.
  intros [Harmed Hhandles Hnd Hvalid Hreg] Hother. split; try assumption.
  intros r p Hp Hr Hpend. cbn in Hp.
  assert (Hpend' : pending r w) by exact Hpend.
  destruct (Hreg r p Hp Hr Hpend') as [id' Hid'].
  exists id'. cbn. rewrite lookup_delete_ne; [exact Hid'|].
  intros <-. now apply (Hother r p).
Qed.

(** *** The loop of [stopAll] *)

Lemma stops_fold (P : World -> Prop) :
  (forall r w c w', P w -> call r (LinkPoller.stop r) w = Some (c, w') -> P w') ->
  forall (entries : list (jsstring * Ref)) w, P w ->
    P (fold_left
         (fun w entry =>
            match call (snd entry) (LinkPoller.stop (snd entry)) w with
            | Some (_, w') => w'
            | None => w
            end) entries w).
Proof.
  intros Hstep entries. induction entries as [|[id r] entries IH]; intros w Hw; cbn.
  - exact Hw.
  - destruct (call r (LinkPoller.stop r) w) as [[c w']|] eqn:Hcall.
    + apply IH. eapply Hstep; eassumption.
    + now apply IH.
Qed.

Lemma call_stop_halted r r' w c w' :
  halted r w -> call r' (LinkPoller.stop r') w = Some (c, w') -> halted r w'.
Proof.
  intros Hh Hcall p' Hp'.
  destruct (call_turns _ _ _ _ _ (turns_stop r') Hcall)
    as (_ & _ & _ & Ho & p & q & Hp & Hq & _ & _ & _ & Hq' & _).
  destruct (decide (r = r')) as [->|Hne].
  - rewrite Hq in Hp'. inversion Hp'; subst p'. rewrite Hq'. apply stop_state.
  - rewrite Ho in Hp' by exact Hne. now apply Hh.
Qed.

Lemma stops_fold_halts (entries : list (jsstring * Ref)) w id r :
  In (id, r) entries ->
  halted r (fold_left
              (fun w entry =>
                 match call (snd entry) (LinkPoller.stop (snd entry)) w with
                 | Some (_, w') => w'
                 | None => w
                 end) entries w).
Proof.
  revert w. induction entries as [|[id0 r0] entries IH]; intros w Hin; [destruct Hin|].
  destruct Hin as [Heq | Hin]; [|now apply IH].
  inversion Heq; subst id0 r0. cbn.
  apply (stops_fold (halted r)).
  { intros r' w0 c w0' Hh Hcall. eapply call_stop_halted; eassumption. }
  destruct (call r (LinkPoller.stop r) w) as [[c w']|] eqn:Hcall.
  - intros p' Hp'.
    destruct (call_turns _ _ _ _ _ (turns_stop r) Hcall)
      as (_ & _ & _ & _ & p & q & Hp & Hq & _ & _ & _ & Hq' & _).
    rewrite Hq in Hp'. inversion Hp'; subst p'. rewrite Hq'. apply stop_state.
  - intros p Hp. unfold call in Hcall. rewrite Hp in Hcall.
    destruct (LinkPoller.stop r (p, runtime w)) as [c [p' rt']]. discriminate.
Qed.

Lemma call_stop_tidy r w c w' :
  tidy w -> call r (LinkPoller.stop r) w = Some (c, w') -> tidy w'.
Proof.
  intros Hw Hcall. apply (call_tidy _ _ _ _ _ (turns_stop r) Hcall Hw).
  intros Hn. exfalso. apply Hn.
  destruct (call_turns _ _ _ _ _ (turns_stop r) Hcall)
    as (_ & _ & _ & _ & p & q & _ & _ & _ & _ & _ & _ & Hrt).
  rewrite Hrt. apply stop_nextTimer.
Qed.

Lemma clear_tidy w :
  tidy w ->
  (forall id r, activeListeners (sdk w) !! id = Some r -> halted r w) ->
  tidy (set_sdk (set_activeListeners ∅ (sdk w)) w).
Proof.
  intros Hw Hhalt. pose proof Hw as [Harmed Hhandles Hnd Hvalid Hreg].
  split; try assumption.
  intros r p Hp Hr Hpend. exfalso.
  assert (Hpend' : pending r w) by exact Hpend.
  destruct (Hreg r p Hp Hr Hpend') as [id Hid].
  specialize (Hhalt id r Hid p Hp). congruence.
Qed.

Lemma stopAll_tidy w : tidy w -> tidy (stopAll w).
Proof.
  intros Hw. unfold stopAll.
  set (w1 := fold_left _ _ w).
  assert (H1 : tidy w1 /\ sdk w1 = sdk w).
  { apply (stops_fold (fun w0 => tidy w0 /\ sdk w0 = sdk w)); [|auto].
    intros r w0 c w0' [Ht Hs] Hcall. split; [eapply call_stop_tidy; eassumption|].
    destruct (call_frame _ _ _ _ _ Hcall) as (Hs' & _). congruence. }
  destruct H1 as [Ht1 Hs1]. apply clear_tidy; [exact Ht1|].
  intros id r Hid. rewrite Hs1 in Hid.
  apply (stops_fold_halts _ w id r).
  apply list_elem_of_In. now apply elem_of_map_to_list.
Qed.

Lemma stopListening_tidy id w : tidy w -> tidy (stopListening id w).
Proof.
  intros Hw. unfold stopListening.
  destruct (activeListeners (sdk w) !! id) as [r|] eqn:Hid; [|exact Hw].
  destruct (call r (LinkPoller.stop r) w) as [[c w']|] eqn:Hcall.
  - apply forget_tidy; [eapply call_stop_tidy; eassumption|].
    intros r0 p0 Hp0 Hr0 _ Hid0.
    destruct (call_turns _ _ _ _ _ (turns_stop r) Hcall)
      as (Hs & _ & _ & _ & p & q & Hp & Hq & _ & _ & _ & Hq' & _).
    rewrite Hs, Hid in Hid0. inversion Hid0; subst r0.
    rewrite Hq in Hp0. inversion Hp0; subst p0.
    rewrite Hq' in Hr0.
    destruct (stop_state r p (runtime w)) as (_ & _ & _ & Hstop). congruence.
  - apply forget_tidy; [exact Hw|].
    intros r0 p0 Hp0 _ _ Hid0. rewrite Hid in Hid0. inversion Hid0; subst r0.
    unfold call in Hcall. rewrite Hp0 in Hcall.
    destruct (LinkPoller.stop r (p0, runtime w)) as [c [p' rt']]. discriminate.
Qed.

Section Platform.
Variable URL_new : jsstring -> option URLObject.

Lemma startListening_tidy url cbs t1 t2 t3 rnd w :
  well_numbered w -> tidy w ->
  tidy (fst (startListening URL_new url cbs t1 t2 t3 rnd w)).
Proof.
  intros [Hc Hnum] Hw.
  destruct (startListening_cases URL_new url cbs t1 t2 t3 rnd w)
    as [(e & -> & _) | (info & p & _ & _ & Hrun & _ & _ & Htid & _ & ev & _ & ->)];
    cbn [fst]; [exact Hw|].
  destruct Hw as [Harmed Hhandles Hnd Hvalid Hreg].
  assert (Hlook : forall (r0 : Ref) p0, (heap w ++ [p]) !! r0 = Some p0 ->
            (r0 < length (heap w) /\ heap w !! r0 = Some p0)
            \/ (r0 = length (heap w) /\ p0 = p)).
  { intros r0 p0 H0. apply lookup_app_Some in H0.
    destruct H0 as [H0 | [Hge H0]].
    - left. split; [now apply lookup_lt_Some in H0 | exact H0].
    - right. apply list_lookup_singleton_Some in H0. destruct H0 as [H0 <-].
      split; [lia | reflexivity]. }
  assert (Hin : forall r, In r (map in_poller
                                  (inflight w
                                   ++ [{| in_poller := length (heap w);
                                          in_listener :=
                                            Some (listenerId t1
                                                    (listenerCounter (sdk w) + 1)) |}]))
                          <-> In r (inflight_pollers w) \/ r = length (heap w)).
  { intros r. rewrite map_app, in_app_iff. cbn. unfold inflight_pollers.
    intuition congruence. }
  assert (Hfresh : ~ In (length (heap w)) (inflight_pollers w)).
  { intros H. apply in_map_iff in H. destruct H as (f & Hf & Hin').
    destruct (Hvalid f Hin') as [Hlt _]. lia. }
  split; cbn [runtime heap inflight sdk record armed nextTimer].
  - intros id r0 H0. destruct (Harmed id r0 H0) as (Hlt & Hnin & p0 & Hp0 & Hr0 & Ht0).
    split; [exact Hlt|]. split.
    + unfold inflight_pollers. cbn [inflight]. rewrite Hin. intros [H | ->].
      * contradiction.
      * apply lookup_lt_Some in Hp0. lia.
    + exists p0. split; [now apply lookup_app_l_Some | auto].
  - intros r0 p0 id H0 Hid.
    destruct (Hlook r0 p0 H0) as [[_ H0'] | [_ ->]]; [|congruence].
    destruct (Hhandles r0 p0 id H0' Hid) as [Hlt Huniq]. split; [exact Hlt|].
    intros r1 p1 H1 Hid1.
    destruct (Hlook r1 p1 H1) as [[_ H1'] | [_ ->]]; [eauto | congruence].
  - unfold inflight_pollers. cbn [inflight]. rewrite map_app. cbn.
    apply NoDup_app. split; [exact Hnd|]. split; [|apply NoDup_singleton].
    intros r Hr Hr'. apply list_elem_of_In in Hr. apply list_elem_of_In in Hr'.
    destruct Hr' as [<- | []]. contradiction.
  - intros f Hf. rewrite length_app. cbn [length].
    apply in_app_iff in Hf. destruct Hf as [Hf | [<- | []]].
    + destruct (Hvalid f Hf) as [Hlt Hid]. split; [lia | exact Hid].
    + cbn. split; [lia|]. intros id [= <-]. exists t1. now rewrite Hc.
  - intros r0 p0 H0 Hr0 Hpend. unfold registered. cbn [sdk activeListeners set_activeListeners].
    destruct (Hlook r0 p0 H0) as [[Hlt H0'] | [-> ->]].
    + assert (Hpend' : pending r0 w).
      { destruct Hpend as [H | H]; [|now right].
        unfold inflight_pollers in H. cbn [inflight] in H. apply Hin in H.
        destruct H as [H | ->]; [now left | lia]. }
      destruct (Hreg r0 p0 H0' Hr0 Hpend') as [id Hid]. exists id.
      rewrite lookup_insert_ne; [exact Hid|].
      intros Heq. destruct (Hnum id r0 Hid) as (_ & t & ->).
      apply listenerId_inj in Heq. lia.
    + eexists. apply lookup_insert_eq.
Qed.

Lemma timerFires_tidy id now w : tidy w -> tidy (fst (timerFires id now w)).
Proof.
  intros Hw. unfold timerFires.
  destruct (armed (runtime w) !! id) as [r|] eqn:Hid; [|exact Hw].
  destruct (call r (LinkPoller.poll_begin r now) (disarm id w)) as [[c w']|] eqn:Hcall;
    [|exact Hw].
  destruct (call_turns _ _ _ _ _ (turns_poll_begin r now) Hcall)
    as (Hs & Hi & Hl & Ho & p & q & Hp & Hq & _ & _ & Hc & Hq' & Hrt).
  destruct (poll_begin_effect r now p (runtime (disarm id w))) as [evs Hpb].
  rewrite Hpb in Hc, Hq', Hrt. cbn [fst snd] in Hc, Hq', Hrt. subst q.
  assert (Hw' : tidy w').
  { apply (call_tidy _ _ _ _ _ (turns_poll_begin r now) Hcall (disarm_tidy id w Hw)).
    intros Hn. exfalso. apply Hn. now rewrite Hrt. }
  destruct (tidy_armed w Hw id r Hid) as (_ & Hnin & p0 & Hp0 & Hr0 & Ht0).
  cbn [disarm heap] in Hp. rewrite Hp0 in Hp. inversion Hp; subst p0.
  destruct c as [[|]|e]; cbn [fst]; try exact Hw'.
  apply enqueue_tidy; cbn [in_poller in_listener]; try exact Hw'.
  - unfold inflight_pollers. now rewrite Hi.
  - intros id' Hid'. rewrite Hrt in Hid'. cbn in Hid'.
    apply lookup_delete_Some in Hid'. destruct Hid' as [Hne Hid'].
    destruct (tidy_armed w Hw id' r Hid') as (_ & _ & p1 & Hp1 & _ & Ht1).
    congruence.
  - rewrite Hl. cbn. now apply lookup_lt_Some in Hp0.
  - discriminate.
  - intros _ _ _. destruct (tidy_registered w Hw r p Hp0 Hr0) as [lid Hlid].
    { right. eauto. }
    exists lid. now rewrite Hs.
Qed.

Lemma fetchSettles_tidy k outcome now w :
  well_numbered w -> tidy w -> tidy (fst (fetchSettles k outcome now w)).
Proof.
  intros [_ Hnum] Hw. unfold fetchSettles.
  destruct (inflight w !! k) as [f|] eqn:Hk; [|exact Hw].
  set (w0 := set_inflight (delete k (inflight w)) w).
  destruct (call (in_poller f) (LinkPoller.poll_resume (in_poller f) outcome now) w0)
    as [[c w']|] eqn:Hcall; [|exact Hw].
  destruct (call_turns _ _ _ _ _ (turns_poll_resume (in_poller f) outcome now) Hcall)
    as (Hs & Hi & Hl & Ho & p & q & Hp & Hq & _ & _ & Hc & Hq' & Hrt).
  assert (Hf : In f (inflight w)).
  { apply list_elem_of_In. eapply list_elem_of_lookup_2. exact Hk. }
  assert (Hin : In (in_poller f) (inflight_pollers w)).
  { unfold inflight_pollers. now apply in_map. }
  assert (Hnone : forall id, armed (runtime w) !! id <> Some (in_poller f)).
  { intros id Hid. now destruct (tidy_armed w Hw id _ Hid) as (_ & Hnin & _). }
  assert (Hgone : ~ In (in_poller f) (inflight_pollers w0)).
  { unfold w0. rewrite inflight_pollers_delete.
    apply NoDup_delete_lookup; [apply (tidy_inflight w Hw)|].
    unfold inflight_pollers. now rewrite list_lookup_fmap, Hk. }
  assert (Hp0 : heap w !! in_poller f = Some p) by exact Hp.
  assert (Hw' : tidy w').
  { apply (call_tidy _ _ _ _ _ (turns_poll_resume (in_poller f) outcome now) Hcall
             (dequeue_tidy k w Hw)).
    intros Hn. split; [exact Hgone|]. split; [exact Hnone|].
    destruct (turns_poll_resume (in_poller f) outcome now p (runtime w0)) as [_ Ht].
    rewrite <- Hq', <- Hrt in Ht.
    destruct Ht as [evs _ _ Hrt' _ | evs Hrun _ _ _ _ | evs _ _ _ Hrt' _].
    - exfalso. apply Hn. now rewrite Hrt'.
    - apply (tidy_registered w Hw _ p Hp0 Hrun). now left.
    - exfalso. apply Hn. now rewrite Hrt'. }
  destruct (in_listener f) as [lid|] eqn:Hlid; destruct c as [[]|e]; cbn [fst];
    try exact Hw'.
  apply forget_tidy; [exact Hw'|].
  intros r0 p0 Hr0p0 Hrun0 Hpend Htable.
  rewrite Hs in Htable. cbn [w0 set_inflight sdk] in Htable.
  destruct (Hnum lid r0 Htable) as (_ & t & Heq).
  destruct (tidy_valid w Hw f Hf) as (_ & Hfid).
  destruct (Hfid lid Hlid) as [t' Heq']. rewrite Heq in Heq'.
  apply listenerId_inj in Heq'. assert (r0 = in_poller f) by lia. subst r0.
  destruct Hpend as [Hin' | [id Hid]].
  - apply Hgone. unfold inflight_pollers in *. now rewrite <- Hi.
  - symmetry in Hc.
    pose proof (poll_resume_throws _ _ _ _ _ _ Hc) as Harm.
    rewrite <- Hrt in Harm. rewrite Harm in Hid. now apply (Hnone id).
Qed.

Lemma step_tidy w op : well_numbered w -> tidy w -> tidy (fst (step URL_new w op)).
Proof.
  intros Hnum Hw.
  destruct op as [url cbs t1 t2 t3 rnd | id | | id now | k outcome now]; cbn [step fst].
  - now apply startListening_tidy.
  - now apply stopListening_tidy.
  - now apply stopAll_tidy.
  - now apply timerFires_tidy.
  - now apply fetchSettles_tidy.
Qed.

End Platform.

(** *** Sound events *)

Section Sound.
Variables (ep0 : jsstring) (key0 : option jsstring).

Lemma sound_event_mono h h' e :
  (forall (r : Ref) p, h !! r = Some p ->
     exists p', h' !! r = Some p' /\ same_identity p p') ->
  sound_event ep0 key0 h e -> sound_event ep0 key0 h' e.
Proof.
  intros Hh. destruct e as [r ep auth body | r pl i | r st i | r msg i | r id d | r id];
    cbn; auto.
  - intros (He & Ha & p & Hp & Hrest).
    destruct (Hh r p Hp) as (p' & Hp' & Hi & _ & _ & _ & _ & Hc).
    split; [exact He|]. split; [exact Ha|].
    exists p'. split; [exact Hp'|]. now rewrite Hi, Hc.
  - intros (p & Hp & -> & Hv). destruct (Hh r p Hp) as (p' & Hp' & Hi & _).
    exists p'. rewrite Hi. auto.
  - intros (p & Hp & -> & Hv). destruct (Hh r p Hp) as (p' & Hp' & Hi & _).
    exists p'. rewrite Hi. auto.
  - intros (p & Hp & -> & Hv). destruct (Hh r p Hp) as (p' & Hp' & Hi & _).
    exists p'. rewrite Hi. auto.
Qed.

Lemma own_event_sound h r p p' e :
  h !! r = Some p' -> same_identity p p' ->
  LinkPoller.endpoint p = ep0 -> LinkPoller.apiKey p = key0 ->
  isValid (LinkPoller.linkInfo p) = true ->
  own_event r p e -> sound_event ep0 key0 h e.
Proof.
  intros Hp' (Hi & _ & _ & _ & _ & Hc) He Hk Hv.
  destruct e as [r0 ep auth body | r0 pl i | r0 st i | r0 msg i | r0 id d | r0 id];
    cbn; try contradiction.
  - intros (-> & _ & -> & -> & Hrest).
    split; [exact He|]. split; [now rewrite Hk|].
    exists p'. split; [exact Hp'|]. now rewrite Hi, Hc.
  - intros (-> & ->). exists p'. rewrite Hi. auto.
  - intros (-> & ->). exists p'. rewrite Hi. auto.
  - intros (-> & ->). exists p'. rewrite Hi. auto.
Qed.

Lemma call_healthy {A} r (m : LinkPoller.M A) w c w' :
  turns r m -> call r m w = Some (c, w') -> healthy ep0 key0 w -> healthy ep0 key0 w'.
Proof.
  intros Hm Hcall (Hep & Hkey & Hcfg & Hsound).
  destruct (call_turns _ _ _ _ _ Hm Hcall)
    as (Hs & _ & _ & Ho & p & p' & Hp & Hp' & [Hid Hev] & Ht & _).
  destruct (Hcfg r p Hp) as (Hreach & Hpe & Hpk & Hpv & Hpt).
  assert (Hheap : forall (r0 : Ref) p0, heap w !! r0 = Some p0 ->
            exists p0', heap w' !! r0 = Some p0' /\ same_identity p0 p0').
  { intros r0 p0 H0. destruct (decide (r0 = r)) as [->|Hne].
    - exists p'. split; [exact Hp'|]. rewrite Hp in H0. inversion H0; subst p0.
      exact Hid.
    - exists p0. rewrite Ho by exact Hne. split; [exact H0 | apply same_identity_refl]. }
  assert (Hcfg' : forall (r0 : Ref) p0, heap w' !! r0 = Some p0 ->
            AdaptivePoller.reachable (LinkPoller.adaptive p0)
            /\ LinkPoller.endpoint p0 = ep0 /\ LinkPoller.apiKey p0 = key0
            /\ isValid (LinkPoller.linkInfo p0) = true
            /\ 16 <= length (token (LinkPoller.linkInfo p0)) <= 64).
  { intros r0 p0 H0. destruct (decide (r0 = r)) as [->|Hne].
    - rewrite Hp' in H0. inversion H0; subst p0.
      destruct Hid as (Hi & He & Hk & _).
      split; [now apply Hev|]. now rewrite Hi, He, Hk.
    - rewrite Ho in H0 by exact Hne. now apply (Hcfg r0). }
  split; [now rewrite Hs|]. split; [now rewrite Hs|]. split; [exact Hcfg'|].
  assert (Hold : Forall (sound_event ep0 key0 (heap w')) (trace (runtime w))).
  { eapply Forall_impl; [exact Hsound|]. intros e. now apply sound_event_mono. }
  assert (Hown : forall evs, Forall (own_event r p) evs ->
                             Forall (sound_event ep0 key0 (heap w')) evs).
  { intros evs H. eapply Forall_impl; [exact H|]. intros e.
    now apply (own_event_sound _ r p p'). }
  destruct Ht as [evs _ _ Hrt Hevs | evs _ _ _ Hrt Hevs | evs _ _ _ Hrt Hevs];
    rewrite Hrt; cbn [trace record].
  - apply Forall_app. split; [exact Hold | now apply Hown].
  - apply Forall_app. split; [exact Hold|].
    apply Forall_app. split; [now apply Hown|].
    constructor; [|constructor]. cbn.
    apply AdaptivePollerMore.floor_of_reachable. now apply (Hcfg' r).
  - apply Forall_app. split; [exact Hold|].
    apply Forall_app. split; [now apply Hown|].
    destruct (LinkPoller.timeoutId p); repeat constructor.
Qed.

Lemma healthy_frame w w' :
  pollingEndpoint (sdk w') = pollingEndpoint (sdk w) ->
  apiKey (sdk w') = apiKey (sdk w) ->
  heap w' = heap w -> runtime w' = runtime w ->
  healthy ep0 key0 w -> healthy ep0 key0 w'.
Proof. unfold healthy. now intros -> -> -> ->. Qed.

Lemma stopAll_healthy w : healthy ep0 key0 w -> healthy ep0 key0 (stopAll w).
Proof.
  intros Hw. unfold stopAll. set (w1 := fold_left _ _ w).
  apply (healthy_frame w1); try reflexivity.
  apply (stops_fold (healthy ep0 key0)); [|exact Hw].
  intros r w0 c w0' H0 Hcall. exact (call_healthy _ _ _ _ _ (turns_stop r) Hcall H0).
Qed.

Lemma stopListening_healthy id w :
  healthy ep0 key0 w -> healthy ep0 key0 (stopListening id w).
Proof.
  intros Hw. unfold stopListening.
  destruct (activeListeners (sdk w) !! id) as [r|]; [|exact Hw].
  destruct (call r (LinkPoller.stop r) w) as [[c w']|] eqn:Hcall.
  - apply (healthy_frame w'); try reflexivity.
    exact (call_healthy _ _ _ _ _ (turns_stop r) Hcall Hw).
  - now apply (healthy_frame w).
Qed.

Section Steps.
Variable URL_new : jsstring -> option URLObject.

(** A call of [startListening] that passes validation, in full. *)
Lemma startListening_suspends url cbs t1 t2 t3 rnd w info :
  validateLink URL_new (sdk w) url = Normal info -> isValid info = true ->
  let counter := (listenerCounter (sdk w) + 1)%N in
  let self := set_listenerCounter counter (sdk w) in
  let p := LinkPoller.new info (pollerOptions self info cbs) (generateClientId t2 rnd) in
  startListening URL_new url cbs t1 t2 t3 rnd w
  = ({| sdk := set_activeListeners
                 (<[listenerId t1 counter := length (heap w)]> (activeListeners (sdk w)))
                 self;
        heap := heap w ++ [LinkPoller.set_isRunning true p];
        runtime :=
          record [EvFetch (length (heap w)) (LinkPoller.endpoint p)
                    (if truthy_string (LinkPoller.apiKey p)
                     then LinkPoller.apiKey p else None)
                    {| req_token := token info; req_type := type info;
                       req_password := password info;
                       req_clientId := Some (LinkPoller.clientId p);
                       req_timestamp := Some t3;
                       req_lastSeen := None |}] (runtime w);
        inflight := inflight w
                    ++ [{| in_poller := length (heap w);
                           in_listener := Some (listenerId t1 counter) |}] |},
     Suspended (listenerId t1 counter)).
Proof.
  intros Hv Hvalid. cbv zeta. unfold startListening. rewrite Hv, Hvalid. cbn [negb].
  rewrite start_fresh by reflexivity. reflexivity.
Qed.

Lemma startListening_healthy url cbs t1 t2 t3 rnd w :
  healthy ep0 key0 w ->
  healthy ep0 key0 (fst (startListening URL_new url cbs t1 t2 t3 rnd w)).
Proof.
  intros (Hep & Hkey & Hcfg & Hsound).
  destruct (startListening_cases URL_new url cbs t1 t2 t3 rnd w)
    as [(e & -> & _) | (info & p & Hv & Hvalid & _)].
  { cbn [fst]. split; [exact Hep|]. split; [exact Hkey|]. split; assumption. }
  rewrite (startListening_suspends _ _ _ _ _ _ _ _ Hv Hvalid). cbn [fst].
  split; [exact Hep|]. split; [exact Hkey|].
  split; cbn [heap runtime record trace].
  - intros r0 p0 H0. apply lookup_app_Some in H0. destruct H0 as [H0 | [_ H0]].
    + now apply (Hcfg r0).
    + apply list_lookup_singleton_Some in H0. destruct H0 as [_ <-].
      cbn. split; [constructor|]. split; [exact Hep|]. split; [exact Hkey|].
      split; [exact Hvalid|].
      destruct (RegistrySetup.validateLink_valid_parsed URL_new _ _ _ Hv Hvalid)
        as [Hparse _].
      exact (ParseLinkFacts.valid_link_token_length URL_new _ _ Hparse Hvalid).
  - apply Forall_app. split.
    + eapply Forall_impl; [exact Hsound|]. intros e. apply sound_event_mono.
      intros r p0 Hp0. exists p0. split; [now apply lookup_app_l_Some|].
      apply same_identity_refl.
    + constructor; [|constructor]. cbn [sound_event].
      split; [exact Hep|]. split; [cbn; now rewrite Hkey|].
      eexists. split; [apply list_lookup_middle; reflexivity|].
      cbn. now repeat split.
Qed.

Lemma step_healthy w op :
  healthy ep0 key0 w -> healthy ep0 key0 (fst (step URL_new w op)).
Proof.
  intros Hw.
  destruct op as [url cbs t1 t2 t3 rnd | id | | id now | k outcome now]; cbn [step fst].
  - now apply startListening_healthy.
  - now apply stopListening_healthy.
  - now apply stopAll_healthy.
  - unfold timerFires. destruct (armed (runtime w) !! id) as [r|]; [|exact Hw].
    destruct (call r (LinkPoller.poll_begin r now) (disarm id w)) as [[c w']|] eqn:Hcall;
      [|exact Hw].
    assert (Hw' : healthy ep0 key0 w').
    { apply (call_healthy _ _ _ _ _ (turns_poll_begin r now) Hcall).
      destruct Hw as (Hep & Hkey & Hcfg & Hsound).
      split; [exact Hep|]. split; [exact Hkey|]. split; assumption. }
    destruct c as [[|]|e]; exact Hw'.
  - unfold fetchSettles. destruct (inflight w !! k) as [f|]; [|exact Hw].
    destruct (call (in_poller f) (LinkPoller.poll_resume (in_poller f) outcome now)
                (set_inflight (delete k (inflight w)) w)) as [[c w']|] eqn:Hcall;
      [|exact Hw].
    assert (Hw' : healthy ep0 key0 w').
    { apply (call_healthy _ _ _ _ _ (turns_poll_resume _ outcome now) Hcall). exact Hw. }
    destruct (in_listener f), c; exact Hw'.
Qed.

Lemma step_sane w op : sane ep0 key0 w -> sane ep0 key0 (fst (step URL_new w op)).
Proof.
  intros (Hn & Ht & Hh). split; [|split].
  - now apply step_numbered.
  - now apply step_tidy.
  - now apply step_healthy.
Qed.

Lemma run_sane ops w : sane ep0 key0 w -> sane ep0 key0 (fst (run URL_new w ops)).
Proof.
  revert w. induction ops as [|op ops IH]; intros w Hw; cbn [run]; [exact Hw|].
  pose proof (step_sane w op Hw) as Hw1.
  destruct (step URL_new w op) as [w1 o]. cbn [fst] in Hw1.
  specialize (IH w1 Hw1). destruct (run URL_new w1 ops) as [w2 os]. exact IH.
Qed.

End Steps.
End Sound.

Lemma boot_sane URL_new options w0 :
  boot URL_new options = Normal w0 ->
  sane (sdk_pollingEndpoint options) (sdk_apiKey options) w0.
Proof.
  intros Hboot. split; [eapply boot_numbered; eassumption|].
  unfold boot, new in Hboot.
  destruct (validateSDKOptions URL_new options); [|discriminate].
  inversion Hboot; subst w0; clear Hboot. split.
  - split; cbn.
    + intros id r H. now rewrite lookup_empty in H.
    + intros r p id H. now rewrite lookup_nil in H.
    + constructor.
    + intros f [].
    + intros r p H. now rewrite lookup_nil in H.
  - split; [reflexivity|]. split; [reflexivity|].
    split; cbn; [|constructor]. intros r p H. now rewrite lookup_nil in H.
Qed.

End RunFacts.

(** ** The registry over a run *)

Module RegistryFacts.
Import SDK SDKFacts LinkPollerFacts Cycle CycleFacts Run RunFacts.

Lemma silenced_idle w :
  tidy w -> activeListeners (sdk w) = ∅ ->
  armed (runtime w) = ∅
  /\ forall (r : Ref) p, heap w !! r = Some p -> In r (inflight_pollers w) ->
       LinkPoller.isRunning p = false.
Proof.
  intros Hw Hempty. split.
  - apply map_empty. intros id. destruct (armed (runtime w) !! id) as [r|] eqn:Hid;
      [|reflexivity].
    destruct (tidy_armed w Hw id r Hid) as (_ & _ & p & Hp & Hr & _).
    destruct (tidy_registered w Hw r p Hp Hr) as [lid Hlid]; [right; eauto|].
    rewrite Hempty in Hlid. now rewrite lookup_empty in Hlid.
  - intros r p Hp Hin. destruct (LinkPoller.isRunning p) eqn:Hr; [|reflexivity].
    destruct (tidy_registered w Hw r p Hp Hr) as [lid Hlid]; [now left|].
    rewrite Hempty in Hlid. now rewrite lookup_empty in Hlid.
Qed.

Lemma own_events_of_stopped r p evs :
  LinkPoller.isRunning p = false -> Forall (own_event r p) evs ->
  forallb starts_nothing evs = true.
Proof.
  intros Hr H. apply forallb_forall. intros e He.
  apply list_elem_of_In in He.
  rewrite Forall_forall in H. specialize (H e He).
  destruct e; cbn in *; try reflexivity; try contradiction.
  destruct H as (_ & Hrun & _). congruence.
Qed.

Lemma getListenerStatus_frame id w w' :
  activeListeners (sdk w') !! id = activeListeners (sdk w) !! id ->
  (forall r : Ref, activeListeners (sdk w) !! id = Some r ->
     heap w' !! r = heap w !! r) ->
  getListenerStatus id w' = getListenerStatus id w.
Proof.
  intros H1 H2. unfold getListenerStatus.
  change (@lookup (list N) nat) with (@lookup (list N) Ref).
  change (@lookup nat LinkPoller.t) with (@lookup Ref LinkPoller.t).
  rewrite H1.
  destruct (activeListeners (sdk w) !! id) as [r|] eqn:E; [|reflexivity].
  cbn. now rewrite (H2 r).
Qed.

Section Platform.
Variable URL_new : jsstring -> option URLObject.

Lemma silenced_step w op :
  well_numbered w -> tidy w -> activeListeners (sdk w) = ∅ ->
  no_new_listener op = true ->
  activeListeners (sdk (fst (step URL_new w op))) = ∅
  /\ exists evs, trace (runtime (fst (step URL_new w op))) = trace (runtime w) ++ evs
                 /\ forallb starts_nothing evs = true.
Proof.
  intros Hnum Hw Hempty Hop.
  assert (Hstill : activeListeners (sdk (fst (step URL_new w op))) = ∅).
  { apply map_empty. intros id.
    destruct (activeListeners (sdk (fst (step URL_new w op))) !! id) as [r|] eqn:Hid;
      [|reflexivity].
    destruct (step_shrinks URL_new w op) as (_ & _ & Hsub & _).
    { intros url cbs t1 t2 t3 rnd ->. discriminate. }
    apply Hsub in Hid. rewrite Hempty in Hid. now rewrite lookup_empty in Hid. }
  split; [exact Hstill|]. clear Hstill.
  destruct (silenced_idle w Hw Hempty) as [Harmed Hidle].
  assert (Hnil : exists evs, trace (runtime w) = trace (runtime w) ++ evs
                             /\ forallb starts_nothing evs = true).
  { exists []. now rewrite app_nil_r. }
  destruct op as [url cbs t1 t2 t3 rnd | id | | id now | k outcome now];
    cbn [step fst]; [discriminate | ..].
  - unfold stopListening. rewrite Hempty, lookup_empty. exact Hnil.
  - unfold stopAll. rewrite Hempty, map_to_list_empty. exact Hnil.
  - unfold timerFires. rewrite Harmed, lookup_empty. exact Hnil.
  - unfold fetchSettles. destruct (inflight w !! k) as [f|] eqn:Hk; [|exact Hnil].
    destruct (call (in_poller f) (LinkPoller.poll_resume (in_poller f) outcome now)
                (set_inflight (delete k (inflight w)) w)) as [[c w']|] eqn:Hcall;
      [|exact Hnil].
    destruct (call_turns _ _ _ _ _ (turns_poll_resume (in_poller f) outcome now) Hcall)
      as (_ & _ & _ & _ & p & q & Hp & _ & _ & Ht & _).
    assert (Hstopped : LinkPoller.isRunning p = false).
    { apply (Hidle (in_poller f) p Hp). unfold inflight_pollers. apply in_map.
      apply list_elem_of_In. eapply list_elem_of_lookup_2. exact Hk. }
    assert (Hev : exists evs, trace (runtime w') = trace (runtime w) ++ evs
                              /\ forallb starts_nothing evs = true).
    { destruct Ht as [evs _ _ Hrt Hevs | evs Hrun _ _ _ _ | evs Hrun _ _ _ _];
        try congruence.
      exists evs. rewrite Hrt. split; [reflexivity|].
      now apply (own_events_of_stopped (in_poller f) p). }
    destruct (in_listener f), c; exact Hev.
Qed.

Lemma silenced_run ops w :
  well_numbered w -> tidy w -> activeListeners (sdk w) = ∅ ->
  forallb no_new_listener ops = true ->
  exists evs, trace (runtime (fst (run URL_new w ops))) = trace (runtime w) ++ evs
              /\ forallb starts_nothing evs = true.
Proof.
  revert w. induction ops as [|op ops IH]; intros w Hnum Hw Hempty Hops; cbn [run].
  - exists []. now rewrite app_nil_r.
  - cbn in Hops. apply andb_prop in Hops. destruct Hops as [Hop Hops].
    destruct (silenced_step w op Hnum Hw Hempty Hop) as (Hempty1 & evs1 & Ht1 & Hs1).
    pose proof (step_numbered URL_new w op Hnum) as (Hnum1 & _).
    pose proof (step_tidy URL_new w op Hnum Hw) as Hw1.
    destruct (step URL_new w op) as [w1 o]. cbn [fst] in *.
    destruct (IH w1 Hnum1 Hw1 Hempty1 Hops) as (evs2 & Ht2 & Hs2).
    destruct (run URL_new w1 ops) as [w2 os]. cbn [fst] in *.
    exists (evs1 ++ evs2). rewrite Ht2, Ht1, app_assoc. split; [reflexivity|].
    now rewrite forallb_app, Hs1, Hs2.
Qed.

(** X17. In every run of a registry from its construction, no timer is ever
    set for less than 1000 ms. *)
Theorem timers_are_never_set_below_a_second
  (options : SDKOptions) (w0 : World) (ops : list Op) :
  boot URL_new options = Normal w0 ->
  Forall (fun delay => (millis 1000 <= delay)%Qc)
    (timer_delays (trace (runtime (fst (run URL_new w0 ops))))).
Proof.
  intros Hboot.
  destruct (run_sane _ _ URL_new ops w0 (boot_sane _ _ _ Hboot))
    as (_ & _ & _ & _ & _ & Hsound).
  unfold timer_delays. induction Hsound as [|e evs He _ IH]; cbn; [constructor|].
  destruct e; try exact IH. constructor; [exact He | exact IH].
Qed.

(** X18. In every run of a registry from its construction, every request goes
    to the configured endpoint, carries the configured key when that is not
    empty, and names the token, type, password and client identifier of the
    poller that makes it; and every handler call is given the link of its
    poller, a link that passed validation. *)
Theorem requests_and_handler_calls_name_their_poller
  (options : SDKOptions) (w0 : World) (ops : list Op) :
  boot URL_new options = Normal w0 ->
  let w := fst (run URL_new w0 ops) in
  Forall (in_its_pollers_name (sdk_pollingEndpoint options) (sdk_apiKey options)
            (heap w))
    (trace (runtime w)).
Proof.
  intros Hboot. cbv zeta.
  destruct (run_sane _ _ URL_new ops w0 (boot_sane _ _ _ Hboot))
    as (_ & _ & _ & _ & _ & Hsound).
  eapply Forall_impl; [exact Hsound|]. intros e He.
  destruct e; try exact He. exact I.
Qed.

(** X19. In every run of a registry from its construction, the cycles of a
    poller never overlap: no poller awaits two fetches, a poller that has a
    timer set awaits no fetch, and no poller has two timers set. *)
Theorem cycles_of_a_poller_never_overlap
  (options : SDKOptions) (w0 : World) (ops : list Op) :
  boot URL_new options = Normal w0 ->
  let w := fst (run URL_new w0 ops) in
  NoDup (inflight_pollers w)
  /\ forall id r, armed (runtime w) !! id = Some r ->
       ~ In r (inflight_pollers w)
       /\ forall id', armed (runtime w) !! id' = Some r -> id' = id.
Proof.
  intros Hboot. cbv zeta.
  destruct (run_sane _ _ URL_new ops w0 (boot_sane _ _ _ Hboot)) as (_ & Hw & _).
  split; [apply (tidy_inflight _ Hw)|].
  intros id r Hid. destruct (tidy_armed _ Hw id r Hid) as (_ & Hnin & p & Hp & _ & Ht).
  split; [exact Hnin|]. intros id' Hid'.
  destruct (tidy_armed _ Hw id' r Hid') as (_ & _ & p' & Hp' & _ & Ht').
  congruence.
Qed.

(** X20. [stopAll], at any point of a run of a registry from its
    construction, empties the table and leaves no timer set and no running
    poller awaiting a fetch; and as long as [startListening] is not called
    again, nothing that happens afterwards issues a request or sets a timer:
    fetches that settle late only reach the handlers. *)
Theorem stopAll_silences_the_registry
  (options : SDKOptions) (w0 : World) (ops ops' : list Op) :
  boot URL_new options = Normal w0 ->
  forallb no_new_listener ops' = true ->
  let w1 := stopAll (fst (run URL_new w0 ops)) in
  let w2 := fst (run URL_new w1 ops') in
  getActiveListenerCount w1 = 0
  /\ armed (runtime w1) = ∅
  /\ (forall (r : Ref) p, heap w1 !! r = Some p -> In r (inflight_pollers w1) ->
        LinkPoller.isRunning p = false)
  /\ exists evs, trace (runtime w2) = trace (runtime w1) ++ evs
                 /\ forallb starts_nothing evs = true.
Proof.
  intros Hboot Hops. cbv zeta.
  destruct (run_sane _ _ URL_new ops w0 (boot_sane _ _ _ Hboot)) as (Hnum & Hw & _).
  set (w := fst (run URL_new w0 ops)) in *.
  pose proof (step_numbered URL_new w StopAll Hnum) as (Hnum1 & _).
  pose proof (stopAll_tidy w Hw) as Hw1. cbn [step fst] in Hnum1.
  destruct (stopAll_frame w) as (_ & _ & Hempty).
  destruct (silenced_idle _ Hw1 Hempty) as [Harmed Hidle].
  split; [unfold getActiveListenerCount; rewrite Hempty; apply map_size_empty|].
  split; [exact Harmed|]. split; [exact Hidle|].
  now apply silenced_run.
Qed.

(** X21. [stopListening] with an identifier in the table, at any point of a
    run of a registry from its construction: the entry is removed and the
    count drops by one; the poller is stopped and no timer stays set for it;
    the other pollers and their timers are untouched; and whatever happens
    afterwards, the poller stays stopped and never issues a request or sets
    a timer again. *)
Theorem stopListening_stops_that_listener_only
  (options : SDKOptions) (w0 : World) (ops ops' : list Op)
  (id : jsstring) (r : Ref) :
  boot URL_new options = Normal w0 ->
  let w := fst (run URL_new w0 ops) in
  activeListeners (sdk w) !! id = Some r ->
  let w' := stopListening id w in
  activeListeners (sdk w') = delete id (activeListeners (sdk w))
  /\ S (getActiveListenerCount w') = getActiveListenerCount w
  /\ getListenerStatus id w' = None
  /\ dormant r w'
  /\ (forall tid, armed (runtime w') !! tid <> Some r)
  /\ (forall r' : Ref, r' <> r -> heap w' !! r' = heap w !! r')
  /\ (forall tid (r' : Ref), r' <> r ->
        armed (runtime w) !! tid = Some r' -> armed (runtime w') !! tid = Some r')
  /\ dormant r (fst (run URL_new w' ops'))
  /\ extends r w' (fst (run URL_new w' ops')).
Proof.
  intros Hboot w Hid w'.
  destruct (run_sane _ _ URL_new ops w0 (boot_sane _ _ _ Hboot)) as ([_ Hnum] & Hw & _).
  fold w in Hnum, Hw.
  destruct (Hnum id r Hid) as [Hlt _].
  apply lookup_lt_is_Some in Hlt. destruct Hlt as [p Hp].
  change (heap w !! r = Some p) in Hp.
  pose proof (stopListening_tidy id w Hw) as Hw'. fold w' in Hw'.
  destruct (call r (LinkPoller.stop r) w) as [[c w1]|] eqn:Hcall.
  2:{ unfold call in Hcall. rewrite Hp in Hcall.
      destruct (LinkPoller.stop r (p, runtime w)) as [c [p' rt']]. discriminate. }
  assert (Hw'eq : w' = forget id w1).
  { unfold w', stopListening. now rewrite Hid, Hcall. }
  destruct (call_turns _ _ _ _ _ (turns_stop r) Hcall)
    as (Hs & _ & _ & Ho & p0 & q & Hp0 & Hq & _ & Ht & _ & Hq' & _).
  rewrite Hp in Hp0. inversion Hp0; subst p0; clear Hp0.
  assert (Hstopped : LinkPoller.isRunning q = false).
  { rewrite Hq'. apply stop_state. }
  assert (Hdorm : dormant r w').
  { exists q. rewrite Hw'eq. split; [exact Hq | exact Hstopped]. }
  split; [rewrite Hw'eq; cbn; now rewrite Hs|].
  split.
  { unfold getActiveListenerCount. rewrite Hw'eq. cbn. rewrite Hs.
    rewrite map_size_delete_Some by (rewrite Hid; eauto).
    assert (size (activeListeners (sdk w)) <> 0).
    { intros H0. apply map_size_empty_inv in H0. rewrite H0 in Hid.
      now rewrite lookup_empty in Hid. }
    lia. }
  split.
  { unfold getListenerStatus. rewrite Hw'eq. cbn. now rewrite lookup_delete_eq. }
  split; [exact Hdorm|].
  split.
  { intros tid Htid. destruct (tidy_armed _ Hw' tid r Htid) as (_ & _ & p1 & Hp1 & Hr1 & _).
    destruct Hdorm as (p2 & Hp2 & Hr2). congruence. }
  split; [intros r' Hne; rewrite Hw'eq; cbn; now apply Ho|].
  split.
  { intros tid r' Hne Htid. rewrite Hw'eq. cbn [forget set_sdk runtime].
    destruct Ht as [evs _ _ Hrt _ | evs _ _ _ Hrt _ | evs _ _ _ Hrt _];
      rewrite Hrt; cbn [armed record].
    - exact Htid.
    - rewrite lookup_insert_ne; [exact Htid|].
      intros <-. destruct (tidy_armed _ Hw _ _ Htid) as (Hlt' & _). lia.
    - destruct (LinkPoller.timeoutId p) as [tid0|] eqn:Htid0; [|exact Htid].
      rewrite lookup_delete_ne; [exact Htid|].
      intros <-. destruct (tidy_armed _ Hw _ _ Htid) as (_ & _ & p1 & Hp1 & _ & Ht1).
      destruct (tidy_handles _ Hw r p tid0 Hp Htid0) as [_ Huniq].
      apply Hne. now apply (Huniq r' p1). }
  now apply run_dormant.
Qed.

(** X22. A call of [startListening] whose link passes validation, at any
    point of a run of a registry from its construction: the identifier it
    allocates was not in the table, the count grows by one, the other
    listeners report what they reported before, and the new listener reports
    a running poller at the base interval of its link type, with no empty
    cycle counted. *)
Theorem startListening_registers_a_running_listener
  (options : SDKOptions) (w0 : World) (ops : list Op)
  (url : JsArg) (cbs : LinkCallbacks) (t1 t2 t3 : Z) (rnd : jsstring)
  (info : LinkInfo) :
  boot URL_new options = Normal w0 ->
  let w := fst (run URL_new w0 ops) in
  validateLink URL_new (sdk w) url = Normal info -> isValid info = true ->
  let id := listenerId t1 (listenerCounter (sdk w) + 1) in
  let w' := fst (startListening URL_new url cbs t1 t2 t3 rnd w) in
  snd (startListening URL_new url cbs t1 t2 t3 rnd w) = Suspended id
  /\ activeListeners (sdk w) !! id = None
  /\ getActiveListenerCount w' = S (getActiveListenerCount w)
  /\ (forall id', id' <> id -> getListenerStatus id' w' = getListenerStatus id' w)
  /\ getListenerStatus id w'
     = Some {| LinkPoller.status_isRunning := true;
               LinkPoller.status_currentInterval :=
                 match type info with
                 | ping => millis 10000
                 | webhook => millis 60000
                 end;
               LinkPoller.status_consecutiveEmpty := 0;
               LinkPoller.status_clientId := generateClientId t2 rnd;
               LinkPoller.status_token := substring0 8 (token info) ++ str "...";
               LinkPoller.status_type := type info |}.
Proof.
  intros Hboot w Hv Hvalid id w'.
  destruct (run_sane _ _ URL_new ops w0 (boot_sane _ _ _ Hboot)) as ([Hc Hnum] & _ & _).
  fold w in Hc, Hnum.
  assert (Hfresh : activeListeners (sdk w) !! id = None).
  { destruct (activeListeners (sdk w) !! id) as [r|] eqn:Hid; [|reflexivity].
    destruct (Hnum id r Hid) as (Hlt & t & Heq). unfold id in Heq.
    apply listenerId_inj in Heq. lia. }
  unfold w'. rewrite (startListening_suspends _ _ _ _ _ _ _ _ _ Hv Hvalid).
  cbn [fst snd]. fold id.
  split; [reflexivity|]. split; [exact Hfresh|].
  split.
  { unfold getActiveListenerCount. cbn. now rewrite map_size_insert_None. }
  split.
  { intros id' Hne. apply getListenerStatus_frame; cbn [sdk heap activeListeners
                                                          set_activeListeners].
    - apply lookup_insert_ne. congruence.
    - intros r Hid'. destruct (Hnum id' r Hid') as (Hlt & _).
      now apply lookup_app_l. }
  unfold getListenerStatus. cbn. rewrite lookup_insert_eq. cbn.
  rewrite list_lookup_middle by reflexivity. cbn. reflexivity.
Qed.

(** X23. When the first cycle of a listener throws, the [startListening] call
    that awaited it is rejected with that error, the listener is taken out
    of the table again, and its poller is left with no fetch awaited and no
    timer set: it never polls again. *)
Theorem failed_first_cycle_unregisters_the_listener
  (options : SDKOptions) (w0 : World) (ops : list Op)
  (k : nat) (outcome : FetchOutcome) (now : Z) (e : Thrown) :
  boot URL_new options = Normal w0 ->
  let w := fst (run URL_new w0 ops) in
  snd (fetchSettles k outcome now w) = Rejected e ->
  let w' := fst (fetchSettles k outcome now w) in
  exists f id,
    inflight w !! k = Some f /\ in_listener f = Some id
    /\ activeListeners (sdk w') = delete id (activeListeners (sdk w))
    /\ getListenerStatus id w' = None
    /\ ~ pending (in_poller f) w'.
Proof.
  intros Hboot w Hout w'.
  destruct (run_sane _ _ URL_new ops w0 (boot_sane _ _ _ Hboot)) as (_ & Hw & _).
  fold w in Hw.
  unfold w'. unfold fetchSettles in *.
  destruct (inflight w !! k) as [f|] eqn:Hk; [|discriminate].
  destruct (call (in_poller f) (LinkPoller.poll_resume (in_poller f) outcome now)
              (set_inflight (delete k (inflight w)) w)) as [[c w1]|] eqn:Hcall;
    [|discriminate].
  destruct (in_listener f) as [id|] eqn:Hlid; destruct c as [[]|e']; try discriminate.
  cbn [fst snd] in *. exists f, id. split; [reflexivity|]. split; [exact Hlid|].
  destruct (call_turns _ _ _ _ _ (turns_poll_resume (in_poller f) outcome now) Hcall)
    as (Hs & Hi & _ & _ & p & q & Hp & _ & _ & _ & Hc & _ & Hrt).
  split; [cbn; now rewrite Hs|].
  split; [unfold getListenerStatus; cbn; now rewrite lookup_delete_eq|].
  intros [Hin | [tid Htid]].
  - unfold inflight_pollers in Hin. cbn [forget set_sdk inflight] in Hin.
    rewrite Hi in Hin.
    revert Hin. change (~ In (in_poller f)
                          (inflight_pollers (set_inflight (delete k (inflight w)) w))).
    rewrite inflight_pollers_delete.
    apply NoDup_delete_lookup; [apply (tidy_inflight w Hw)|].
    unfold inflight_pollers. now rewrite list_lookup_fmap, Hk.
  - cbn [forget set_sdk runtime] in Htid. symmetry in Hc.
    pose proof (poll_resume_throws _ _ _ _ _ _ Hc) as Harm.
    rewrite <- Hrt in Harm. rewrite Harm in Htid. cbn in Htid.
    destruct (tidy_armed w Hw tid _ Htid) as (_ & Hnin & _). apply Hnin.
    unfold inflight_pollers. apply in_map.
    apply list_elem_of_In. eapply list_elem_of_lookup_2. exact Hk.
Qed.

(** X24. In every run of a registry from its construction, the status of a
    listener shows the first eight units of the token of its link followed
    by three dots, and at least eight more units of the token are withheld;
    the interval it reports is at least 1000 ms. *)
Theorem listener_status_masks_the_token
  (options : SDKOptions) (w0 : World) (ops : list Op)
  (id : jsstring) (st : LinkPoller.Status) :
  boot URL_new options = Normal w0 ->
  let w := fst (run URL_new w0 ops) in
  getListenerStatus id w = Some st ->
  exists (r : Ref) p shown withheld,
    activeListeners (sdk w) !! id = Some r /\ heap w !! r = Some p
    /\ token (LinkPoller.linkInfo p) = shown ++ withheld
    /\ LinkPoller.status_token st = shown ++ str "..."
    /\ length shown = 8 /\ 8 <= length withheld
    /\ (millis 1000 <= LinkPoller.status_currentInterval st)%Qc.
Proof.
  intros Hboot w Hst.
  destruct (run_sane _ _ URL_new ops w0 (boot_sane _ _ _ Hboot))
    as (_ & _ & _ & _ & Hcfg & _).
  fold w in Hcfg. unfold getListenerStatus in Hst.
  change (@lookup (list N) nat) with (@lookup (list N) Ref) in Hst.
  change (@lookup nat LinkPoller.t) with (@lookup Ref LinkPoller.t) in Hst.
  destruct (activeListeners (sdk w) !! id) as [r|] eqn:Hid; [|discriminate].
  cbn in Hst. destruct (heap w !! r) as [p|] eqn:Hp; [|discriminate].
  cbn in Hst. inversion Hst; subst st; clear Hst.
  destruct (Hcfg r p Hp) as (Hreach & _ & _ & _ & Hlen).
  exists r, p, (firstn 8 (token (LinkPoller.linkInfo p))),
    (skipn 8 (token (LinkPoller.linkInfo p))).
  split; [reflexivity|]. split; [exact Hp|].
  split; [now rewrite firstn_skipn|]. split; [reflexivity|].
  split; [rewrite length_firstn; lia|]. split; [rewrite length_skipn; lia|].
  cbn [LinkPoller.getStatus LinkPoller.status_currentInterval].
  now apply AdaptivePollerMore.floor_of_reachable.
Qed.

End Platform.

(** X25. A poller that stops itself on a terminal link status stays in the
    table: the count of listeners and [isListening] are as before, and the
    status of the listener is still reported, now as not running. *)
Theorem terminated_listener_stays_registered
  (w : World) (k : nat) (f : Inflight) (p : LinkPoller.t) (id : jsstring)
  (status : N) (statusText : jsstring) (result : PollResponse) (now : Z) :
  inflight w !! k = Some f ->
  heap w !! in_poller f = Some p ->
  activeListeners (sdk w) !! id = Some (in_poller f) ->
  response_ok status = true ->
  LinkPoller.is_terminal (linkStatus result) = true ->
  LinkPoller.handlers_return p result ->
  let w' := fst (fetchSettles k (FetchResponse status statusText (JsonOk result)) now w) in
  getActiveListenerCount w' = getActiveListenerCount w
  /\ isListening w' = isListening w
  /\ exists st, getListenerStatus id w' = Some st
                /\ LinkPoller.status_isRunning st = false.
Proof.
  intros Hk Hp Hid Hok Hterm Hret w'.
  assert (Hres : LinkPoller.poll_resume (in_poller f)
                   (FetchResponse status statusText (JsonOk result)) now (p, runtime w)
                 = LinkPoller.stop (in_poller f)
                     (LinkPoller.seen now result p,
                      record (LinkPoller.payload_delivery (in_poller f) p result
                              ++ delivery (onStatusChange (LinkPoller.callbacks p))
                                   (EvOnStatusChange (in_poller f) (linkStatus result)
                                      (LinkPoller.linkInfo p))) (runtime w)))
    by now apply poll_resume_terminal.
  assert (Hw' : sdk w' = sdk w
                /\ exists q, heap w' !! in_poller f = Some q
                             /\ LinkPoller.isRunning q = false).
  { unfold w', fetchSettles. rewrite Hk. unfold call. cbn [set_inflight heap runtime].
    rewrite Hp, Hres. rewrite stop_returns.
    destruct (stop_state (in_poller f) (LinkPoller.seen now result p)
                (record (LinkPoller.payload_delivery (in_poller f) p result
                         ++ delivery (onStatusChange (LinkPoller.callbacks p))
                              (EvOnStatusChange (in_poller f) (linkStatus result)
                                 (LinkPoller.linkInfo p))) (runtime w)))
      as (_ & _ & _ & Hstop).
    destruct (snd (LinkPoller.stop _ _)) as [q rt'] eqn:Hq. cbn [fst] in Hstop.
    destruct (in_listener f); cbn [fst sdk heap].
    all: split; [reflexivity|]; exists q; split; [|exact Hstop].
    all: apply list_lookup_insert_eq; now apply lookup_lt_Some in Hp. }
  destruct Hw' as (Hs & q & Hq & Hstop).
  unfold getActiveListenerCount, isListening, getListenerStatus. rewrite Hs.
  split; [reflexivity|]. split; [reflexivity|].
  change (@lookup (list N) nat) with (@lookup (list N) Ref).
  change (@lookup nat LinkPoller.t) with (@lookup Ref LinkPoller.t).
  rewrite Hid. cbn. rewrite Hq. cbn. eexists. split; [reflexivity|]. exact Hstop.
Qed.

(** *** The statements at the sample objects *)

Lemma timers_are_never_set_below_a_second_witness :
  boot URL_plain sample_options = Normal sample_world
  /\ Forall (fun delay => (millis 1000 <= delay)%Qc)
       (timer_delays
          (trace (runtime
             (fst (run URL_plain sample_world
                     [StartListening (JsString sample_url) no_callbacks 5 5 5 (str "a");
                      FetchSettles 0 (ok payload_response) 6]))))).
Proof.
  assert (H : boot URL_plain sample_options = Normal sample_world) by reflexivity.
  split; [exact H|].
  exact (timers_are_never_set_below_a_second URL_plain sample_options sample_world
           [StartListening (JsString sample_url) no_callbacks 5 5 5 (str "a");
            FetchSettles 0 (ok payload_response) 6] H).
Defined.

Lemma requests_and_handler_calls_name_their_poller_witness :
  boot URL_plain sample_options = Normal sample_world
  /\ Forall (in_its_pollers_name (sdk_pollingEndpoint sample_options)
               (sdk_apiKey sample_options)
               (heap (fst (run URL_plain sample_world
                             [StartListening (JsString sample_url)
                                (on_payload accepting) 5 5 5 (str "a");
                              FetchSettles 0 (ok payload_response) 6]))))
       (trace (runtime
          (fst (run URL_plain sample_world
                  [StartListening (JsString sample_url)
                     (on_payload accepting) 5 5 5 (str "a");
                   FetchSettles 0 (ok payload_response) 6])))).
Proof.
  assert (H : boot URL_plain sample_options = Normal sample_world) by reflexivity.
  split; [exact H|].
  exact (requests_and_handler_calls_name_their_poller URL_plain sample_options
           sample_world
           [StartListening (JsString sample_url) (on_payload accepting) 5 5 5 (str "a");
            FetchSettles 0 (ok payload_response) 6] H).
Defined.

Lemma cycles_of_a_poller_never_overlap_witness :
  boot URL_plain sample_options = Normal sample_world
  /\ NoDup (inflight_pollers
              (fst (run URL_plain sample_world
                      [StartListening (JsString sample_url) no_callbacks 5 5 5 (str "a");
                       StartListening (JsString sample_url) no_callbacks 6 6 6
                         (str "b")]))).
Proof.
  assert (H : boot URL_plain sample_options = Normal sample_world) by reflexivity.
  split; [exact H|].
  exact (proj1 (cycles_of_a_poller_never_overlap URL_plain sample_options sample_world
                  [StartListening (JsString sample_url) no_callbacks 5 5 5 (str "a");
                   StartListening (JsString sample_url) no_callbacks 6 6 6 (str "b")]
                  H)).
Defined.

Lemma stopAll_silences_the_registry_witness :
  boot URL_plain sample_options = Normal sample_world
  /\ forallb no_new_listener [FetchSettles 0 (ok payload_response) 6; TimerFires 1%N 9]
     = true
  /\ exists evs,
       trace (runtime
                (fst (run URL_plain
                        (stopAll
                           (fst (run URL_plain sample_world
                                   [StartListening (JsString sample_url)
                                      (on_payload accepting) 5 5 5 (str "a")])))
                        [FetchSettles 0 (ok payload_response) 6; TimerFires 1%N 9])))
       = trace (runtime
                  (stopAll
                     (fst (run URL_plain sample_world
                             [StartListening (JsString sample_url)
                                (on_payload accepting) 5 5 5 (str "a")]))))
         ++ evs
       /\ forallb starts_nothing evs = true.
Proof.
  assert (H : boot URL_plain sample_options = Normal sample_world) by reflexivity.
  split; [exact H|]. split; [reflexivity|].
  exact (proj2 (proj2 (proj2
           (stopAll_silences_the_registry URL_plain sample_options sample_world
              [StartListening (JsString sample_url) (on_payload accepting) 5 5 5
                 (str "a")]
              [FetchSettles 0 (ok payload_response) 6; TimerFires 1%N 9]
              H eq_refl)))).
Defined.

Lemma stopListening_stops_that_listener_only_witness :
  boot URL_plain sample_options = Normal sample_world
  /\ activeListeners
       (sdk (fst (run URL_plain sample_world
                    [StartListening (JsString sample_url) no_callbacks 5 5 5 (str "a")])))
       !! str "listener-5-1" = Some 0
  /\ dormant 0
       (stopListening (str "listener-5-1")
          (fst (run URL_plain sample_world
                  [StartListening (JsString sample_url) no_callbacks 5 5 5 (str "a")]))).
Proof.
  assert (H : boot URL_plain sample_options = Normal sample_world) by reflexivity.
  assert (H' : activeListeners
                 (sdk (fst (run URL_plain sample_world
                              [StartListening (JsString sample_url) no_callbacks
                                 5 5 5 (str "a")])))
                 !! str "listener-5-1" = Some 0)
    by (vm_compute; reflexivity).
  split; [exact H|]. split; [exact H'|].
  exact (proj1 (proj2 (proj2 (proj2
           (stopListening_stops_that_listener_only URL_plain sample_options
              sample_world
              [StartListening (JsString sample_url) no_callbacks 5 5 5 (str "a")]
              [FetchSettles 0 (ok payload_response) 6]
              (str "listener-5-1") 0 H H'))))).
Defined.

Lemma startListening_registers_a_running_listener_witness :
  boot URL_plain sample_options = Normal sample_world
  /\ validateLink URL_plain (sdk (fst (run URL_plain sample_world [])))
       (JsString sample_url) = Normal sample_link
  /\ snd (startListening URL_plain (JsString sample_url) no_callbacks 5 5 5 (str "a")
            (fst (run URL_plain sample_world [])))
     = Suspended
         (listenerId 5
            (listenerCounter (sdk (fst (run URL_plain sample_world []))) + 1)).
Proof.
  assert (H : boot URL_plain sample_options = Normal sample_world) by reflexivity.
  assert (H' : validateLink URL_plain (sdk (fst (run URL_plain sample_world [])))
                 (JsString sample_url) = Normal sample_link)
    by (vm_compute; reflexivity).
  split; [exact H|]. split; [exact H'|].
  exact (proj1 (startListening_registers_a_running_listener URL_plain sample_options
                  sample_world [] (JsString sample_url) no_callbacks 5 5 5 (str "a")
                  sample_link H H' eq_refl)).
Defined.

Lemma failed_first_cycle_unregisters_the_listener_witness :
  boot URL_plain sample_options = Normal sample_world
  /\ snd (fetchSettles 0 (FetchRejected (ThrownError (str "offline"))) 6
            (fst (run URL_plain sample_world
                    [StartListening (JsString sample_url) (on_error refusing)
                       5 5 5 (str "a")])))
     = Rejected (ThrownError (str "handler failed"))
  /\ exists f id,
       inflight (fst (run URL_plain sample_world
                        [StartListening (JsString sample_url) (on_error refusing)
                           5 5 5 (str "a")])) !! 0 = Some f
       /\ in_listener f = Some id
       /\ activeListeners
            (sdk (fst (fetchSettles 0 (FetchRejected (ThrownError (str "offline"))) 6
                         (fst (run URL_plain sample_world
                                 [StartListening (JsString sample_url)
                                    (on_error refusing) 5 5 5 (str "a")])))))
          = delete id
              (activeListeners
                 (sdk (fst (run URL_plain sample_world
                              [StartListening (JsString sample_url)
                                 (on_error refusing) 5 5 5 (str "a")]))))
       /\ getListenerStatus id
            (fst (fetchSettles 0 (FetchRejected (ThrownError (str "offline"))) 6
                    (fst (run URL_plain sample_world
                            [StartListening (JsString sample_url)
                               (on_error refusing) 5 5 5 (str "a")]))))
          = None
       /\ ~ pending (in_poller f)
            (fst (fetchSettles 0 (FetchRejected (ThrownError (str "offline"))) 6
                    (fst (run URL_plain sample_world
                            [StartListening (JsString sample_url)
                               (on_error refusing) 5 5 5 (str "a")])))).
Proof.
  assert (H : boot URL_plain sample_options = Normal sample_world) by reflexivity.
  assert (H' : snd (fetchSettles 0 (FetchRejected (ThrownError (str "offline"))) 6
                      (fst (run URL_plain sample_world
                              [StartListening (JsString sample_url)
                                 (on_error refusing) 5 5 5 (str "a")])))
               = Rejected (ThrownError (str "handler failed")))
    by (vm_compute; reflexivity).
  split; [exact H|]. split; [exact H'|].
  exact (failed_first_cycle_unregisters_the_listener URL_plain sample_options
           sample_world
           [StartListening (JsString sample_url) (on_error refusing) 5 5 5 (str "a")]
           0 (FetchRejected (ThrownError (str "offline"))) 6
           (ThrownError (str "handler failed")) H H').
Defined.

Lemma listener_status_masks_the_token_witness :
  boot URL_plain sample_options = Normal sample_world
  /\ getListenerStatus (str "listener-5-1")
       (fst (run URL_plain sample_world
               [StartListening (JsString sample_url) no_callbacks 5 5 5 (str "a")]))
     = Some {| LinkPoller.status_isRunning := true;
               LinkPoller.status_currentInterval := millis 10000;
               LinkPoller.status_consecutiveEmpty := 0;
               LinkPoller.status_clientId := str "sdk-5-a";
               LinkPoller.status_token := str "abc123de...";
               LinkPoller.status_type := ping |}
  /\ exists (r : Ref) p shown withheld,
       activeListeners
         (sdk (fst (run URL_plain sample_world
                      [StartListening (JsString sample_url) no_callbacks 5 5 5
                         (str "a")])))
         !! str "listener-5-1" = Some r
       /\ heap (fst (run URL_plain sample_world
                       [StartListening (JsString sample_url) no_callbacks 5 5 5
                          (str "a")])) !! r = Some p
       /\ token (LinkPoller.linkInfo p) = shown ++ withheld
       /\ str "abc123de..." = shown ++ str "..."
       /\ length shown = 8 /\ 8 <= length withheld
       /\ (millis 1000 <= millis 10000)%Qc.
Proof.
  assert (H : boot URL_plain sample_options = Normal sample_world) by reflexivity.
  assert (H' : getListenerStatus (str "listener-5-1")
                 (fst (run URL_plain sample_world
                         [StartListening (JsString sample_url) no_callbacks 5 5 5
                            (str "a")]))
               = Some {| LinkPoller.status_isRunning := true;
                         LinkPoller.status_currentInterval := millis 10000;
                         LinkPoller.status_consecutiveEmpty := 0;
                         LinkPoller.status_clientId := str "sdk-5-a";
                         LinkPoller.status_token := str "abc123de...";
                         LinkPoller.status_type := ping |})
    by (vm_compute; reflexivity).
  split; [exact H|]. split; [exact H'|].
  exact (listener_status_masks_the_token URL_plain sample_options sample_world
           [StartListening (JsString sample_url) no_callbacks 5 5 5 (str "a")]
           (str "listener-5-1") _ H H').
Defined.

Lemma terminated_listener_stays_registered_witness :
  LinkPoller.handlers_return
    (LinkPoller.set_isRunning true
       (LinkPoller.new sample_link
          (pollerOptions (set_listenerCounter 1 (sample_sdk None)) sample_link
             (on_status accepting))
          (str "sdk-5-a")))
    deleted_response
  /\ getActiveListenerCount
       (fst (fetchSettles 0 (ok deleted_response) 6
               (fst (run URL_plain sample_world
                       [StartListening (JsString sample_url) (on_status accepting)
                          5 5 5 (str "a")]))))
     = getActiveListenerCount
         (fst (run URL_plain sample_world
                 [StartListening (JsString sample_url) (on_status accepting)
                    5 5 5 (str "a")])).
Proof.
  assert (H : LinkPoller.handlers_return
                (LinkPoller.set_isRunning true
                   (LinkPoller.new sample_link
                      (pollerOptions (set_listenerCounter 1 (sample_sdk None))
                         sample_link (on_status accepting))
                      (str "sdk-5-a")))
                deleted_response) by (split; reflexivity).
  split; [exact H|].
  refine (proj1 (terminated_listener_stays_registered
                   (fst (run URL_plain sample_world
                           [StartListening (JsString sample_url) (on_status accepting)
                              5 5 5 (str "a")]))
                   0 {| in_poller := 0; in_listener := Some (str "listener-5-1") |}
                   _ (str "listener-5-1") 200%N (str "OK") deleted_response 6
                   _ _ _ eq_refl eq_refl H)).
  - vm_compute. reflexivity.
  - vm_compute. reflexivity.
  - vm_compute. reflexivity.
Defined.

End RegistryFacts.
